(** * vscode-arduino: board registry, installed platforms, example tree

    A shallow embedding of the data-handling core of the extension:
    the board descriptor parser, the package index merge, the installed
    platform resolver, the example tree builder and the install handler
    of the local web bridge.

    JavaScript strings are modelled as [string] over 8-bit characters
    (code units 0..255); a [Map] is a [gmap] (iteration order is not
    modelled); an exception is an explicit result. *)

From Stdlib Require Import String Ascii List Bool Arith ZArith QArith Lia.
From stdpp Require Import gmap strings list fin_maps.

Import ListNotations.
Local Open Scope string_scope.
Set Warnings "-register-all".

(* String concatenation computes under [simpl] on a constructor. *)
Arguments String.append !s1 s2 : simpl nomatch.
Arguments Ascii.eqb : simpl never.

(** ** Strings as the JavaScript runtime sees them *)
Module Js.

Fixpoint string_forall (c : ascii -> bool) (s : string) : bool :=
  match s with
  | EmptyString => true
  | String ch s' => c ch && string_forall c s'
  end.

Definition nonempty (s : string) : bool :=
  match s with EmptyString => false | String _ _ => true end.

(** White space as [\s] and [String.prototype.trim] understand it, within
    the 8-bit alphabet: TAB, LF, VT, FF, CR, SPACE and NBSP. *)
Definition isWhiteSpace (ch : ascii) : bool :=
  let n := nat_of_ascii ch in
  (Nat.leb 9 n && Nat.leb n 13) || Nat.eqb n 32 || Nat.eqb n 160.

(** Line terminators, which [.] does not match: LF and CR. *)
Definition isLineTerminator (ch : ascii) : bool :=
  let n := nat_of_ascii ch in Nat.eqb n 10 || Nat.eqb n 13.

Definition isChar (a ch : ascii) : bool := Ascii.eqb ch a.

Fixpoint trimStart (s : string) : string :=
  match s with
  | EmptyString => EmptyString
  | String ch s' => if isWhiteSpace ch then trimStart s' else s
  end.

Fixpoint trimEnd (s : string) : string :=
  match s with
  | EmptyString => EmptyString
  | String ch s' =>
      match trimEnd s' with
      | EmptyString => if isWhiteSpace ch then EmptyString else String ch EmptyString
      | t => String ch t
      end
  end.

(** [s.trim()] *)
Definition trim (s : string) : string := trimEnd (trimStart s).

(** [s.startsWith(p)] *)
Fixpoint startsWith (s p : string) {struct p} : bool :=
  match p, s with
  | EmptyString, _ => true
  | String _ _, EmptyString => false
  | String a p', String b s' => Ascii.eqb b a && startsWith s' p'
  end.

(** The longest prefix of [s] whose characters all satisfy [c]. *)
Fixpoint takeWhile (c : ascii -> bool) (s : string) : string :=
  match s with
  | EmptyString => EmptyString
  | String ch s' => if c ch then String ch (takeWhile c s') else EmptyString
  end.

(** [s.endsWith(p)] *)
Definition endsWith (s p : string) : bool :=
  let n := String.length s in
  let m := String.length p in
  Nat.leb m n && String.eqb (String.substring (n - m) m s) p.

(** [s.indexOf(sub)]: the first position at which [sub] occurs, or -1. *)
Fixpoint indexOf_from (i : Z) (s sub : string) : Z :=
  if startsWith s sub then i
  else match s with
       | EmptyString => (-1)%Z
       | String _ s' => indexOf_from (i + 1)%Z s' sub
       end.

Definition indexOf (s sub : string) : Z := indexOf_from 0%Z s sub.

(** *** Exceptions *)

(** How the evaluation of an expression or a call ends. *)
Inductive outcome (A : Type) : Type :=
| Normal (a : A)
| Throws.
Arguments Normal {A} a.
Arguments Throws {A}.

(** *** Values produced by [JSON.parse] *)
Inductive json : Type :=
| JNull
| JBool (b : bool)
| JNum (q : Q)
| JStr (s : string)
| JArr (items : list json)
| JObj (fields : list (string * json)).

(** A JavaScript value here is a JSON value or [undefined] ([None]). *)
Definition truthy (v : option json) : bool :=
  match v with
  | None | Some JNull => false
  | Some (JBool b) => b
  | Some (JNum q) => negb (Qeq_bool q 0)
  | Some (JStr s) => nonempty s
  | Some (JArr _) | Some (JObj _) => true
  end.

Fixpoint assoc (k : string) (fields : list (string * json)) : option json :=
  match fields with
  | [] => None
  | (k', v) :: fields' => if String.eqb k' k then Some v else assoc k fields'
  end.

(** [v.k] for the property names the code reads ([packages], [platforms],
    [name], [architecture], [version]), none of which a prototype
    supplies: a [TypeError] on [null] and [undefined], the own property
    of an object, [undefined] on anything else. *)
Definition getProp (v : option json) (k : string) : outcome (option json) :=
  match v with
  | None | Some JNull => Throws
  | Some (JObj fields) => Normal (assoc k fields)
  | Some _ => Normal None
  end.

Fixpoint chars (s : string) : list json :=
  match s with
  | EmptyString => []
  | String ch s' => JStr (String ch EmptyString) :: chars s'
  end.

(** The values a [for ... of] loop visits: the items of an array, the
    characters of a string; anything else is not iterable. *)
Definition iterate (v : option json) : outcome (list json) :=
  match v with
  | Some (JArr items) => Normal items
  | Some (JStr s) => Normal (chars s)
  | _ => Throws
  end.

(** An argument of [path.join], which insists on strings. *)
Definition asPathSegment (v : option json) : outcome string :=
  match v with
  | Some (JStr s) => Normal s
  | _ => Throws
  end.

(** *** Statements that build up an array and may throw *)
Section Statements.
Context {S : Type}.

(** A statement sequence over a local variable of type [S]: it ends
    normally or by a throw, and leaves the variable as it then is. *)
Definition M (A : Type) : Type := S -> outcome A * S.

Definition ret {A} (a : A) : M A := fun st => (Normal a, st).

Definition bind {A B} (m : M A) (k : A -> M B) : M B :=
  fun st => match m st with
            | (Normal a, st') => k a st'
            | (Throws, st') => (Throws, st')
            end.

(** An expression evaluated for its value. *)
Definition eval {A} (o : outcome A) : M A := fun st => (o, st).

Fixpoint forEachM {X} (items : list X) (body : X -> M unit) : M unit :=
  match items with
  | [] => ret tt
  | x :: items' => bind (body x) (fun _ => forEachM items' body)
  end.
End Statements.

Arguments M : clear implicits.

(** [array.push(x)] on the local array. *)
Definition push {X} (x : X) : M (list X) unit := fun st => (Normal tt, (st ++ [x])%list).

Declare Scope stmt_scope.
Delimit Scope stmt_scope with stmt.
Notation "'let*' x ':=' e 'in' k" := (bind (eval e) (fun x => k))
  (at level 10, x name, e at level 100, k at level 200,
   format "'[v' 'let*'  x  ':='  e  'in' '/' k ']'") : stmt_scope.

End Js.

(** ** The board descriptor parser ([BoardManager.parseBoardDescriptorFile]) *)
Module BoardDescriptor.
Import Js.

(** *** Backtracking matcher for the pieces of [boardLineRegex] *)
Section Regex.
Context {R : Type}.

(** [X+] for a one-character class [X], greedy: the longest run is tried
    first and the continuation [k] (the rest of the pattern) decides;
    on failure the run is shortened by one character. [k] receives the
    text consumed and the text left. *)
Fixpoint re_plus (c : ascii -> bool) (s : string)
         (k : string -> string -> option R) : option R :=
  match s with
  | EmptyString => None
  | String ch s' =>
      if c ch then
        match re_plus c s' (fun g rest => k (String ch g) rest) with
        | Some r => Some r
        | None => k (String ch EmptyString) s'
        end
      else None
  end.

(** A literal character. *)
Definition re_char (a : ascii) (s : string) (k : string -> option R) : option R :=
  match s with
  | EmptyString => None
  | String ch s' => if Ascii.eqb ch a then k s' else None
  end.
End Regex.

Definition notDot (ch : ascii) : bool := negb (isChar "." ch).
Definition nonSpace (ch : ascii) : bool := negb (isWhiteSpace ch).
Definition anyChar (ch : ascii) : bool := negb (isLineTerminator ch).

(** [/([^\.]+)\.(\S+)=(.+)/] tried at the start of [s]: the three groups. *)
Definition boardLineRegex_at (s : string) : option (string * string * string) :=
  re_plus notDot s (fun g1 r1 =>
  re_char "." r1 (fun r2 =>
  re_plus nonSpace r2 (fun g2 r3 =>
  re_char "=" r3 (fun r4 =>
  re_plus anyChar r4 (fun g3 _ => Some (g1, g2, g3)))))).

(** [boardLineRegex.exec(line)]: the pattern is not anchored, so the
    leftmost position at which it matches wins. *)
Fixpoint boardLineRegex_exec (line : string) : option (string * string * string) :=
  match boardLineRegex_at line with
  | Some m => Some m
  | None =>
      match line with
      | EmptyString => None
      | String _ line' => boardLineRegex_exec line'
      end
  end.

(** The separator class [[\r|\r\n|\n]]: CR, LF and the bar itself. *)
Definition isSeparator (ch : ascii) : bool :=
  isChar "013" ch || isChar "|" ch || isChar "010" ch.

(** [boardDescriptor.split(/[\r|\r\n|\n]/)] *)
Fixpoint split (s : string) : list string :=
  match s with
  | EmptyString => [EmptyString]
  | String ch s' =>
      if isSeparator ch then EmptyString :: split s'
      else match split s' with
           | l :: ls => String ch l :: ls
           | [] => [String ch EmptyString]
           end
  end.

Section Parser.
(** [IPlatform]; the parser only stores the reference it is given. *)
Context {Platform : Type}.

(** [IBoard] *)
Record IBoard := mkBoard {
  board : string;
  platform : Platform;
  name : option string;
  parameters : gmap string string;
}.

Definition setName (n : string) (b : IBoard) : IBoard :=
  mkBoard (board b) (platform b) (Some n) (parameters b).

Definition setParameter (k v : string) (b : IBoard) : IBoard :=
  mkBoard (board b) (platform b) (name b) (<[k := v]> (parameters b)).

(** The board object a matched line works on: [result.get(key)], or a
    fresh one, which is registered under its [board] field, [key]. *)
Definition boardObjectFor (plat : Platform) (result : gmap string IBoard)
           (key : string) : IBoard :=
  match result !! key with
  | Some b => b
  | None => mkBoard key plat None ∅
  end.

(** What a matched line [key.suffix=value] does to its board object. *)
Definition applyMatch (suffix value : string) (b : IBoard) : IBoard :=
  if String.eqb suffix "name" then setName (trim value) b
  else setParameter suffix value b.

(** The body of [lines.forEach]. A match always carries its three
    groups, so [match.length > 3] holds of it. The board object is shared
    between the map and the loop body, so its mutation is an update at
    its key. *)
Definition processLine (plat : Platform) (result : gmap string IBoard)
           (line : string) : gmap string IBoard :=
  if startsWith line "#" || startsWith line "menu." then result
  else
    match boardLineRegex_exec line with
    | Some (m1, m2, m3) =>
        let boardObject := boardObjectFor plat result m1 in
        <[m1 := applyMatch m2 m3 boardObject]> result
    | None => result
    end.

Definition parseLines (plat : Platform) (lines : list string) : gmap string IBoard :=
  fold_left (processLine plat) lines ∅.

Definition parseBoardDescriptorFile (boardDescriptor : string) (plat : Platform)
  : gmap string IBoard :=
  parseLines plat (split boardDescriptor).
End Parser.

Arguments IBoard : clear implicits.

Example split_ex : split ("a.b=c" ++ String "010" "#x|y") = ["a.b=c"; "#x"; "y"].
Proof. reflexivity. Qed.

Example exec_ex1 : boardLineRegex_exec "uno.build.f=-DA=1 -DB=2" = Some ("uno", "build.f=-DA", "1 -DB=2").
Proof. reflexivity. Qed.

Example exec_ex2 : boardLineRegex_exec "x.y z.w=v" = Some ("y z", "w", "v").
Proof. reflexivity. Qed.

Example parse_ex :
  parseBoardDescriptorFile "uno.name= Arduino Uno " tt !! "uno"
  = Some (mkBoard "uno" tt (Some "Arduino Uno") ∅).
Proof. vm_compute. reflexivity. Qed.


(** *** Facts about the string helpers *)

Lemma string_forall_app c s t :
  string_forall c (s ++ t) = string_forall c s && string_forall c t.
Proof.
  induction s as [|ch s IH]; simpl; [reflexivity|].
  rewrite IH. apply andb_assoc.
Qed.

Lemma append_nil_r (s : string) : s ++ "" = s.
Proof. induction s; simpl; congruence. Qed.

Lemma takeWhile_app_true c g a t :
  string_forall c g = true -> c a = true ->
  takeWhile c (g ++ String a t) = g ++ String a (takeWhile c t).
Proof.
  induction g as [|ch g IH]; simpl; intros Hg Ha.
  - rewrite Ha. reflexivity.
  - apply andb_true_iff in Hg as [Hch Hg]. rewrite Hch, IH; auto.
Qed.

Lemma startsWith_app p s : startsWith (p ++ s) p = true.
Proof.
  induction p as [|ch p IH]; simpl; [reflexivity|].
  rewrite IH, Ascii.eqb_refl. reflexivity.
Qed.

(** *** The greedy one-or-more combinator *)
Section RegexFacts.
Context {R : Type}.
Implicit Types (k : string -> string -> option R).

(** No way of cutting a run off [s] satisfies the continuation. *)
Lemma re_plus_none c s k :
  (forall g t, nonempty g = true -> s = g ++ t ->
               string_forall c g = true -> k g t = None) ->
  re_plus c s k = None.
Proof.
  revert k. induction s as [|ch s IH]; intros k Hk; simpl; [reflexivity|].
  destruct (c ch) eqn:Hc; [|reflexivity].
  rewrite IH.
  - apply (Hk (String ch EmptyString) s); simpl; auto. rewrite Hc. reflexivity.
  - intros g t Hg -> Hall. apply (Hk (String ch g) t); simpl; auto.
    rewrite Hc, Hall. reflexivity.
Qed.

(** The run [s] is the longest one the continuation accepts. *)
Lemma re_plus_longest c s rest k r :
  nonempty s = true -> string_forall c s = true ->
  k s rest = Some r ->
  (forall g t, nonempty g = true -> rest = g ++ t ->
               string_forall c g = true -> k (s ++ g) t = None) ->
  re_plus c (s ++ rest) k = Some r.
Proof.
  revert k. induction s as [|ch s IH]; intros k Hne Hall Hk Hlonger;
    simpl in *; [discriminate|].
  apply andb_true_iff in Hall as [Hc Hall]. rewrite Hc.
  destruct s as [|ch' s].
  - simpl. rewrite re_plus_none; [exact Hk|].
    intros g t Hg Heq Hgall. apply Hlonger; auto.
  - rewrite (IH (fun g rest' => k (String ch g) rest')); auto.
Qed.
End RegexFacts.

Definition notEquals (ch : ascii) : bool := negb (isChar "=" ch).

(** A line [prefix.suffix=value] is taken apart into exactly these three
    pieces when the prefix has no dot, the suffix no white space, and the
    first word of the value no equals sign. *)
Lemma boardLineRegex_exec_line (p s v : string) :
  nonempty p = true -> string_forall notDot p = true ->
  nonempty s = true -> string_forall nonSpace s = true ->
  nonempty v = true -> string_forall anyChar v = true ->
  string_forall notEquals (takeWhile nonSpace v) = true ->
  boardLineRegex_exec (p ++ "." ++ s ++ "=" ++ v) = Some (p, s, v).
Proof.
  intros Hp Hpd Hs Hss Hv Hva Hveq.
  assert (Hat : boardLineRegex_at (p ++ "." ++ s ++ "=" ++ v) = Some (p, s, v)).
  { unfold boardLineRegex_at.
    apply re_plus_longest; auto.
    - simpl. apply re_plus_longest; auto.
      + simpl. replace v with (v ++ "") at 1.
        2:{ apply append_nil_r. }
        apply re_plus_longest; auto.
        intros g t Hg Hnil _. destruct g; simpl in *; discriminate.
      + intros g t Hg Hsplit Hgall.
        destruct g as [|a g]; [discriminate|]. simpl in Hsplit.
        injection Hsplit as <- ->.
        destruct t as [|b t]; [reflexivity|]. simpl.
        destruct (Ascii.eqb b "=") eqn:Hb; [|reflexivity].
        apply Ascii.eqb_eq in Hb. subst b.
        simpl in Hgall.
        rewrite takeWhile_app_true in Hveq; auto.
        rewrite string_forall_app in Hveq. simpl in Hveq.
        apply andb_true_iff in Hveq as [_ Hveq]. discriminate.
    - intros g t Hg Hsplit Hgall.
      destruct g as [|a g]; [discriminate|]. simpl in Hsplit.
      injection Hsplit as <- _. simpl in Hgall. discriminate. }
  destruct p; simpl in *; [discriminate|].
  rewrite Hat. reflexivity.
Qed.

(** *** Lines the parser skips *)

Lemma startsWith_hash_app p rest :
  nonempty p = true -> startsWith (p ++ rest) "#" = startsWith p "#".
Proof.
  destruct p as [|a p]; [discriminate|]. intros _. reflexivity.
Qed.

(** A dot-free text in front of a dot begins with [q.] exactly when it is [q]. *)
Lemma startsWith_dotted q p rest :
  string_forall notDot q = true -> string_forall notDot p = true ->
  startsWith (p ++ String "." rest) (q ++ ".") = String.eqb q p.
Proof.
  revert p.
  induction q as [|c q IH]; intros [|b p] Hq Hp; simpl in *.
  - reflexivity.
  - apply andb_true_iff in Hp as [Hb _]. unfold notDot, isChar in Hb.
    apply negb_true_iff in Hb. rewrite Hb. reflexivity.
  - apply andb_true_iff in Hq as [Hc _]. unfold notDot, isChar in Hc.
    apply negb_true_iff in Hc. rewrite Ascii.eqb_sym, Hc. reflexivity.
  - apply andb_true_iff in Hq as [_ Hq]. apply andb_true_iff in Hp as [_ Hp].
    rewrite IH by assumption. rewrite Ascii.eqb_sym.
    destruct (Ascii.eqb c b); reflexivity.
Qed.

Section ParserFacts.
Context {Platform : Type}.
Implicit Types (plat : Platform) (result : gmap string (IBoard Platform)).

Lemma processLine_comment plat result line :
  startsWith line "#" = true -> processLine plat result line = result.
Proof. intros H. unfold processLine. rewrite H. reflexivity. Qed.

Lemma processLine_menu plat result line :
  startsWith line "menu." = true -> processLine plat result line = result.
Proof. intros H. unfold processLine. rewrite H, orb_true_r. reflexivity. Qed.

Lemma fold_processLine_skip_menu plat lines result :
  fold_left (processLine plat) lines result
  = fold_left (processLine plat)
      (List.filter (fun l => negb (startsWith l "menu.")) lines) result.
Proof.
  revert result. induction lines as [|l lines IH]; intros result; [reflexivity|].
  cbn [List.filter fold_left].
  destruct (startsWith l "menu.") eqn:Hm; cbn [negb fold_left].
  - rewrite processLine_menu by assumption. apply IH.
  - apply IH.
Qed.

(** Every key is the [board] field of its board, and every board belongs
    to the platform being parsed. *)
Definition registry_ok plat result : Prop :=
  forall k b, result !! k = Some b -> board b = k /\ platform b = plat.

Lemma boardObjectFor_ok plat result key :
  registry_ok plat result ->
  board (boardObjectFor plat result key) = key /\
  platform (boardObjectFor plat result key) = plat.
Proof.
  intros Hok. unfold boardObjectFor.
  destruct (result !! key) as [b|] eqn:Hb; [apply (Hok _ _ Hb)|split; reflexivity].
Qed.

Lemma applyMatch_fields suffix value (b : IBoard Platform) :
  board (applyMatch suffix value b) = board b /\
  platform (applyMatch suffix value b) = platform b.
Proof. unfold applyMatch. destruct (String.eqb suffix "name"); split; reflexivity. Qed.

Lemma processLine_ok plat result line :
  registry_ok plat result -> registry_ok plat (processLine plat result line).
Proof.
  intros Hok. unfold processLine.
  destruct (startsWith line "#" || startsWith line "menu."); [exact Hok|].
  destruct (boardLineRegex_exec line) as [[[m1 m2] m3]|]; [|exact Hok].
  intros k b. rewrite lookup_insert. case_decide as Hk.
  - intros [= <-]. subst k.
    destruct (applyMatch_fields m2 m3 (boardObjectFor plat result m1)) as [-> ->].
    apply boardObjectFor_ok, Hok.
  - apply Hok.
Qed.

Lemma fold_processLine_ok plat lines result :
  registry_ok plat result -> registry_ok plat (fold_left (processLine plat) lines result).
Proof.
  revert result. induction lines as [|l lines IH]; intros result Hok; simpl; [exact Hok|].
  apply IH, processLine_ok, Hok.
Qed.
End ParserFacts.

(** *** Lines as the parser splits them *)

Lemma not_separator_anyChar ch : isSeparator ch = false -> anyChar ch = true.
Proof.
  destruct ch as [[] [] [] [] [] [] [] []]; vm_compute; intros H;
    first [reflexivity | discriminate H].
Qed.

Lemma split_nonempty text : split text <> [].
Proof.
  destruct text as [|ch text]; cbn [split]; [discriminate|].
  destruct (isSeparator ch); [discriminate|]. destruct (split text); discriminate.
Qed.

(** No line holds a carriage return or a line feed. *)
Lemma split_lines_anyChar text line :
  In line (split text) -> string_forall anyChar line = true.
Proof.
  revert line. induction text as [|ch text IH]; intros line; cbn [split].
  - intros [<-|[]]. reflexivity.
  - destruct (isSeparator ch) eqn:Hsep.
    + intros [<-|Hin]; [reflexivity|apply IH, Hin].
    + destruct (split text) as [|l ls] eqn:Hsplit.
      { exfalso. exact (split_nonempty text Hsplit). }
      intros [<-|Hin].
      * cbn [string_forall]. rewrite (not_separator_anyChar ch Hsep).
        apply IH. left. reflexivity.
      * apply IH. right. exact Hin.
Qed.

(** *** What one descriptor line contributes *)

Lemma processLine_match {Platform} (plat : Platform)
      (result : gmap string (IBoard Platform)) (p s v : string) :
  nonempty p = true -> string_forall notDot p = true ->
  startsWith p "#" = false -> String.eqb p "menu" = false ->
  nonempty s = true -> string_forall nonSpace s = true ->
  nonempty v = true -> string_forall anyChar v = true ->
  string_forall notEquals (takeWhile nonSpace v) = true ->
  processLine plat result (p ++ "." ++ s ++ "=" ++ v)
  = <[p := applyMatch s v (boardObjectFor plat result p)]> result.
Proof.
  intros Hp Hpd Hhash Hmenu Hs Hss Hv Hva Hveq. unfold processLine.
  rewrite startsWith_hash_app, Hhash by assumption.
  change "menu." with ("menu" ++ ".").
  change (p ++ "." ++ s ++ "=" ++ v) with (p ++ String "." (s ++ "=" ++ v)) at 1.
  rewrite startsWith_dotted by (assumption || reflexivity).
  rewrite String.eqb_sym, Hmenu. cbn [orb].
  rewrite boardLineRegex_exec_line by assumption. reflexivity.
Qed.

(** Three lines, separated by line feeds. *)
Definition sampleDescriptor : string :=
  "# boards" ++ String "010" ("uno.name= Arduino Uno " ++ String "010" "uno.build.mcu=atmega328p").

(** C3 (as stated) fails: the line [menu.cpu=Processor] has the shape
    [prefix.suffix=value] with the dot-free prefix [menu], yet no board is
    keyed by [menu] afterwards; the line contributes nothing. *)
Lemma menu_line_contributes_nothing :
  "menu.cpu=Processor" = "menu" ++ "." ++ "cpu" ++ "=" ++ "Processor"
  /\ string_forall notDot "menu" = true
  /\ parseBoardDescriptorFile "menu.cpu=Processor" tt !! "menu" = (None : option (IBoard unit))
  /\ parseBoardDescriptorFile "menu.cpu=Processor" tt = (∅ : gmap string (IBoard unit)).
Proof. repeat split. Qed.

(** C4 (as amended). The parser records no configuration menu: for every
    descriptor the registry is the one obtained from the lines that do
    not start with [menu.]. *)
Theorem menu_lines_are_skipped {Platform} (plat : Platform) (text : string) :
  parseBoardDescriptorFile text plat
  = parseLines plat (List.filter (fun l => negb (startsWith l "menu.")) (split text)).
Proof. apply fold_processLine_skip_menu. Qed.

(** C4 (as stated) fails: there is no descriptor with a [menu.] line whose
    registry differs from that of the same descriptor without its
    [menu.] lines, so nothing declared by such a line is recorded. *)
Lemma no_descriptor_records_menus :
  ~ exists text : string,
      (exists l, In l (split text) /\ startsWith l "menu." = true) /\
      parseBoardDescriptorFile text tt
      <> parseLines tt (List.filter (fun l => negb (startsWith l "menu.")) (split text)).
Proof.
  intros (text & _ & Hne). apply Hne.
  unfold parseBoardDescriptorFile, parseLines. apply fold_processLine_skip_menu.
Qed.

(** C9. In the map returned by [parseBoardDescriptorFile] every key is the
    [board] field of the board it maps to, and every board's platform is
    the platform passed in. *)
Theorem registry_keys_and_platform {Platform} (plat : Platform) (text : string)
        (k : string) (b : IBoard Platform) :
  parseBoardDescriptorFile text plat !! k = Some b ->
  board b = k /\ platform b = plat.
Proof.
  revert k b. apply fold_processLine_ok.
  intros k b Hk. rewrite lookup_empty in Hk. discriminate.
Qed.

Lemma registry_keys_and_platform_witness :
  board (mkBoard "uno" 7 (Some "Arduino Uno") ∅) = "uno"
  /\ platform (mkBoard "uno" 7 (Some "Arduino Uno") ∅) = 7.
Proof.
  apply (registry_keys_and_platform 7 "uno.name= Arduino Uno " "uno").
  vm_compute. reflexivity.
Defined.

End BoardDescriptor.

(** ** Arrays searched and updated in place *)
Module Arrays.

Section UpdateFirst.
Context {A : Type}.

(** [const x = l.find(p); if (x) { mutate x }]: the first element that
    satisfies [p] is replaced by its mutated version [f x]. *)
Fixpoint update_first (p : A -> bool) (f : A -> A) (l : list A) : list A :=
  match l with
  | [] => []
  | x :: l' => if p x then f x :: l' else x :: update_first p f l'
  end.

Lemma find_none_filter (p : A -> bool) (l : list A) :
  List.find p l = None <-> List.filter p l = [].
Proof.
  induction l as [|x l IH]; simpl; [tauto|].
  destruct (p x); [split; discriminate|exact IH].
Qed.

(** Updating the first [p]-element, seen through the filter [p] itself. *)
Lemma filter_update_first_same (p : A -> bool) (f : A -> A) (l : list A) :
  (forall x, p x = true -> p (f x) = true) ->
  List.filter p (update_first p f l)
  = match List.filter p l with [] => [] | x :: xs => f x :: xs end.
Proof.
  intros Hf. induction l as [|x l IH]; simpl; [reflexivity|].
  destruct (p x) eqn:Hx; simpl.
  - rewrite (Hf x Hx). reflexivity.
  - rewrite Hx. exact IH.
Qed.

(** Seen through a filter that no [p]-element passes, nothing changes. *)
Lemma filter_update_first_other (p q : A -> bool) (f : A -> A) (l : list A) :
  (forall x, p x = true -> q x = false /\ q (f x) = false) ->
  List.filter q (update_first p f l) = List.filter q l.
Proof.
  intros Hpq. induction l as [|x l IH]; simpl; [reflexivity|].
  destruct (p x) eqn:Hx; simpl.
  - destruct (Hpq x Hx) as [-> ->]. reflexivity.
  - rewrite IH. reflexivity.
Qed.
End UpdateFirst.

End Arrays.

(** ** The package index merge ([BoardManager.parsePackageIndex]) *)
Module PackageIndex.
Import Arrays.

Section Union.
Context {A : Type}.

(** Modelled from the spec: util.union (common/util is not under src/);
    the union of two lists under the comparison given: the first list
    is kept and the items of the second that compare equal to nothing
    collected so far are appended. *)
Definition union (a b : list A) (compare : A -> A -> bool) : list A :=
  fold_left
    (fun result item =>
       if existsb (fun element => compare item element) result then result
       else (result ++ [item])%list)
    b a.
End Union.

Section Index.
(** An entry of a platform's [boards] array; only its [name] is read. *)
Context {Board : Type} (boardName : Board -> string).

(** A platform object as [JSON.parse] delivers it. *)
Record RawPlatform := mkRawPlatform {
  raw_name : string;
  raw_architecture : string;
  raw_version : string;
  raw_boards : list Board;
}.

(** A package object of the index. *)
Record RawPackage := mkRawPackage {
  pkg_name : string;
  pkg_platforms : list RawPlatform;
}.

(** [IPlatform] once parsed. The [package] reference is kept as the
    package's name, the one field of it that the merge reads. *)
Record IPlatform := mkPlatform {
  name : string;
  architecture : string;
  version : string;
  versions : list string;
  boards : list Board;
  package_name : string;
}.

Definition sameBoardName (a b : Board) : bool := String.eqb (boardName a) (boardName b).

(** [_plat.architecture === plat.architecture && _plat.package.name === plat.package.name] *)
Definition samePlatform (pkg : RawPackage) (plat : RawPlatform) (_plat : IPlatform) : bool :=
  String.eqb (architecture _plat) (raw_architecture plat)
  && String.eqb (package_name _plat) (pkg_name pkg).

(** The [if (addedPlatform)] branch: union boards, push the version. *)
Definition mergeInto (plat : RawPlatform) (addedPlatform : IPlatform) : IPlatform :=
  mkPlatform (name addedPlatform) (architecture addedPlatform) (version addedPlatform)
             (versions addedPlatform ++ [raw_version plat])
             (union (boards addedPlatform) (raw_boards plat) sameBoardName)
             (package_name addedPlatform).

(** The [else] branch: the raw object becomes the platform, its version
    moved into [versions] and cleared. *)
Definition firstSeen (pkg : RawPackage) (plat : RawPlatform) : IPlatform :=
  mkPlatform (raw_name plat) (raw_architecture plat) ""
             [raw_version plat] (raw_boards plat) (pkg_name pkg).

(** The body of [pkg.platforms.forEach]. *)
Definition addPlatform (pkg : RawPackage) (_platforms : list IPlatform)
           (plat : RawPlatform) : list IPlatform :=
  match List.find (samePlatform pkg plat) _platforms with
  | Some _ => update_first (samePlatform pkg plat) (mergeInto plat) _platforms
  | None => (_platforms ++ [firstSeen pkg plat])%list
  end.

(** [parsePackageIndex(rawModel)], with [rawModel.packages] as the
    argument and [this._platforms] passed through. *)
Definition parsePackageIndex (packages : list RawPackage)
           (_platforms : list IPlatform) : list IPlatform :=
  fold_left
    (fun acc pkg => fold_left (addPlatform pkg) (pkg_platforms pkg) acc)
    packages _platforms.

(** The loop of [loadPackages] over the index files, from an empty
    [_platforms]. *)
Definition parseIndexFiles (indexFiles : list (list RawPackage)) : list IPlatform :=
  fold_left (fun acc rawModel => parsePackageIndex rawModel acc) indexFiles [].

(** *** The merge, entry by entry *)

(** The platform entries of a list of packages, in the order in which
    the two nested [forEach] loops visit them. *)
Definition entriesOf (packages : list RawPackage) : list (RawPackage * RawPlatform) :=
  flat_map (fun pkg => map (pair pkg) (pkg_platforms pkg)) packages.

Definition allEntries (indexFiles : list (list RawPackage)) : list (RawPackage * RawPlatform) :=
  flat_map entriesOf indexFiles.

Definition addEntry (acc : list IPlatform) (e : RawPackage * RawPlatform) : list IPlatform :=
  addPlatform (fst e) acc (snd e).

(** Package name and architecture, the pair the merge is keyed on. *)
Definition entryHasKey (k : string * string) (e : RawPackage * RawPlatform) : bool :=
  String.eqb (raw_architecture (snd e)) (snd k) && String.eqb (pkg_name (fst e)) (fst k).

Definition platHasKey (k : string * string) (p : IPlatform) : bool :=
  String.eqb (architecture p) (snd k) && String.eqb (package_name p) (fst k).

Definition keyOf (e : RawPackage * RawPlatform) : string * string :=
  (pkg_name (fst e), raw_architecture (snd e)).

(** What a run of entries with one key is merged into. *)
Definition mergedOf (es : list (RawPackage * RawPlatform)) : option IPlatform :=
  match es with
  | [] => None
  | e0 :: rest =>
      Some (fold_left (fun acc e => mergeInto (snd e) acc) rest (firstSeen (fst e0) (snd e0)))
  end.

Definition optionList {X} (o : option X) : list X :=
  match o with Some x => [x] | None => [] end.
End Index.

Arguments RawPlatform : clear implicits.
Arguments RawPackage : clear implicits.
Arguments IPlatform : clear implicits.

Definition uno_avr_1 : RawPlatform string := mkRawPlatform "Arduino AVR" "avr" "1.6.2" ["Uno"; "Nano"].
Definition uno_avr_2 : RawPlatform string := mkRawPlatform "Arduino AVR" "avr" "1.6.3" ["Uno"; "Mega"].
Definition tiny_avr : RawPlatform string := mkRawPlatform "ATtiny" "avr" "1.0.0" ["ATtiny85"].

Example parse_two_files :
  parseIndexFiles (fun b => b)
    [[mkRawPackage "arduino" [uno_avr_1]]; [mkRawPackage "arduino" [uno_avr_2]]]
  = [mkPlatform "Arduino AVR" "avr" "" ["1.6.2"; "1.6.3"] ["Uno"; "Nano"; "Mega"] "arduino"].
Proof. reflexivity. Qed.

(** *** Facts about [union] *)
Section UnionFacts.
Context {A : Type} (compare : A -> A -> bool).

Lemma union_snoc (a b : list A) (x : A) :
  union a (b ++ [x]) compare
  = if existsb (fun element => compare x element) (union a b compare)
    then union a b compare else (union a b compare ++ [x])%list.
Proof. unfold union. rewrite fold_left_app. reflexivity. Qed.

Lemma union_keeps_first (a b : list A) (x : A) :
  In x a -> In x (union a b compare).
Proof.
  induction b as [|y b IH] using rev_ind; intros Hx; [exact Hx|].
  rewrite union_snoc. destruct (existsb _ _); [auto|].
  apply in_or_app. left. auto.
Qed.

Lemma union_from_either (a b : list A) (x : A) :
  In x (union a b compare) -> In x a \/ In x b.
Proof.
  induction b as [|y b IH] using rev_ind; intros Hx; [left; exact Hx|].
  rewrite union_snoc in Hx. rewrite in_app_iff. simpl.
  destruct (existsb _ _).
  - destruct (IH Hx); auto.
  - apply in_app_or in Hx as [Hx|[->|[]]]; [destruct (IH Hx)|]; auto.
Qed.

Lemma union_covers_second (a b : list A) (x : A) :
  (forall y, compare y y = true) ->
  In x b -> exists y, In y (union a b compare) /\ compare x y = true.
Proof.
  intros Hrefl. induction b as [|z b IH] using rev_ind; intros Hx; [destruct Hx|].
  rewrite union_snoc. apply in_app_or in Hx as [Hx|[->|[]]].
  - destruct (IH Hx) as (y & Hy & Hc). exists y. split; [|exact Hc].
    destruct (existsb _ _); [exact Hy|]. apply in_or_app. left. exact Hy.
  - destruct (existsb _ _) eqn:Hex.
    + apply existsb_exists in Hex as (y & Hy & Hc). exists y. auto.
    + exists x. split; [apply in_or_app; right; left; reflexivity|apply Hrefl].
Qed.
End UnionFacts.

Section IndexFacts.
Context {Board : Type} (boardName : Board -> string).
Local Abbreviation IPlat := (IPlatform Board).
Local Abbreviation Entry := (RawPackage Board * RawPlatform Board)%type.

Lemma union_names_NoDup (a b : list Board) :
  NoDup (map boardName a) ->
  NoDup (map boardName (union a b (sameBoardName boardName))).
Proof.
  intros Ha. induction b as [|x b IH] using rev_ind; [exact Ha|].
  rewrite union_snoc. destruct (existsb _ _) eqn:Hex; [exact IH|].
  rewrite map_app. simpl. apply NoDup_app. split; [exact IH|].
  split; [|apply NoDup_singleton].
  intros n Hn Hx%list_elem_of_In. simpl in Hx. destruct Hx as [<-|[]].
  apply list_elem_of_In, in_map_iff in Hn as (y & Hy & Hin).
  assert (Hc : existsb (fun element => sameBoardName boardName x element)
                 (union a b (sameBoardName boardName)) = true).
  { apply existsb_exists. exists y. split; [exact Hin|].
    unfold sameBoardName. rewrite Hy. apply String.eqb_refl. }
  congruence.
Qed.

Lemma platHasKey_iff (k : string * string) (p : IPlat) :
  platHasKey k p = true <-> (package_name p, architecture p) = k.
Proof.
  unfold platHasKey. rewrite andb_true_iff, !String.eqb_eq.
  destruct k as [kp ka]. simpl. split; [intros [-> ->]; reflexivity|].
  intros [= -> ->]. split; reflexivity.
Qed.

Lemma entryHasKey_iff (k : string * string) (e : Entry) :
  entryHasKey k e = true <-> keyOf e = k.
Proof.
  unfold entryHasKey, keyOf. rewrite andb_true_iff, !String.eqb_eq.
  destruct k as [kp ka]. simpl. split; [intros [-> ->]; reflexivity|].
  intros [= -> ->]. split; reflexivity.
Qed.

Lemma samePlatform_key (e : Entry) :
  samePlatform (fst e) (snd e) = platHasKey (keyOf e).
Proof. reflexivity. Qed.

Lemma platHasKey_mergeInto k plat (p : IPlat) :
  platHasKey k (mergeInto boardName plat p) = platHasKey k p.
Proof. reflexivity. Qed.

Lemma platHasKey_firstSeen k (e : Entry) :
  platHasKey k (firstSeen (fst e) (snd e)) = entryHasKey k e.
Proof. reflexivity. Qed.

Lemma parseIndexFiles_entries (indexFiles : list (list (RawPackage Board))) :
  parseIndexFiles boardName indexFiles
  = fold_left (addEntry boardName) (allEntries indexFiles) [].
Proof.
  unfold parseIndexFiles, allEntries. generalize (@nil IPlat) as acc.
  induction indexFiles as [|f fs IH]; intros acc; simpl; [reflexivity|].
  rewrite fold_left_app, IH. f_equal. clear.
  unfold parsePackageIndex, entriesOf. revert acc.
  induction f as [|pkg f IH]; intros acc; simpl; [reflexivity|].
  rewrite fold_left_app, IH. f_equal. clear.
  revert acc. induction (pkg_platforms pkg) as [|plat l IH]; intros acc; simpl; [reflexivity|].
  apply IH.
Qed.

(** Through the filter of one key, the platforms built from a run of
    entries are the single platform the entries of that key merge into. *)
Lemma fold_addEntry_key (es : list Entry) (k : string * string) :
  List.filter (platHasKey k) (fold_left (addEntry boardName) es [])
  = optionList (mergedOf boardName (List.filter (entryHasKey k) es)).
Proof.
  revert k. induction es as [|e es IH] using rev_ind; intros k; [reflexivity|].
  rewrite fold_left_app, List.filter_app. cbn [fold_left List.filter].
  set (st := fold_left (addEntry boardName) es []) in *.
  unfold addEntry at 1, addPlatform. rewrite samePlatform_key.
  destruct (entryHasKey k e) eqn:Hk.
  - apply entryHasKey_iff in Hk. subst k.
    destruct (List.find (platHasKey (keyOf e)) st) as [x|] eqn:Hfind.
    + rewrite filter_update_first_same by (intros; assumption).
      rewrite IH.
      destruct (List.filter (entryHasKey (keyOf e)) es) as [|e0 rest] eqn:Hes.
      * exfalso. assert (Hnone : List.find (platHasKey (keyOf e)) st = None).
        { apply find_none_filter. rewrite IH, Hes. reflexivity. }
        congruence.
      * cbn [mergedOf optionList app]. rewrite fold_left_app. reflexivity.
    + apply find_none_filter in Hfind. rewrite List.filter_app, Hfind.
      rewrite IH in Hfind.
      destruct (List.filter (entryHasKey (keyOf e)) es) as [|e0 rest]; [|discriminate].
      cbn [List.filter app]. rewrite platHasKey_firstSeen.
      replace (entryHasKey (keyOf e) e) with true
        by (symmetry; apply entryHasKey_iff; reflexivity).
      reflexivity.
  - rewrite app_nil_r.
    destruct (List.find (platHasKey (keyOf e)) st) as [x|] eqn:Hfind.
    + rewrite filter_update_first_other; [apply IH|].
      intros y Hy. rewrite platHasKey_mergeInto.
      assert (platHasKey k y = false); [|auto].
      destruct (platHasKey k y) eqn:Hky; [|reflexivity].
      apply platHasKey_iff in Hy, Hky.
      assert (keyOf e = k) as Heq by congruence.
      apply entryHasKey_iff in Heq. congruence.
    + rewrite List.filter_app. cbn [List.filter].
      rewrite platHasKey_firstSeen, Hk, app_nil_r. apply IH.
Qed.

Lemma merged_versions (rest : list Entry) (p : IPlat) :
  versions (fold_left (fun acc e => mergeInto boardName (snd e) acc) rest p)
  = (versions p ++ map (fun e => raw_version (snd e)) rest)%list.
Proof.
  revert p. induction rest as [|e rest IH]; intros p; simpl.
  - rewrite app_nil_r. reflexivity.
  - rewrite IH. simpl. rewrite <- app_assoc. reflexivity.
Qed.

Lemma merged_boards_keep (rest : list Entry) (p : IPlat) (b : Board) :
  In b (boards p) ->
  In b (boards (fold_left (fun acc e => mergeInto boardName (snd e) acc) rest p)).
Proof.
  revert p. induction rest as [|e rest IH]; intros p Hb; simpl; [exact Hb|].
  apply IH. simpl. apply union_keeps_first, Hb.
Qed.

Lemma merged_boards_cover (rest : list Entry) (p : IPlat) (e : Entry) (b : Board) :
  In e rest -> In b (raw_boards (snd e)) ->
  exists b', In b' (boards (fold_left (fun acc e => mergeInto boardName (snd e) acc) rest p))
             /\ boardName b' = boardName b.
Proof.
  revert p. induction rest as [|e' rest IH]; intros p He Hb; [destruct He|].
  simpl. destruct He as [->|He]; [|apply IH; assumption].
  destruct (union_covers_second (sameBoardName boardName) (boards p)
              (raw_boards (snd e)) b) as (y & Hy & Hc); auto.
  { intros y. apply String.eqb_refl. }
  exists y. split.
  - apply merged_boards_keep. exact Hy.
  - unfold sameBoardName in Hc. apply String.eqb_eq in Hc. congruence.
Qed.

Lemma merged_boards_origin (rest : list Entry) (p : IPlat) (b : Board) :
  In b (boards (fold_left (fun acc e => mergeInto boardName (snd e) acc) rest p)) ->
  In b (boards p) \/ exists e, In e rest /\ In b (raw_boards (snd e)).
Proof.
  revert p. induction rest as [|e rest IH]; intros p Hb; simpl in Hb; [left; exact Hb|].
  destruct (IH _ Hb) as [H|(e' & He' & H)].
  - simpl in H. apply union_from_either in H as [H|H]; [left; exact H|].
    right. exists e. split; [left; reflexivity|exact H].
  - right. exists e'. split; [right; exact He'|exact H].
Qed.

Lemma merged_boards_NoDup (rest : list Entry) (p : IPlat) :
  NoDup (map boardName (boards p)) ->
  NoDup (map boardName
           (boards (fold_left (fun acc e => mergeInto boardName (snd e) acc) rest p))).
Proof.
  revert p. induction rest as [|e rest IH]; intros p Hp; simpl; [exact Hp|].
  apply IH. simpl. apply union_names_NoDup, Hp.
Qed.
End IndexFacts.

(** C1 (as amended). For every list of index files, the platform entries
    with one package name and one architecture are merged into a single
    platform: its [versions] are the versions of all merged entries, in
    order; its [boards] hold, for every board of every merged entry, a
    board of that name, and only boards of merged entries; and no board
    name appears twice when none does in the first entry. *)
Theorem parsePackageIndex_merges_by_package_and_architecture
        {Board : Type} (boardName : Board -> string)
        (indexFiles : list (list (RawPackage Board)))
        (pkgName arch : string)
        (e0 : RawPackage Board * RawPlatform Board)
        (rest : list (RawPackage Board * RawPlatform Board)) :
  List.filter (entryHasKey (pkgName, arch)) (allEntries indexFiles) = e0 :: rest ->
  exists plat : IPlatform Board,
    List.filter (platHasKey (pkgName, arch)) (parseIndexFiles boardName indexFiles) = [plat]
    /\ versions plat = map (fun e => raw_version (snd e)) (e0 :: rest)
    /\ (forall e b, In e (e0 :: rest) -> In b (raw_boards (snd e)) ->
        exists b', In b' (boards plat) /\ boardName b' = boardName b)
    /\ (forall b, In b (boards plat) ->
        exists e, In e (e0 :: rest) /\ In b (raw_boards (snd e)))
    /\ (NoDup (map boardName (raw_boards (snd e0))) ->
        NoDup (map boardName (boards plat))).
Proof.
  intros Hes. rewrite parseIndexFiles_entries, fold_addEntry_key, Hes.
  cbn [mergedOf optionList].
  eexists. split; [reflexivity|]. split; [rewrite merged_versions; reflexivity|].
  split; [|split].
  - intros e b [<-|He] Hb.
    + exists b. split; [|reflexivity]. apply merged_boards_keep. exact Hb.
    + eapply merged_boards_cover; eassumption.
  - intros b Hb. apply merged_boards_origin in Hb as [Hb|(e & He & Hb)].
    + exists e0. split; [left; reflexivity|exact Hb].
    + exists e. split; [right; exact He|exact Hb].
  - intros Hnd. apply merged_boards_NoDup. exact Hnd.
Qed.

Lemma parsePackageIndex_merges_by_package_and_architecture_witness :
  exists plat : IPlatform string,
    List.filter (platHasKey ("arduino", "avr"))
      (parseIndexFiles (fun b => b)
         [[mkRawPackage "arduino" [uno_avr_1]]; [mkRawPackage "arduino" [uno_avr_2]]])
    = [plat]
    /\ versions plat = ["1.6.2"; "1.6.3"].
Proof.
  destruct (parsePackageIndex_merges_by_package_and_architecture (fun b => b)
              [[mkRawPackage "arduino" [uno_avr_1]]; [mkRawPackage "arduino" [uno_avr_2]]]
              "arduino" "avr"
              (mkRawPackage "arduino" [uno_avr_1], uno_avr_1)
              [(mkRawPackage "arduino" [uno_avr_2], uno_avr_2)]
              eq_refl) as (plat & Hplat & Hver & _).
  exists plat. split; [exact Hplat|exact Hver].
Defined.

(** C1 (as stated) fails: two index files that each carry a platform of
    architecture [avr], under different packages, leave two platforms of
    that architecture; neither has the other's version or boards. *)
Lemma same_architecture_other_package_not_merged :
  List.filter (fun p => String.eqb (architecture p) "avr")
    (parseIndexFiles (fun b : string => b)
       [[mkRawPackage "arduino" [uno_avr_1]]; [mkRawPackage "attiny" [tiny_avr]]])
  = [mkPlatform "Arduino AVR" "avr" "" ["1.6.2"] ["Uno"; "Nano"] "arduino";
     mkPlatform "ATtiny" "avr" "" ["1.0.0"] ["ATtiny85"] "attiny"].
Proof. reflexivity. Qed.

End PackageIndex.

(** ** The host: Node.js, its libraries and the helpers of common/util *)
Module Host.
Import Js.

(** What the code reaches outside itself. [fs], [path], [glob] and
    [JSON] are the runtime's; [directoryExistsSync], [fileExistsSync],
    [util_readdirSync], [parseProperties] and the junk test behind
    [util.filterJunk] belong to common/util, which is not under src/.
    All of them are parameters. *)
Record Host := mkHost {
  (* this._settings *)
  packagePath : string;
  defaultPackagePath : string;
  (* path *)
  path_join : list string -> string;
  path_resolve : string -> string;
  path_dirname : string -> string;
  path_basename : string -> string;
  (* fs, glob, JSON *)
  readFileSync : string -> outcome string;
  readdirSync : string -> outcome (list string);
  glob_sync : string -> list string;
  JSON_parse : string -> outcome json;
  (* common/util *)
  directoryExistsSync : string -> bool;
  fileExistsSync : string -> bool;
  util_readdirSync : string -> bool -> outcome (list string);
  parseProperties : string -> outcome (list (string * string));
  isJunk : string -> bool;
}.

(** Modelled from the spec: util.filterJunk (common/util is not under
    src/) drops the junk entries (such as .DS_Store) of a directory
    listing and keeps the others in order; which names are junk is the
    host's [isJunk]. *)
Definition filterJunk (h : Host) (files : list string) : list string :=
  List.filter (fun file => negb (isJunk h file)) files.

End Host.

(** ** A small host to run the code on *)
Module Sample.
Import Js Host.

Fixpoint lookupOr {V} (table : list (string * V)) (dflt : V) (k : string) : V :=
  match table with
  | [] => dflt
  | (k', v) :: table' => if String.eqb k' k then v else lookupOr table' dflt k
  end.

(** The bundled index: arduino/avr 1.6.15 and arduino/sam 1.6.4, and an
    entry without a version. *)
Definition bundledIndex : json :=
  JObj [("packages",
         JArr [JObj [("name", JStr "arduino");
                     ("platforms",
                      JArr [JObj [("architecture", JStr "avr"); ("version", JStr "1.6.15")];
                            JObj [("architecture", JStr "sam"); ("version", JStr "1.6.4")];
                            JObj [("architecture", JStr "samd"); ("version", JStr "")]])]])].

(** /home/packages holds arduino (avr: 1.6.17 next to a .DS_Store) and
    esp8266 (esp8266: 2.3.0; empty: nothing but a .DS_Store);
    /home/lib holds the libraries Servo (for avr and sam, with
    examples), Bare (for any architecture, without examples) and Blank
    (with an example and an empty architectures field). *)
Definition host : Host :=
  {| packagePath := "/home";
     defaultPackagePath := "/ide/hardware";
     path_join := String.concat "/";
     path_resolve :=
       lookupOr [("/home/lib/Servo/examples/", "/home/lib/Servo/examples");
                 ("/home/lib/Servo/examples/Sweep/", "/home/lib/Servo/examples/Sweep");
                 ("/home/lib/Servo/examples/Sweep/data/", "/home/lib/Servo/examples/Sweep/data");
                 ("/home/lib/Servo/examples/More/", "/home/lib/Servo/examples/More");
                 ("/home/lib/Servo/examples/More/Knob/", "/home/lib/Servo/examples/More/Knob");
                 ("/home/lib/Servo/examples", "/home/lib/Servo/examples");
                 ("/home/lib/Servo/examples/Sweep", "/home/lib/Servo/examples/Sweep");
                 ("/home/lib/Servo/examples/More", "/home/lib/Servo/examples/More");
                 ("/home/lib/Blank/examples/", "/home/lib/Blank/examples");
                 ("/home/lib/Blank/examples/Demo/", "/home/lib/Blank/examples/Demo");
                 ("/home/lib/Blank/examples", "/home/lib/Blank/examples")] "/";
     path_dirname :=
       lookupOr [("/home/lib/Servo/examples/Sweep/", "/home/lib/Servo/examples");
                 ("/home/lib/Servo/examples/Sweep/data/", "/home/lib/Servo/examples/Sweep");
                 ("/home/lib/Servo/examples/More/", "/home/lib/Servo/examples");
                 ("/home/lib/Servo/examples/More/Knob/", "/home/lib/Servo/examples/More");
                 ("/home/lib/Blank/examples/Demo/", "/home/lib/Blank/examples")] "/";
     path_basename :=
       lookupOr [("/home/lib/Servo/examples/Sweep/", "Sweep");
                 ("/home/lib/Servo/examples/Sweep/data/", "data");
                 ("/home/lib/Servo/examples/More/", "More");
                 ("/home/lib/Servo/examples/More/Knob/", "Knob");
                 ("/home/lib/Blank/examples/Demo/", "Demo")] "";
     readFileSync :=
       lookupOr [("/ide/hardware/package_index_bundled.json", Normal "bundled")] Throws;
     readdirSync :=
       lookupOr [("/home/packages/arduino/hardware", Normal [".DS_Store"; "avr"]);
                 ("/home/packages/arduino/hardware/avr", Normal [".DS_Store"; "1.6.17"]);
                 ("/home/packages/esp8266/hardware", Normal ["esp8266"; "empty"]);
                 ("/home/packages/esp8266/hardware/esp8266", Normal ["2.3.0"]);
                 ("/home/packages/esp8266/hardware/empty", Normal [".DS_Store"]);
                 ("/home/lib/Servo/examples/Sweep", Normal ["Sweep.ino"; "data"]);
                 ("/home/lib/Servo/examples/Sweep/data", Normal ["table.h"]);
                 ("/home/lib/Servo/examples/More", Normal ["Knob"]);
                 ("/home/lib/Servo/examples/More/Knob", Normal ["Knob.ino"]);
                 ("/home/lib/Blank/examples/Demo", Normal ["Demo.ino"])] Throws;
     glob_sync :=
       lookupOr [("/home/lib/Servo/examples/**/**/",
                  ["/home/lib/Servo/examples/";
                   "/home/lib/Servo/examples/More/";
                   "/home/lib/Servo/examples/More/Knob/";
                   "/home/lib/Servo/examples/Sweep/";
                   "/home/lib/Servo/examples/Sweep/data/"]);
                 ("/home/lib/Blank/examples/**/**/",
                  ["/home/lib/Blank/examples/"; "/home/lib/Blank/examples/Demo/"])] [];
     JSON_parse := lookupOr [("bundled", Normal bundledIndex)] Throws;
     directoryExistsSync :=
       lookupOr [("/home/packages", true);
                 ("/home/packages/arduino/hardware", true);
                 ("/home/packages/esp8266/hardware", true);
                 ("/home/lib/Servo/examples", true);
                 ("/home/lib/Blank/examples", true)] false;
     fileExistsSync :=
       lookupOr [("/home/lib/Servo/library.properties", true);
                 ("/home/lib/Bare/library.properties", true);
                 ("/home/lib/Blank/library.properties", true);
                 ("/home/lib/Blank/examples/Demo/Demo.ino", true);
                 ("/home/lib/Servo/examples/Sweep/Sweep.ino", true);
                 ("/home/lib/Servo/examples/More/Knob/Knob.ino", true)] false;
     util_readdirSync := fun dir _ =>
       lookupOr [("/home/packages", Normal ["arduino"; "esp8266"]);
                 ("/home/lib", Normal ["Servo"; "Bare"; "Blank"])] Throws dir;
     parseProperties :=
       lookupOr [("/home/lib/Servo/library.properties",
                  Normal [("name", "Servo"); ("architectures", "avr,sam")]);
                 ("/home/lib/Bare/library.properties",
                  Normal [("name", "Bare"); ("architectures", "*")]);
                 ("/home/lib/Blank/library.properties",
                  Normal [("name", "Blank"); ("architectures", "")])] Throws;
     isJunk := String.eqb ".DS_Store" |}.

(** The same host with another bundled index. *)
Definition withBundledIndex (index : json) (h : Host) : Host :=
  {| packagePath := packagePath h;
     defaultPackagePath := defaultPackagePath h;
     path_join := path_join h;
     path_resolve := path_resolve h;
     path_dirname := path_dirname h;
     path_basename := path_basename h;
     readFileSync := readFileSync h;
     readdirSync := readdirSync h;
     glob_sync := glob_sync h;
     JSON_parse := fun _ => Normal index;
     directoryExistsSync := directoryExistsSync h;
     fileExistsSync := fileExistsSync h;
     util_readdirSync := util_readdirSync h;
     parseProperties := parseProperties h;
     isJunk := isJunk h |}.

(** A bundled index that lists arduino/avr in two versions. *)
Definition twoVersionsBundled : json :=
  JObj [("packages",
         JArr [JObj [("name", JStr "arduino");
                     ("platforms",
                      JArr [JObj [("architecture", JStr "avr"); ("version", JStr "1.6.15")];
                            JObj [("architecture", JStr "avr"); ("version", JStr "1.6.14")]])]])].

End Sample.

(** ** The installed-platform resolver *)
Module Installed.
Import Js Host Arrays.

(** The objects pushed by [getDefaultPlatforms] and
    [getManuallyInstalledPlatforms]. *)
Record InstalledPlatform := mkInstalled {
  packageName : string;
  architecture : string;
  version : json;
  rootBoardPath : string;
  defaultPlatform : bool;
}.

Section Resolver.
Context (h : Host).

(** *** [getDefaultPlatforms] *)

(** The body of [for (const platform of pkg.platforms)]. *)
Definition defaultPlatform_body (pkg platform : json) : M (list InstalledPlatform) unit :=
  (let* version := getProp (Some platform) "version" in
   if truthy version then
     let* pkg_name := getProp (Some pkg) "name" in
     let* platform_architecture := getProp (Some platform) "architecture" in
     let* name := asPathSegment pkg_name in
     let* arch := asPathSegment platform_architecture in
     match version with
     | Some v =>
         push (mkInstalled name arch v
                 (path_join h [defaultPackagePath h; name; arch]) true)
     | None => ret tt
     end
   else ret tt)%stmt.

(** The body of [for (const pkg of bundledObject.packages)]. *)
Definition defaultPackage_body (pkg : json) : M (list InstalledPlatform) unit :=
  (let* platforms := getProp (Some pkg) "platforms" in
   let* items := iterate platforms in
   forEachM items (defaultPlatform_body pkg))%stmt.

(** The [try] block. Its early [return defaultPlatforms] is the first
    branch of the conditional. *)
Definition getDefaultPlatforms_try : M (list InstalledPlatform) unit :=
  (let* packageBundled :=
     readFileSync h (path_join h [defaultPackagePath h; "package_index_bundled.json"]) in
   if negb (nonempty packageBundled) then ret tt
   else
     let* bundledObject := JSON_parse h packageBundled in
     if truthy (Some bundledObject) then
       let* packages := getProp (Some bundledObject) "packages" in
       if truthy packages then
         let* items := iterate packages in
         forEachM items defaultPackage_body
       else ret tt
     else ret tt)%stmt.

(** [try { ... } catch (ex) { } return defaultPlatforms;]: however the
    block ends, the array as it then stands is returned. *)
Definition getDefaultPlatforms : outcome (list InstalledPlatform) :=
  let '(_, defaultPlatforms) := getDefaultPlatforms_try [] in
  Normal defaultPlatforms.

(** *** [getManuallyInstalledPlatforms] *)

Definition rootPackagePath : string :=
  path_join h [path_join h [packagePath h; "packages"]].

Definition archPathOf (packageName : string) : string :=
  path_join h [packagePath h; "packages"; packageName; "hardware"].

(** The body of [architectures.forEach]. *)
Definition architecture_body (packageName architecture : string)
  : M (list InstalledPlatform) unit :=
  (let* listing := readdirSync h (path_join h [archPathOf packageName; architecture]) in
   match filterJunk h listing with
   | allVersion_0 :: _ =>
       push (mkInstalled packageName architecture (JStr allVersion_0)
               (path_join h [archPathOf packageName; architecture; allVersion_0]) false)
   | [] => ret tt
   end)%stmt.

(** The body of [for (const packageName of dirs)]. *)
Definition package_body (packageName : string) : M (list InstalledPlatform) unit :=
  (if negb (directoryExistsSync h (archPathOf packageName)) then ret tt
   else
     let* listing := readdirSync h (archPathOf packageName) in
     forEachM (filterJunk h listing) (architecture_body packageName))%stmt.

Definition getManuallyInstalledPlatforms_body : M (list InstalledPlatform) unit :=
  (if negb (directoryExistsSync h rootPackagePath) then ret tt
   else
     let* listing := util_readdirSync h rootPackagePath true in
     forEachM (filterJunk h listing) package_body)%stmt.

(** Nothing is caught here: a throw of [readdirSync] leaves the method. *)
Definition getManuallyInstalledPlatforms : outcome (list InstalledPlatform) :=
  match getManuallyInstalledPlatforms_body [] with
  | (Normal _, manuallyInstalled) => Normal manuallyInstalled
  | (Throws, _) => Throws
  end.

(** *** [getInstalledPlatforms] *)

Definition samePlatform (plat _plat : InstalledPlatform) : bool :=
  String.eqb (packageName _plat) (packageName plat)
  && String.eqb (architecture _plat) (architecture plat).

(** The [else] branch: the three fields of the entry found are overwritten. *)
Definition overwrite (plat find : InstalledPlatform) : InstalledPlatform :=
  mkInstalled (packageName find) (architecture find)
              (version plat) (rootBoardPath plat) (defaultPlatform plat).

(** The body of [manuallyInstalled.forEach]. *)
Definition overwriteWith (installedPlatforms : list InstalledPlatform)
           (plat : InstalledPlatform) : list InstalledPlatform :=
  match List.find (samePlatform plat) installedPlatforms with
  | None => (installedPlatforms ++ [plat])%list
  | Some _ => update_first (samePlatform plat) (overwrite plat) installedPlatforms
  end.

Definition getInstalledPlatforms : outcome (list InstalledPlatform) :=
  match getDefaultPlatforms with
  | Throws => Throws
  | Normal installedPlatforms =>
      match getManuallyInstalledPlatforms with
      | Throws => Throws
      | Normal manuallyInstalled =>
          Normal (fold_left overwriteWith manuallyInstalled installedPlatforms)
      end
  end.
End Resolver.

(** *** Loops and what they preserve *)
Section Loops.
Context {S X : Type}.

Lemma forEachM_inv (P : S -> Prop) (items : list X) (body : X -> M S unit) :
  (forall x st, In x items -> P st -> P (snd (body x st))) ->
  forall st, P st -> P (snd (forEachM items body st)).
Proof.
  induction items as [|x items IH]; intros Hbody st Hst; [exact Hst|].
  cbn [forEachM]. unfold bind.
  pose proof (Hbody x st (or_introl eq_refl) Hst) as Hstep.
  destruct (body x st) as [[[]|] st']; cbn [snd] in *; [|exact Hstep].
  apply IH; [|exact Hstep]. intros y st0 Hy. apply Hbody. right. exact Hy.
Qed.
End Loops.

(** *** The bundled defaults *)
Section DefaultFacts.
Context (h : Host).

Definition bundledIndexPath : string :=
  path_join h [defaultPackagePath h; "package_index_bundled.json"].

(** The entry stems from a platform of a package of the bundled index,
    from which it has its package name, architecture and version. *)
Definition fromBundledIndex (e : InstalledPlatform) : Prop :=
  exists content bundled packages pkgs pkg platforms plats platform,
    readFileSync h bundledIndexPath = Normal content
    /\ JSON_parse h content = Normal bundled
    /\ getProp (Some bundled) "packages" = Normal packages
    /\ iterate packages = Normal pkgs /\ In pkg pkgs
    /\ getProp (Some pkg) "platforms" = Normal platforms
    /\ iterate platforms = Normal plats /\ In platform plats
    /\ getProp (Some pkg) "name" = Normal (Some (JStr (packageName e)))
    /\ getProp (Some platform) "architecture" = Normal (Some (JStr (architecture e)))
    /\ getProp (Some platform) "version" = Normal (Some (version e)).

Definition default_ok (e : InstalledPlatform) : Prop :=
  defaultPlatform e = true
  /\ truthy (Some (version e)) = true
  /\ rootBoardPath e = path_join h [defaultPackagePath h; packageName e; architecture e]
  /\ fromBundledIndex e.

Lemma asPathSegment_Normal v s : asPathSegment v = Normal s -> v = Some (JStr s).
Proof. destruct v as [[]|]; simpl; intros [=]. congruence. Qed.

Lemma getDefaultPlatforms_try_ok :
  Forall default_ok (snd (getDefaultPlatforms_try h [])).
Proof.
  unfold getDefaultPlatforms_try, bind, eval. fold bundledIndexPath.
  destruct (readFileSync h bundledIndexPath) as [content|] eqn:Hread; [|constructor].
  destruct (negb (nonempty content)); [constructor|].
  destruct (JSON_parse h content) as [bundled|] eqn:Hparse; [|constructor].
  destruct (truthy (Some bundled)); [|constructor].
  destruct (getProp (Some bundled) "packages") as [packages|] eqn:Hpackages; [|constructor].
  destruct (truthy packages); [|constructor].
  destruct (iterate packages) as [pkgs|] eqn:Hpkgs; [|constructor].
  apply forEachM_inv; [|constructor].
  intros pkg st Hpkg Hst. unfold defaultPackage_body, bind, eval.
  destruct (getProp (Some pkg) "platforms") as [platforms|] eqn:Hplatforms; [|exact Hst].
  destruct (iterate platforms) as [plats|] eqn:Hplats; [|exact Hst].
  apply forEachM_inv; [|exact Hst].
  intros platform st' Hplatform Hst'. unfold defaultPlatform_body, bind, eval.
  destruct (getProp (Some platform) "version") as [version|] eqn:Hversion; [|exact Hst'].
  destruct (truthy version) eqn:Htruthy; [|exact Hst'].
  destruct (getProp (Some pkg) "name") as [pkg_name|] eqn:Hname; [|exact Hst'].
  destruct (getProp (Some platform) "architecture") as [parch|] eqn:Harch; [|exact Hst'].
  destruct (asPathSegment pkg_name) as [name|] eqn:Hn; [|exact Hst'].
  destruct (asPathSegment parch) as [arch|] eqn:Ha; [|exact Hst'].
  destruct version as [v|]; [|exact Hst'].
  apply asPathSegment_Normal in Hn, Ha. subst pkg_name parch.
  cbn [push snd]. apply Forall_app. split; [exact Hst'|].
  constructor; [|constructor].
  split; [reflexivity|]. split; [exact Htruthy|]. split; [reflexivity|].
  exists content, bundled, packages, pkgs, pkg, platforms, plats, platform.
  cbn [packageName architecture version]. auto 12.
Qed.

Lemma getDefaultPlatforms_Normal :
  getDefaultPlatforms h = Normal (snd (getDefaultPlatforms_try h [])).
Proof. unfold getDefaultPlatforms. destruct (getDefaultPlatforms_try h []). reflexivity. Qed.
End DefaultFacts.

(** *** Loops that only push *)
Section Pushing.
Context {X I : Type}.

Fixpoint mapM (c : I -> outcome (list X)) (items : list I) : outcome (list (list X)) :=
  match items with
  | [] => Normal []
  | x :: items' =>
      match c x with
      | Throws => Throws
      | Normal l =>
          match mapM c items' with
          | Throws => Throws
          | Normal ls => Normal (l :: ls)
          end
      end
  end.

(** The statement [body x] pushes the items [c x], or throws when [c x] does. *)
Definition pushes (body : I -> M (list X) unit) (c : I -> outcome (list X)) : Prop :=
  forall x st,
    match c x with
    | Normal l => body x st = (Normal tt, (st ++ l)%list)
    | Throws => fst (body x st) = Throws
    end.

Lemma forEachM_pushes body c items :
  pushes body c ->
  forall st,
    match mapM c items with
    | Normal ls => forEachM items body st = (Normal tt, (st ++ concat ls)%list)
    | Throws => fst (forEachM items body st) = Throws
    end.
Proof.
  intros Hbody. induction items as [|x items IH]; intros st; cbn [mapM forEachM].
  - unfold ret. rewrite app_nil_r. reflexivity.
  - unfold bind. specialize (Hbody x st). destruct (c x) as [l|].
    + rewrite Hbody. specialize (IH (st ++ l)%list).
      destruct (mapM c items) as [ls|]; [|exact IH].
      rewrite IH. cbn [concat]. rewrite app_assoc. reflexivity.
    + destruct (body x st) as [[[]|] st']; [discriminate|reflexivity].
Qed.

Lemma mapM_Normal_In c items ls x :
  mapM c items = Normal ls -> In x items ->
  exists l, c x = Normal l /\ forall e, In e l -> In e (concat ls).
Proof.
  revert ls. induction items as [|y items IH]; intros ls Hls Hx; [destruct Hx|].
  cbn [mapM] in Hls. destruct (c y) as [l|] eqn:Hy; [|discriminate].
  destruct (mapM c items) as [ls'|]; [|discriminate]. injection Hls as <-.
  cbn [concat]. destruct Hx as [->|Hx].
  - exists l. split; [exact Hy|]. intros e He. apply in_or_app. left. exact He.
  - destruct (IH _ eq_refl Hx) as (l' & Hl' & Hin). exists l'. split; [exact Hl'|].
    intros e He. apply in_or_app. right. apply Hin, He.
Qed.

Lemma mapM_Normal_origin c items ls e :
  mapM c items = Normal ls -> In e (concat ls) ->
  exists x l, In x items /\ c x = Normal l /\ In e l.
Proof.
  revert ls. induction items as [|y items IH]; intros ls Hls He; cbn [mapM] in Hls.
  - injection Hls as <-. destruct He.
  - destruct (c y) as [l|] eqn:Hy; [|discriminate].
    destruct (mapM c items) as [ls'|]; [|discriminate]. injection Hls as <-.
    cbn [concat] in He. apply in_app_or in He as [He|He].
    + exists y, l. split; [left; reflexivity|]. split; assumption.
    + destruct (IH _ eq_refl He) as (x & l' & Hx & Hc & Hin).
      exists x, l'. split; [right; exact Hx|]. split; assumption.
Qed.

Lemma mapM_total c items :
  (forall x, In x items -> exists l, c x = Normal l) ->
  exists ls, mapM c items = Normal ls.
Proof.
  induction items as [|y items IH]; intros Hall; [exists []; reflexivity|].
  cbn [mapM]. destruct (Hall y (or_introl eq_refl)) as (l & ->).
  destruct IH as (ls & ->); [intros x Hx; apply Hall; right; exact Hx|].
  exists (l :: ls). reflexivity.
Qed.
End Pushing.

(** *** The manually installed platforms *)
Section ManualFacts.
Context (h : Host).

Definition versionPathOf (packageName architecture : string) : string :=
  path_join h [archPathOf h packageName; architecture].

(** The platform resolved for an architecture folder from its first
    non-junk entry. *)
Definition resolved (packageName architecture allVersion_0 : string) : InstalledPlatform :=
  mkInstalled packageName architecture (JStr allVersion_0)
    (path_join h [archPathOf h packageName; architecture; allVersion_0]) false.

Definition architecture_pushed (packageName architecture : string)
  : outcome (list InstalledPlatform) :=
  match readdirSync h (versionPathOf packageName architecture) with
  | Throws => Throws
  | Normal listing =>
      Normal match filterJunk h listing with
             | allVersion_0 :: _ => [resolved packageName architecture allVersion_0]
             | [] => []
             end
  end.

Definition package_pushed (packageName : string) : outcome (list InstalledPlatform) :=
  if negb (directoryExistsSync h (archPathOf h packageName)) then Normal []
  else
    match readdirSync h (archPathOf h packageName) with
    | Throws => Throws
    | Normal listing =>
        match mapM (architecture_pushed packageName) (filterJunk h listing) with
        | Throws => Throws
        | Normal ls => Normal (concat ls)
        end
    end.

Lemma architecture_body_pushes packageName :
  pushes (architecture_body h packageName) (architecture_pushed packageName).
Proof.
  intros architecture st. unfold architecture_pushed, architecture_body, bind, eval.
  fold (versionPathOf packageName architecture).
  destruct (readdirSync h (versionPathOf packageName architecture)) as [listing|];
    [|reflexivity].
  destruct (filterJunk h listing); [|reflexivity].
  unfold ret. rewrite app_nil_r. reflexivity.
Qed.

Lemma package_body_pushes : pushes (package_body h) package_pushed.
Proof.
  intros packageName st. unfold package_pushed, package_body.
  destruct (negb (directoryExistsSync h (archPathOf h packageName))).
  { unfold ret. rewrite app_nil_r. reflexivity. }
  unfold bind, eval.
  destruct (readdirSync h (archPathOf h packageName)) as [listing|]; [|reflexivity].
  pose proof (forEachM_pushes _ _ (filterJunk h listing)
                (architecture_body_pushes packageName) st) as Hloop.
  destruct (mapM (architecture_pushed packageName) (filterJunk h listing));
    exact Hloop.
Qed.

Lemma getManuallyInstalledPlatforms_pushed dirs :
  directoryExistsSync h (rootPackagePath h) = true ->
  util_readdirSync h (rootPackagePath h) true = Normal dirs ->
  getManuallyInstalledPlatforms h
  = match mapM package_pushed (filterJunk h dirs) with
    | Throws => Throws
    | Normal ls => Normal (concat ls)
    end.
Proof.
  intros Hroot Hdirs.
  unfold getManuallyInstalledPlatforms, getManuallyInstalledPlatforms_body.
  rewrite Hroot. cbn [negb]. unfold bind, eval. rewrite Hdirs.
  pose proof (forEachM_pushes _ _ (filterJunk h dirs) package_body_pushes []) as Hloop.
  destruct (mapM package_pushed (filterJunk h dirs)) as [ls|].
  - rewrite Hloop. reflexivity.
  - destruct (forEachM (filterJunk h dirs) (package_body h) []) as [[[]|] st];
      [discriminate|reflexivity].
Qed.

Lemma package_pushed_fields packageName l e :
  package_pushed packageName = Normal l -> In e l ->
  Installed.packageName e = packageName
  /\ exists listing allVersion allVersion_0 rest,
       readdirSync h (archPathOf h packageName) = Normal listing
       /\ In (architecture e) (filterJunk h listing)
       /\ readdirSync h (versionPathOf packageName (architecture e)) = Normal allVersion
       /\ filterJunk h allVersion = allVersion_0 :: rest
       /\ e = resolved packageName (architecture e) allVersion_0.
Proof.
  unfold package_pushed.
  destruct (negb (directoryExistsSync h (archPathOf h packageName)));
    [intros [= <-] []|].
  destruct (readdirSync h (archPathOf h packageName)) as [listing|]; [|discriminate].
  destruct (mapM (architecture_pushed packageName) (filterJunk h listing)) as [ls|] eqn:Hls;
    [|discriminate].
  intros [= <-] He.
  destruct (mapM_Normal_origin _ _ _ _ Hls He) as (arch & l & Harch & Hc & Hin).
  unfold architecture_pushed in Hc.
  destruct (readdirSync h (versionPathOf packageName arch)) as [allVersion|] eqn:Hv;
    [|discriminate].
  injection Hc as <-.
  destruct (filterJunk h allVersion) as [|v rest] eqn:Hf; [destruct Hin|].
  destruct Hin as [<-|[]]. cbn [resolved Installed.packageName architecture].
  split; [reflexivity|].
  exists listing, allVersion, v, rest. rewrite Hv. auto.
Qed.
End ManualFacts.

(** *** Manual platforms overwrite the defaults *)
Section OverwriteFacts.

(** Package name and architecture, the pair [find] compares. *)
Definition hasKey (k : string * string) (p : InstalledPlatform) : bool :=
  String.eqb (packageName p) (fst k) && String.eqb (architecture p) (snd k).

Lemma hasKey_iff k p : hasKey k p = true <-> (packageName p, architecture p) = k.
Proof.
  unfold hasKey. rewrite andb_true_iff, !String.eqb_eq.
  destruct k as [kp ka]. simpl. split; [intros [-> ->]; reflexivity|].
  intros [= -> ->]. split; reflexivity.
Qed.

Lemma samePlatform_hasKey plat :
  samePlatform plat = hasKey (packageName plat, architecture plat).
Proof. reflexivity. Qed.

Lemma overwrite_same_key plat find :
  hasKey (packageName plat, architecture plat) find = true -> overwrite plat find = plat.
Proof.
  intros [= Hp Ha]%hasKey_iff. unfold overwrite. rewrite Hp, Ha.
  destruct plat. reflexivity.
Qed.

Lemma filter_head_hasKey k (l : list InstalledPlatform) x xs :
  List.filter (hasKey k) l = x :: xs -> hasKey k x = true.
Proof.
  intros Hf. assert (Hin : In x (List.filter (hasKey k) l)) by (rewrite Hf; left; reflexivity).
  apply List.filter_In in Hin. tauto.
Qed.

(** Through the filter of one key: the last manual platform of that key
    takes the place of the first default one. *)
Lemma fold_overwriteWith_key k manual defaults :
  List.filter (hasKey k) (fold_left overwriteWith manual defaults)
  = match last (List.filter (hasKey k) manual) with
    | None => List.filter (hasKey k) defaults
    | Some m => m :: tl (List.filter (hasKey k) defaults)
    end.
Proof.
  revert k. induction manual as [|m manual IH] using rev_ind; intros k; [reflexivity|].
  rewrite fold_left_app, List.filter_app. cbn [fold_left List.filter].
  set (st := fold_left overwriteWith manual defaults) in *.
  unfold overwriteWith. rewrite samePlatform_hasKey.
  destruct (hasKey k m) eqn:Hk.
  - rewrite last_snoc.
    apply hasKey_iff in Hk. subst k.
    destruct (List.find _ st) as [x|] eqn:Hfind.
    + rewrite filter_update_first_same.
      2:{ intros y Hy. unfold overwrite, hasKey in *. exact Hy. }
      specialize (IH (packageName m, architecture m)).
      destruct (List.filter (hasKey (packageName m, architecture m)) st) as [|y ys] eqn:Hst.
      { apply find_none_filter in Hst. congruence. }
      rewrite (overwrite_same_key m y (filter_head_hasKey _ _ _ _ Hst)).
      f_equal. destruct (last _); [|rewrite <- IH; reflexivity].
      injection IH as _ ->. reflexivity.
    + apply find_none_filter in Hfind. rewrite List.filter_app, Hfind.
      cbn [List.filter app].
      replace (hasKey (packageName m, architecture m) m) with true
        by (symmetry; apply hasKey_iff; reflexivity).
      rewrite IH in Hfind. destruct (last _); [discriminate|].
      rewrite Hfind. reflexivity.
  - rewrite app_nil_r.
    destruct (List.find _ st) as [x|] eqn:Hfind.
    + rewrite filter_update_first_other; [apply IH|].
      intros y Hy.
      assert (hasKey k y = false) as Hky.
      { destruct (hasKey k y) eqn:Hky; [|reflexivity].
        apply hasKey_iff in Hy, Hky.
        assert (hasKey k m = true) by (apply hasKey_iff; congruence). congruence. }
      split; [exact Hky|]. unfold overwrite, hasKey in *. exact Hky.
    + rewrite List.filter_app. cbn [List.filter]. rewrite Hk, app_nil_r. apply IH.
Qed.
End OverwriteFacts.

(** C8. [getDefaultPlatforms] never throws; it returns the empty list
    when the bundled index file is missing, empty or not valid JSON; and
    every entry it returns is marked as default platform and carries a
    (truthy, hence non-empty) version read from a platform of the
    bundled index. *)
Theorem getDefaultPlatforms_never_throws (h : Host) :
  exists l : list InstalledPlatform,
    getDefaultPlatforms h = Normal l
    /\ (readFileSync h (bundledIndexPath h) = Throws -> l = [])
    /\ (readFileSync h (bundledIndexPath h) = Normal "" -> l = [])
    /\ (forall content, readFileSync h (bundledIndexPath h) = Normal content ->
        JSON_parse h content = Throws -> l = [])
    /\ (forall e, In e l ->
        defaultPlatform e = true
        /\ truthy (Some (version e)) = true
        /\ version e <> JStr ""
        /\ fromBundledIndex h e).
Proof.
  exists (snd (getDefaultPlatforms_try h [])).
  split; [apply getDefaultPlatforms_Normal|].
  split; [|split; [|split]].
  - intros Hread. unfold getDefaultPlatforms_try, bind, eval.
    fold (bundledIndexPath h). rewrite Hread. reflexivity.
  - intros Hread. unfold getDefaultPlatforms_try, bind, eval.
    fold (bundledIndexPath h). rewrite Hread. reflexivity.
  - intros content Hread Hparse. unfold getDefaultPlatforms_try, bind, eval.
    fold (bundledIndexPath h). rewrite Hread.
    destruct (negb (nonempty content)); [reflexivity|]. rewrite Hparse. reflexivity.
  - intros e He.
    pose proof (getDefaultPlatforms_try_ok h) as Hall.
    rewrite List.Forall_forall in Hall.
    destruct (Hall e He) as (Hd & Ht & _ & Hfrom).
    split; [exact Hd|]. split; [exact Ht|]. split; [|exact Hfrom].
    intros Hv. rewrite Hv in Ht. discriminate.
Qed.

Lemma getDefaultPlatforms_never_throws_witness :
  getDefaultPlatforms Sample.host
  = Normal [mkInstalled "arduino" "avr" (JStr "1.6.15") "/ide/hardware/arduino/avr" true;
            mkInstalled "arduino" "sam" (JStr "1.6.4") "/ide/hardware/arduino/sam" true]
  /\ defaultPlatform
       (mkInstalled "arduino" "avr" (JStr "1.6.15") "/ide/hardware/arduino/avr" true) = true.
Proof.
  destruct (getDefaultPlatforms_never_throws Sample.host) as (l & Hl & _ & _ & _ & Hentries).
  assert (Hrun : getDefaultPlatforms Sample.host
                 = Normal [mkInstalled "arduino" "avr" (JStr "1.6.15") "/ide/hardware/arduino/avr" true;
                           mkInstalled "arduino" "sam" (JStr "1.6.4") "/ide/hardware/arduino/sam" true])
    by (vm_compute; reflexivity).
  split; [exact Hrun|].
  apply Hentries. rewrite Hrun in Hl. injection Hl as <-. left. reflexivity.
Defined.

(** C5. With the package directory present and listed as [dirs]: when
    the listings of the hardware and architecture folders can be read,
    [getManuallyInstalledPlatforms] returns; and in what it returns,
    every architecture folder of every package whose listing has a
    non-junk entry is resolved to one platform, whose version is the
    first non-junk entry and whose [rootBoardPath] is the path of that
    entry, while a folder without non-junk entries has no platform. *)
Theorem getManuallyInstalledPlatforms_first_non_junk (h : Host) (dirs : list string) :
  directoryExistsSync h (rootPackagePath h) = true ->
  util_readdirSync h (rootPackagePath h) true = Normal dirs ->
  ((forall packageName,
       In packageName (filterJunk h dirs) ->
       directoryExistsSync h (archPathOf h packageName) = true ->
       exists architectures,
         readdirSync h (archPathOf h packageName) = Normal architectures
         /\ forall architecture,
              In architecture (filterJunk h architectures) ->
              exists allVersion,
                readdirSync h (path_join h [archPathOf h packageName; architecture])
                = Normal allVersion) ->
   exists res, getManuallyInstalledPlatforms h = Normal res)
  /\
  (forall res, getManuallyInstalledPlatforms h = Normal res ->
   forall packageName architecture architectures allVersion,
     In packageName (filterJunk h dirs) ->
     directoryExistsSync h (archPathOf h packageName) = true ->
     readdirSync h (archPathOf h packageName) = Normal architectures ->
     In architecture (filterJunk h architectures) ->
     readdirSync h (path_join h [archPathOf h packageName; architecture]) = Normal allVersion ->
     match filterJunk h allVersion with
     | allVersion_0 :: _ =>
         let plat :=
           mkInstalled packageName architecture (JStr allVersion_0)
             (path_join h [archPathOf h packageName; architecture; allVersion_0]) false in
         In plat res
         /\ forall e, In e res ->
                      Installed.packageName e = packageName ->
                      Installed.architecture e = architecture -> e = plat
     | [] =>
         forall e, In e res ->
                   ~ (Installed.packageName e = packageName
                      /\ Installed.architecture e = architecture)
     end).
Proof.
  intros Hroot Hdirs. rewrite (getManuallyInstalledPlatforms_pushed h dirs Hroot Hdirs).
  split.
  - intros Hall.
    destruct (mapM_total (package_pushed h) (filterJunk h dirs)) as (ls & ->);
      [|eexists; reflexivity].
    intros packageName Hpkg. unfold package_pushed.
    destruct (directoryExistsSync h (archPathOf h packageName)) eqn:Hdir;
      [|eexists; reflexivity].
    destruct (Hall packageName Hpkg Hdir) as (architectures & -> & Harchs). cbn [negb].
    destruct (mapM_total (architecture_pushed h packageName) (filterJunk h architectures))
      as (ls & ->); [|eexists; reflexivity].
    intros architecture Harch. unfold architecture_pushed, versionPathOf.
    destruct (Harchs architecture Harch) as (allVersion & ->). eexists; reflexivity.
  - intros res Hres packageName architecture architectures allVersion
           Hpkg Hdir Harchs Harch Hversions.
    destruct (mapM (package_pushed h) (filterJunk h dirs)) as [ls|] eqn:Hls; [|discriminate].
    injection Hres as <-.
    assert (Horigin : forall e, In e (concat ls) ->
              Installed.packageName e = packageName ->
              Installed.architecture e = architecture ->
              exists allVersion_0 rest,
                filterJunk h allVersion = allVersion_0 :: rest
                /\ e = resolved h packageName architecture allVersion_0).
    { intros e He Hp Ha.
      destruct (mapM_Normal_origin _ _ _ _ Hls He) as (pkg' & l & _ & Hl & Hin).
      destruct (package_pushed_fields h pkg' l e Hl Hin)
        as (Hp' & listing & allVersion' & v & rest & _ & _ & Hv & Hf & ->).
      cbn [resolved Installed.packageName Installed.architecture] in *.
      subst pkg'. rewrite Hp, Ha in *. unfold versionPathOf in Hv.
      rewrite Hversions in Hv. injection Hv as <-.
      exists v, rest. split; [exact Hf|reflexivity]. }
    destruct (filterJunk h allVersion) as [|allVersion_0 rest] eqn:Hf.
    + intros e He [Hp Ha]. destruct (Horigin e He Hp Ha) as (v & r & [=] & _).
    + split.
      * destruct (mapM_Normal_In _ _ _ _ Hls Hpkg) as (l & Hl & Hincl).
        apply Hincl. unfold package_pushed in Hl. rewrite Hdir, Harchs in Hl.
        cbn [negb] in Hl.
        destruct (mapM (architecture_pushed h packageName) (filterJunk h architectures))
          as [ls'|] eqn:Hls'; [|discriminate].
        injection Hl as <-.
        destruct (mapM_Normal_In _ _ _ _ Hls' Harch) as (l' & Hl' & Hincl').
        apply Hincl'. unfold architecture_pushed, versionPathOf in Hl'.
        rewrite Hversions, Hf in Hl'. injection Hl' as <-. left. reflexivity.
      * intros e He Hp Ha. destruct (Horigin e He Hp Ha) as (v & r & [= <- <-] & ->).
        reflexivity.
Qed.

Lemma getManuallyInstalledPlatforms_first_non_junk_witness :
  In (mkInstalled "arduino" "avr" (JStr "1.6.17")
        "/home/packages/arduino/hardware/avr/1.6.17" false)
     [mkInstalled "arduino" "avr" (JStr "1.6.17")
        "/home/packages/arduino/hardware/avr/1.6.17" false;
      mkInstalled "esp8266" "esp8266" (JStr "2.3.0")
        "/home/packages/esp8266/hardware/esp8266/2.3.0" false].
Proof.
  exact (proj1 (proj2 (getManuallyInstalledPlatforms_first_non_junk Sample.host
                         ["arduino"; "esp8266"] eq_refl eq_refl)
                  _ eq_refl "arduino" "avr" [".DS_Store"; "avr"] [".DS_Store"; "1.6.17"]
                  (or_introl eq_refl) eq_refl eq_refl (or_introl eq_refl) eq_refl)).
Defined.

Example manual_sample :
  getManuallyInstalledPlatforms Sample.host
  = Normal [mkInstalled "arduino" "avr" (JStr "1.6.17")
              "/home/packages/arduino/hardware/avr/1.6.17" false;
            mkInstalled "esp8266" "esp8266" (JStr "2.3.0")
              "/home/packages/esp8266/hardware/esp8266/2.3.0" false].
Proof. vm_compute. reflexivity. Qed.

(** Where the bundled index names each pair once, the manual platform
    replaces the bundled one: when both methods return,
    [getInstalledPlatforms] returns, and for every package name and
    architecture, a pair listed once among the defaults and once among
    the manual platforms has exactly one entry, with version,
    rootBoardPath and defaultPlatform of the manual one; a pair without
    manual platform keeps its default entries unchanged; a pair without
    default entry and with one manual platform has exactly that
    platform. *)
Lemma getInstalledPlatforms_prefers_manual (h : Host)
        (defaults manual : list InstalledPlatform) :
  getDefaultPlatforms h = Normal defaults ->
  getManuallyInstalledPlatforms h = Normal manual ->
  exists installed,
    getInstalledPlatforms h = Normal installed
    /\ forall pkg arch : string,
         (forall d m,
             List.filter (hasKey (pkg, arch)) defaults = [d] ->
             List.filter (hasKey (pkg, arch)) manual = [m] ->
             exists e,
               List.filter (hasKey (pkg, arch)) installed = [e]
               /\ packageName e = pkg /\ architecture e = arch
               /\ version e = version m
               /\ rootBoardPath e = rootBoardPath m
               /\ defaultPlatform e = defaultPlatform m)
         /\ (List.filter (hasKey (pkg, arch)) manual = [] ->
             List.filter (hasKey (pkg, arch)) installed
             = List.filter (hasKey (pkg, arch)) defaults)
         /\ (forall m,
             List.filter (hasKey (pkg, arch)) defaults = [] ->
             List.filter (hasKey (pkg, arch)) manual = [m] ->
             List.filter (hasKey (pkg, arch)) installed = [m]).
Proof.
  intros Hd Hm. unfold getInstalledPlatforms. rewrite Hd, Hm.
  eexists. split; [reflexivity|]. intros pkg arch.
  rewrite fold_overwriteWith_key. split; [|split].
  - intros d m Hfd Hfm. rewrite Hfd, Hfm. cbn [last tl].
    exists m. split; [reflexivity|].
    assert (Hk : hasKey (pkg, arch) m = true)
      by (apply (filter_head_hasKey _ manual m []); exact Hfm).
    apply hasKey_iff in Hk. injection Hk as Hp Ha. auto.
  - intros ->. reflexivity.
  - intros m -> ->. reflexivity.
Qed.

Lemma getInstalledPlatforms_prefers_manual_witness :
  exists installed,
    getInstalledPlatforms Sample.host = Normal installed
    /\ List.filter (hasKey ("arduino", "avr")) installed
       = [mkInstalled "arduino" "avr" (JStr "1.6.17")
            "/home/packages/arduino/hardware/avr/1.6.17" false].
Proof.
  destruct (getInstalledPlatforms_prefers_manual Sample.host
              [mkInstalled "arduino" "avr" (JStr "1.6.15") "/ide/hardware/arduino/avr" true;
               mkInstalled "arduino" "sam" (JStr "1.6.4") "/ide/hardware/arduino/sam" true]
              [mkInstalled "arduino" "avr" (JStr "1.6.17")
                 "/home/packages/arduino/hardware/avr/1.6.17" false;
               mkInstalled "esp8266" "esp8266" (JStr "2.3.0")
                 "/home/packages/esp8266/hardware/esp8266/2.3.0" false]
              eq_refl eq_refl) as (installed & Hrun & Hkeys).
  exists installed. split; [exact Hrun|].
  destruct (Hkeys "arduino" "avr") as (Hboth & _ & _).
  destruct (Hboth _ _ eq_refl eq_refl) as (e & He & Hp & Ha & Hv & Hr & Hdp).
  rewrite He. f_equal. destruct e. cbn in *. congruence.
Defined.

Example installed_sample :
  getInstalledPlatforms Sample.host
  = Normal [mkInstalled "arduino" "avr" (JStr "1.6.17")
              "/home/packages/arduino/hardware/avr/1.6.17" false;
            mkInstalled "arduino" "sam" (JStr "1.6.4") "/ide/hardware/arduino/sam" true;
            mkInstalled "esp8266" "esp8266" (JStr "2.3.0")
              "/home/packages/esp8266/hardware/esp8266/2.3.0" false].
Proof. vm_compute. reflexivity. Qed.

(** C2. The method's comment reads: always using manually installed
    platforms to overwrite the same platform from arduino installation
    directory. With a
    bundled index that lists arduino/avr in two versions (1.6.15 and
    1.6.14) and arduino/avr 1.6.17 installed manually, the pair appears
    among the defaults and among the manual platforms, and the result
    of [getInstalledPlatforms] has two entries for it: the manual one in
    place of the first bundled entry, and the second bundled entry,
    version 1.6.14 with defaultPlatform true, left as it was. The search
    for the entry to overwrite stops at the first match. *)
Lemma twice_bundled_pair_keeps_two_entries :
  let h := Sample.withBundledIndex Sample.twoVersionsBundled Sample.host in
  getDefaultPlatforms h
  = Normal [mkInstalled "arduino" "avr" (JStr "1.6.15") "/ide/hardware/arduino/avr" true;
            mkInstalled "arduino" "avr" (JStr "1.6.14") "/ide/hardware/arduino/avr" true]
  /\ getManuallyInstalledPlatforms h
     = Normal [mkInstalled "arduino" "avr" (JStr "1.6.17")
                 "/home/packages/arduino/hardware/avr/1.6.17" false;
               mkInstalled "esp8266" "esp8266" (JStr "2.3.0")
                 "/home/packages/esp8266/hardware/esp8266/2.3.0" false]
  /\ exists installed,
       getInstalledPlatforms h = Normal installed
       /\ List.filter (hasKey ("arduino", "avr")) installed
          = [mkInstalled "arduino" "avr" (JStr "1.6.17")
               "/home/packages/arduino/hardware/avr/1.6.17" false;
             mkInstalled "arduino" "avr" (JStr "1.6.14") "/ide/hardware/arduino/avr" true].
Proof.
  cbv zeta. split; [vm_compute; reflexivity|]. split; [vm_compute; reflexivity|].
  eexists. split; vm_compute; reflexivity.
Qed.

End Installed.

(** ** The example tree builder ([ExampleManager]) *)
Module Examples.
Import Js Host.

(** [IExampleNode], as the tree that is returned. *)
Inductive IExampleNode : Type :=
| mkNode (name path : string) (isLeaf : bool) (children : list IExampleNode).

Definition isLeaf (n : IExampleNode) : bool :=
  match n with mkNode _ _ leaf _ => leaf end.

Definition children (n : IExampleNode) : list IExampleNode :=
  match n with mkNode _ _ _ cs => cs end.

(** A node object while the tree is built. Objects live in a store and
    are referred to by their index: the map and a parent's [children]
    array share the object, and [children.push] mutates it in place. The
    root object has no [isLeaf] field, which reads as false. *)
Record ExampleObject := mkObject {
  o_name : string;
  o_path : string;
  o_isLeaf : bool;
  o_children : list nat;
}.

Definition pushChild (id : nat) (o : ExampleObject) : ExampleObject :=
  mkObject (o_name o) (o_path o) (o_isLeaf o) (o_children o ++ [id])%list.

Section Builder.
Context (h : Host).

(** [isExampleFolder(dirname)] *)
Definition isExampleFolder (dirname : string) : outcome bool :=
  match readdirSync h dirname with
  | Throws => Throws
  | Normal items =>
      Normal (existsb (fun item => fileExistsSync h (path_join h [dirname; item])
                                   && endsWith item ".ino") items)
  end.

(** The body of the [for] loop of [parseExamples], on the store and
    [exampleMap]. *)
Definition addFolder (st : list ExampleObject * gmap string nat) (folder : string)
  : outcome (list ExampleObject * gmap string nat) :=
  let '(store, exampleMap) := st in
  let currentPath := path_resolve h folder in
  let parentPath := path_resolve h (path_dirname h folder) in
  match exampleMap !! parentPath with
  | None => Normal st
  | Some parent =>
      match store !! parent with
      | None => Normal st
      | Some parentExample =>
          if negb (o_isLeaf parentExample) then
            match isExampleFolder currentPath with
            | Throws => Throws
            | Normal leaf =>
                let current := length store in
                let currentExample := mkObject (path_basename h folder) currentPath leaf [] in
                Normal (<[parent := pushChild current parentExample]>
                          (store ++ [currentExample])%list,
                        <[currentPath := current]> exampleMap)
            end
          else Normal st
      end
  end.

Fixpoint addFolders (folders : list string) (st : list ExampleObject * gmap string nat)
  : outcome (list ExampleObject * gmap string nat) :=
  match folders with
  | [] => Normal st
  | folder :: folders' =>
      match addFolder st folder with
      | Throws => Throws
      | Normal st' => addFolders folders' st'
      end
  end.

(** The node of the object [id], looked up among the nodes built for the
    objects after [base]. *)
Definition nodeAt (later : list IExampleNode) (base id : nat) : option IExampleNode :=
  if Nat.ltb base id then later !! (id - S base) else None.

(** The trees the objects of the store stand for; [base] is the index of
    the first of [objects]. An object only refers to objects created
    after it, so the nodes are built from the last object backwards. *)
Fixpoint reify (objects : list ExampleObject) (base : nat) : list IExampleNode :=
  match objects with
  | [] => []
  | o :: objects' =>
      let later := reify objects' (S base) in
      mkNode (o_name o) (o_path o) (o_isLeaf o)
             (omap (nodeAt later base) (o_children o)) :: later
  end.

(** [rootNode.children] *)
Definition rootChildren (store : list ExampleObject) : list IExampleNode :=
  match reify store 0 with
  | rootNode :: _ => children rootNode
  | [] => []
  end.

(** [parseExamples(rootPath)]. [exampleFolders[0]] of an empty glob result
    is [undefined], on which [path.resolve] throws. *)
Definition parseExamples (rootPath : string) : outcome (list IExampleNode) :=
  if negb (directoryExistsSync h rootPath) then Normal []
  else
    match glob_sync h (path_join h [rootPath; "**/**/"]) with
    | [] => Throws
    | first :: rest =>
        let rootNode := mkObject "" "" false [] in
        match addFolders rest ([rootNode], {[ path_resolve h first := 0 ]}) with
        | Throws => Throws
        | Normal (store, _) => Normal (rootChildren store)
        end
    end.

(** *** [parseExamplesFromLibrary] *)

(** The objects pushed for a library. *)
Record LibraryExamples := mkLibrary {
  lib_name : string;
  lib_path : string;
  lib_children : list IExampleNode;
}.

(** An element of the array returned: a library, or the group that
    collects the incompatible ones. *)
Inductive Listed : Type :=
| Library (l : LibraryExamples)
| Group (name path : string) (children : list LibraryExamples).

Fixpoint property (k : string) (properties : list (string * string)) : option string :=
  match properties with
  | [] => None
  | (k', v) :: properties' => if String.eqb k' k then Some v else property k properties'
  end.

(** [isSupported(architectures)]; [currentBoard] is given by the
    architecture of its platform, if a board is selected. *)
Definition isSupported (currentBoard : option string) (architectures : option string) : bool :=
  match architectures with
  | None => false
  | Some architectures =>
      if negb (nonempty architectures) then false
      else
        match currentBoard with
        | None => true
        | Some targetArch =>
            Z.leb 0 (indexOf architectures targetArch)
            || Z.leb 0 (indexOf architectures "*")
        end
  end.

Section Scan.
Context (currentBoard : option string) (rootPath : string) (needParsingIncompatible : bool).

Definition propertiesFileOf (library : string) : string :=
  path_join h [rootPath; library; "library.properties"].

Definition examplesPathOf (library : string) : string :=
  path_join h [rootPath; library; "examples"].

(** The body of [for (const library of libraries)], on [examples] and
    [inCompatibles]. *)
Definition scanLibrary (st : list LibraryExamples * list LibraryExamples) (library : string)
  : outcome (list LibraryExamples * list LibraryExamples) :=
  let '(examples, inCompatibles) := st in
  if fileExistsSync h (propertiesFileOf library) then
    match parseProperties h (propertiesFileOf library) with
    | Throws => Throws
    | Normal properties =>
        match parseExamples (examplesPathOf library) with
        | Throws => Throws
        | Normal children =>
            if negb (Nat.eqb (length children) 0) then
              let entry := mkLibrary library (path_join h [rootPath; library]) children in
              if isSupported currentBoard (property "architectures" properties) then
                Normal ((examples ++ [entry])%list, inCompatibles)
              else if needParsingIncompatible then
                Normal (examples, (inCompatibles ++ [entry])%list)
              else Normal st
            else Normal st
        end
    end
  else Normal st.

Fixpoint scanLibraries (libraries : list string)
         (st : list LibraryExamples * list LibraryExamples)
  : outcome (list LibraryExamples * list LibraryExamples) :=
  match libraries with
  | [] => Normal st
  | library :: libraries' =>
      match scanLibrary st library with
      | Throws => Throws
      | Normal st' => scanLibraries libraries' st'
      end
  end.

Definition parseExamplesFromLibrary : outcome (list Listed) :=
  match util_readdirSync h rootPath true with
  | Throws => Throws
  | Normal libraries =>
      match scanLibraries libraries ([], []) with
      | Throws => Throws
      | Normal (examples, inCompatibles) =>
          if needParsingIncompatible && negb (Nat.eqb (length inCompatibles) 0) then
            Normal (map Library examples
                      ++ [Group "INCOMPATIBLE" "INCOMPATIBLE" inCompatibles])%list
          else Normal (map Library examples)
      end
  end.
End Scan.
End Builder.

Definition servoTree : list IExampleNode :=
  [mkNode "More" "/home/lib/Servo/examples/More" false
     [mkNode "Knob" "/home/lib/Servo/examples/More/Knob" true []];
   mkNode "Sweep" "/home/lib/Servo/examples/Sweep" true []].

Example parseExamples_sample :
  parseExamples Sample.host "/home/lib/Servo/examples" = Normal servoTree.
Proof. vm_compute. reflexivity. Qed.

Definition blankTree : list IExampleNode :=
  [mkNode "Demo" "/home/lib/Blank/examples/Demo" true []].

Example parseExamplesFromLibrary_sample :
  parseExamplesFromLibrary Sample.host (Some "avr") "/home/lib" true
  = Normal [Library (mkLibrary "Servo" "/home/lib/Servo" servoTree);
            Group "INCOMPATIBLE" "INCOMPATIBLE"
              [mkLibrary "Blank" "/home/lib/Blank" blankTree]].
Proof. vm_compute. reflexivity. Qed.

(** *** The store while the tree is built *)

Definition path (n : IExampleNode) : string :=
  match n with mkNode _ p _ _ => p end.

(** [P] holds of the node and of all nodes below it. *)
Inductive all_nodes (P : IExampleNode -> Prop) : IExampleNode -> Prop :=
| all_nodes_node n : P n -> Forall (all_nodes P) (children n) -> all_nodes P n.

(** [n] is [t] or a node below it. *)
Inductive inTree (n : IExampleNode) : IExampleNode -> Prop :=
| inTree_here : inTree n n
| inTree_below t c : In c (children t) -> inTree n c -> inTree n t.

Lemma all_nodes_inTree P n t : inTree n t -> all_nodes P t -> P n.
Proof.
  induction 1 as [|t c Hc Hin IH]; intros Hok.
  - destruct Hok as [n Hn _]. exact Hn.
  - apply IH. destruct Hok as [t _ Hall].
    rewrite List.Forall_forall in Hall. apply Hall, Hc.
Qed.

Section BuilderFacts.
Context (h : Host).

(** What holds of every object but the root: it is a leaf exactly when
    [isExampleFolder] says so of its path, and a leaf has no children. *)
Definition object_ok (o : ExampleObject) : Prop :=
  (o_isLeaf o = true -> o_children o = [])
  /\ isExampleFolder h (o_path o) = Normal (o_isLeaf o).

Definition node_ok (n : IExampleNode) : Prop :=
  (isLeaf n = true -> children n = [])
  /\ isExampleFolder h (path n) = Normal (isLeaf n).

(** Every object refers to objects created after it only; the root is no
    leaf; the other objects are as [object_ok] says. *)
Definition store_ok (store : list ExampleObject) : Prop :=
  forall i o, store !! i = Some o ->
    Forall (fun id => i < id < length store) (o_children o)
    /\ match i with
       | 0 => o_isLeaf o = false
       | S _ => object_ok o
       end.

Lemma addFolder_ok store exampleMap folder store' exampleMap' :
  store_ok store ->
  addFolder h (store, exampleMap) folder = Normal (store', exampleMap') ->
  store_ok store'.
Proof.
  intros Hok. unfold addFolder.
  destruct (exampleMap !! path_resolve h (path_dirname h folder)) as [parent|];
    [|intros [= <- <-]; exact Hok].
  destruct (store !! parent) as [parentExample|] eqn:Hparent;
    [|intros [= <- <-]; exact Hok].
  destruct (o_isLeaf parentExample) eqn:Hleaf; cbn [negb];
    [intros [= <- <-]; exact Hok|].
  destruct (isExampleFolder h (path_resolve h folder)) as [leaf|] eqn:Hfolder;
    [|discriminate].
  intros [= <- <-].
  assert (Hlt : parent < length store) by (eapply lookup_lt_Some; eassumption).
  intros i o. rewrite length_insert, length_app. cbn [length].
  destruct (decide (parent = i)) as [<-|Hne].
  - rewrite list_lookup_insert_eq by (rewrite length_app; cbn [length]; lia).
    intros [= <-]. cbn [pushChild o_children o_isLeaf].
    destruct (Hok parent parentExample Hparent) as [Hall Hrest]. split.
    + apply Forall_app. split.
      * eapply Forall_impl; [exact Hall|]. cbn beta. intros id Hid. lia.
      * constructor; [lia|constructor].
    + destruct parent; [exact Hleaf|].
      destruct Hrest as [_ Hfold]. split; [cbn; congruence|exact Hfold].
  - rewrite list_lookup_insert_ne by exact Hne.
    destruct (decide (i < length store)) as [Hi|Hi].
    + rewrite lookup_app_l by exact Hi. intros Ho.
      destruct (Hok i o Ho) as [Hall Hl]. split; [|exact Hl].
      eapply Forall_impl; [exact Hall|]. cbn beta. intros id Hid. lia.
    + rewrite lookup_app_r by lia.
      destruct (i - length store) as [|k] eqn:Hk; cbn; [|intros [=]].
      intros [= <-]. cbn. split; [constructor|].
      destruct i; [lia|]. split; [reflexivity|exact Hfolder].
Qed.

Lemma addFolders_ok folders store exampleMap store' exampleMap' :
  store_ok store ->
  addFolders h folders (store, exampleMap) = Normal (store', exampleMap') ->
  store_ok store'.
Proof.
  revert store exampleMap.
  induction folders as [|folder folders IH]; intros store exampleMap Hok; cbn [addFolders].
  - intros [= <- <-]. exact Hok.
  - destruct (addFolder h (store, exampleMap) folder) as [[store1 map1]|] eqn:Hstep;
      [|discriminate].
    apply IH. eapply addFolder_ok; eassumption.
Qed.

(** When every folder can be listed, the loop ends normally. *)
Lemma addFolders_returns folders st :
  (forall folder, In folder folders ->
                  exists items, readdirSync h (path_resolve h folder) = Normal items) ->
  exists st', addFolders h folders st = Normal st'.
Proof.
  revert st. induction folders as [|folder folders IH]; intros st Hread; cbn [addFolders].
  - eexists; reflexivity.
  - assert (Hstep : exists st1, addFolder h st folder = Normal st1).
    { destruct st as [store exampleMap]. unfold addFolder.
      destruct (exampleMap !! _); [|eexists; reflexivity].
      destruct (store !! _); [|eexists; reflexivity].
      destruct (negb _); [|eexists; reflexivity].
      unfold isExampleFolder.
      destruct (Hread folder (or_introl eq_refl)) as (items & ->).
      eexists; reflexivity. }
    destruct Hstep as (st1 & ->). apply IH.
    intros f Hf. apply Hread. right. exact Hf.
Qed.

(** *** From the store to the tree *)

Lemma length_reify objects base : length (reify objects base) = length objects.
Proof.
  revert base. induction objects as [|o objects IH]; intros base; [reflexivity|].
  cbn [reify length]. rewrite IH. reflexivity.
Qed.

Lemma nodeAt_In later base id n : nodeAt later base id = Some n -> In n later.
Proof.
  unfold nodeAt. destruct (Nat.ltb base id); [|discriminate].
  intros Hn. apply list_elem_of_In. eapply list_elem_of_lookup_2. exact Hn.
Qed.

Lemma reify_all_nodes_ok objects base :
  Forall object_ok objects -> Forall (all_nodes node_ok) (reify objects base).
Proof.
  revert base. induction objects as [|o objects IH]; intros base Hall; [constructor|].
  apply Forall_cons in Hall as [[Hleaf Hfolder] Hall]. cbn [reify].
  specialize (IH (S base) Hall). constructor; [|exact IH].
  constructor.
  - split; cbn [isLeaf children path]; [|exact Hfolder].
    intros Hl. rewrite (Hleaf Hl). reflexivity.
  - cbn [children]. apply List.Forall_forall. intros kid Hkid.
    apply list_elem_of_In, list_elem_of_omap in Hkid as (id & _ & Hid).
    rewrite List.Forall_forall in IH. apply IH. eapply nodeAt_In. exact Hid.
Qed.

Lemma rootChildren_all_nodes_ok store :
  store_ok store -> Forall (all_nodes node_ok) (rootChildren store).
Proof.
  intros Hok. unfold rootChildren. destruct store as [|root objects]; [constructor|].
  cbn [reify children].
  assert (Hlater : Forall (all_nodes node_ok) (reify objects 1)).
  { apply reify_all_nodes_ok. apply List.Forall_forall. intros o Ho.
    apply list_elem_of_In, list_elem_of_lookup in Ho as (i & Hi).
    apply (Hok (S i) o Hi). }
  apply List.Forall_forall. intros kid Hkid.
  apply list_elem_of_In, list_elem_of_omap in Hkid as (id & _ & Hid).
  rewrite List.Forall_forall in Hlater. apply Hlater. eapply nodeAt_In. exact Hid.
Qed.

Lemma Forall2_omap_total {A B} (P : A -> Prop) (Q : A -> B -> Prop)
      (f : A -> option B) (l : list A) :
  Forall P l -> (forall x, P x -> exists y, f x = Some y /\ Q x y) ->
  Forall2 Q l (omap f l).
Proof.
  intros Hl Hf. induction Hl as [|x l Hx Hl IH]; [constructor|].
  cbn. destruct (Hf x Hx) as (y & -> & Hq). constructor; assumption.
Qed.

Lemma Forall2_impl_Forall {A B} (P : A -> Prop) (Q Q' : A -> B -> Prop)
      (l : list A) (k : list B) :
  Forall P l -> Forall2 Q l k -> (forall x y, P x -> Q x y -> Q' x y) ->
  Forall2 Q' l k.
Proof.
  intros Hl Hq Himp. induction Hq as [|x y l k Hxy Hq IH]; [constructor|].
  apply Forall_cons in Hl as [Hx Hl]. constructor; auto.
Qed.

(** The tree of an object has one child per object it refers to: the
    tree of that object. Nothing is lost in reading the store as trees. *)
Lemma reify_children objects base :
  (forall i o, objects !! i = Some o ->
     Forall (fun id => base + i < id < base + length objects) (o_children o)) ->
  forall i o, objects !! i = Some o ->
    exists kids,
      reify objects base !! i = Some (mkNode (o_name o) (o_path o) (o_isLeaf o) kids)
      /\ Forall2 (fun id kid => reify objects base !! (id - base) = Some kid)
                 (o_children o) kids.
Proof.
  revert base. induction objects as [|o0 objects IH]; intros base Hwf i o Hi;
    [discriminate|].
  cbn [reify]. set (later := reify objects (S base)) in *.
  destruct i as [|i].
  - injection Hi as <-. eexists. split; [reflexivity|].
    apply (Forall2_omap_total _ _ _ _ (Hwf 0 o0 eq_refl)).
    intros id Hid. cbn [length] in Hid. unfold nodeAt.
    assert (Hlt : Nat.ltb base id = true) by (apply Nat.ltb_lt; lia). rewrite Hlt.
    destruct (later !! (id - S base)) as [kid|] eqn:Hkid.
    + exists kid. split; [reflexivity|].
      replace (id - base) with (S (id - S base)) by lia. exact Hkid.
    + apply lookup_ge_None in Hkid. unfold later in Hkid.
      rewrite length_reify in Hkid. lia.
  - cbn in Hi.
    assert (Hwf' : forall j o', objects !! j = Some o' ->
              Forall (fun id => S base + j < id < S base + length objects) (o_children o')).
    { intros j o' Hj. specialize (Hwf (S j) o' Hj). cbn [length] in Hwf.
      eapply Forall_impl; [exact Hwf|]. cbn beta. intros id Hid. lia. }
    destruct (IH (S base) Hwf' i o Hi) as (kids & Hnode & Hkids).
    exists kids. split; [exact Hnode|].
    eapply Forall2_impl_Forall; [exact (Hwf' i o Hi)|exact Hkids|].
    cbn beta. intros id kid Hid Hkid.
    replace (id - base) with (S (id - S base)) by lia. exact Hkid.
Qed.

(** In particular the trees returned are, one for one, the trees of the
    objects in the root's [children] array. *)
Lemma rootChildren_faithful store rootNode :
  store_ok store -> store !! 0 = Some rootNode ->
  Forall2 (fun id kid => reify store 0 !! id = Some kid)
          (o_children rootNode) (rootChildren store).
Proof.
  intros Hok Hroot.
  destruct (reify_children store 0) with (i := 0) (o := rootNode)
    as (kids & Hnode & Hkids); [|exact Hroot|].
  - intros i o Hi. destruct (Hok i o Hi) as [Hall _]. exact Hall.
  - unfold rootChildren. destruct (reify store 0) as [|r rest]; [discriminate|].
    cbn in Hnode. injection Hnode as ->. cbn [children].
    eapply Forall2_impl; [exact Hkids|]. cbn beta. intros id kid.
    rewrite Nat.sub_0_r. auto.
Qed.
End BuilderFacts.

(** C10. [parseExamples] returns when the root folder is absent, or
    when the glob result is not empty and its folders can be listed; and
    in every tree it returns, a node whose [isLeaf] flag is true has an
    empty [children] list, the flag being what [isExampleFolder] says of
    the node's path. *)
Theorem parseExamples_leaf_has_no_children (h : Host) (rootPath : string) :
  ((directoryExistsSync h rootPath = false
    \/ exists first rest,
         glob_sync h (path_join h [rootPath; "**/**/"]) = first :: rest
         /\ forall folder, In folder rest ->
              exists items, readdirSync h (path_resolve h folder) = Normal items) ->
   exists trees, parseExamples h rootPath = Normal trees)
  /\
  (forall trees, parseExamples h rootPath = Normal trees ->
   forall t n, In t trees -> inTree n t ->
     (isLeaf n = true -> children n = [])
     /\ isExampleFolder h (path n) = Normal (isLeaf n)).
Proof.
  unfold parseExamples. split.
  - intros [->|(first & rest & -> & Hread)]; [eexists; reflexivity|].
    destruct (negb _); [eexists; reflexivity|].
    destruct (addFolders_returns h rest
                ([mkObject "" "" false []], {[path_resolve h first := 0]}) Hread)
      as ([store exampleMap] & ->).
    eexists; reflexivity.
  - intros trees Hrun t n Ht Hn.
    assert (Hall : Forall (all_nodes (node_ok h)) trees).
    { destruct (negb _); [injection Hrun as <-; constructor|].
      destruct (glob_sync h _) as [|first rest]; [discriminate|].
      destruct (addFolders h rest _) as [[store exampleMap]|] eqn:Hloop; [|discriminate].
      injection Hrun as <-. apply rootChildren_all_nodes_ok.
      eapply addFolders_ok; [|exact Hloop].
      intros [|i] o; [|intros [=]]. intros [= <-]. split; [constructor|reflexivity]. }
    rewrite List.Forall_forall in Hall.
    exact (all_nodes_inTree _ n t Hn (Hall t Ht)).
Qed.

Lemma parseExamples_leaf_has_no_children_witness :
  children (mkNode "Sweep" "/home/lib/Servo/examples/Sweep" true []) = [].
Proof.
  exact (proj1 (proj2 (parseExamples_leaf_has_no_children Sample.host
                         "/home/lib/Servo/examples")
                  servoTree eq_refl
                  (mkNode "Sweep" "/home/lib/Servo/examples/Sweep" true [])
                  (mkNode "Sweep" "/home/lib/Servo/examples/Sweep" true [])
                  (or_intror (or_introl eq_refl)) (inTree_here _))
           eq_refl).
Defined.

(** *** Substrings and [indexOf] *)

(** [sub] occurs in [s]. *)
Definition occursIn (sub s : string) : Prop :=
  exists pre post, s = pre ++ sub ++ post.

Lemma startsWith_iff s p : startsWith s p = true <-> exists post, s = p ++ post.
Proof.
  revert s. induction p as [|a p IH]; intros s; cbn [startsWith String.append].
  - split; [intros _; exists s; reflexivity|reflexivity].
  - destruct s as [|b s].
    + split; [discriminate|intros (post & [=])].
    + rewrite andb_true_iff, Ascii.eqb_eq, IH. split.
      * intros (-> & post & ->). exists post. reflexivity.
      * intros (post & [= -> ->]). split; [reflexivity|exists post; reflexivity].
Qed.

Lemma indexOf_from_nonneg (i : Z) (s sub : string) :
  (0 <= i)%Z -> (0 <= indexOf_from i s sub)%Z <-> occursIn sub s.
Proof.
  revert i. induction s as [|c s IH]; intros i Hi; cbn [indexOf_from].
  - destruct (startsWith "" sub) eqn:Hs.
    + split; [intros _|intros _; exact Hi].
      apply startsWith_iff in Hs as (post & Hpost). exists "", post. exact Hpost.
    + split; [lia|]. intros (pre & post & Heq).
      destruct pre; [|discriminate]. cbn in Heq.
      assert (startsWith "" sub = true) by (apply startsWith_iff; exists post; exact Heq).
      congruence.
  - destruct (startsWith (String c s) sub) eqn:Hs.
    + split; [intros _|intros _; exact Hi].
      apply startsWith_iff in Hs as (post & Hpost). exists "", post. exact Hpost.
    + rewrite IH by lia. split.
      * intros (pre & post & ->). exists (String c pre), post. reflexivity.
      * intros (pre & post & Heq). destruct pre as [|c' pre].
        -- cbn in Heq.
           assert (startsWith (String c s) sub = true)
             by (apply startsWith_iff; exists post; exact Heq).
           congruence.
        -- cbn in Heq. injection Heq as _ ->. exists pre, post. reflexivity.
Qed.

Lemma indexOf_nonneg s sub : Z.leb 0 (indexOf s sub) = true <-> occursIn sub s.
Proof. rewrite Z.leb_le. apply indexOf_from_nonneg. lia. Qed.

Lemma nonempty_true s : nonempty s = true <-> s <> "".
Proof. destruct s; cbn; split; congruence. Qed.

(** [isSupported] spelled out. *)
Lemma isSupported_iff (currentBoard architectures : option string) :
  isSupported currentBoard architectures = true
  <-> exists a, architectures = Some a /\ a <> ""
                /\ match currentBoard with
                   | None => True
                   | Some targetArch => occursIn targetArch a \/ occursIn "*" a
                   end.
Proof.
  unfold isSupported. destruct architectures as [a|];
    [|split; [discriminate|intros (a & [=] & _)]].
  destruct (nonempty a) eqn:Ha; cbn [negb].
  - apply nonempty_true in Ha. destruct currentBoard as [targetArch|].
    + rewrite orb_true_iff, !indexOf_nonneg. split.
      * intros H. exists a. auto.
      * intros (a' & [= <-] & _ & H). exact H.
    + split; [intros _; exists a; auto|reflexivity].
  - split; [discriminate|]. intros (a' & [= <-] & Hne & _).
    apply nonempty_true in Hne. congruence.
Qed.

(** *** The library loop *)
Section ScanFacts.
Context (h : Host) (currentBoard : option string) (rootPath : string)
        (needParsingIncompatible : bool).

(** [entry] is what the loop pushes onto [examples] for [library]. *)
Definition compatibleEntry (library : string) (entry : LibraryExamples) : Prop :=
  fileExistsSync h (propertiesFileOf h rootPath library) = true
  /\ exists properties children,
       parseProperties h (propertiesFileOf h rootPath library) = Normal properties
       /\ parseExamples h (examplesPathOf h rootPath library) = Normal children
       /\ children <> []
       /\ isSupported currentBoard (property "architectures" properties) = true
       /\ entry = mkLibrary library (path_join h [rootPath; library]) children.

Lemma scanLibrary_examples examples inCompatibles library examples' inCompatibles' :
  scanLibrary h currentBoard rootPath needParsingIncompatible
              (examples, inCompatibles) library
  = Normal (examples', inCompatibles') ->
  forall e, In e examples' <-> In e examples \/ compatibleEntry library e.
Proof.
  unfold scanLibrary, compatibleEntry.
  destruct (fileExistsSync h (propertiesFileOf h rootPath library)).
  2:{ intros [= <- <-] e. split; [auto|]. intros [H|[[=] _]]. exact H. }
  destruct (parseProperties h _) as [properties|]; [|discriminate].
  destruct (parseExamples h _) as [children|]; [|discriminate].
  assert (Hskip : forall e,
            In e examples \/
            (true = true /\
             exists properties0 children0,
               Normal properties = Normal properties0
               /\ Normal children = Normal children0
               /\ children0 <> []
               /\ isSupported currentBoard (property "architectures" properties0) = true
               /\ e = mkLibrary library (path_join h [rootPath; library]) children0) ->
            isSupported currentBoard (property "architectures" properties) = false
            \/ children = [] ->
            In e examples).
  { intros e [H|(_ & p & c & [= <-] & [= <-] & Hne & Hsup & _)] Hno; [exact H|].
    destruct Hno; congruence. }
  destruct children as [|child children]; cbn [length Nat.eqb negb].
  { intros [= <- <-] e. split; [auto|]. intros H. apply (Hskip e H). auto. }
  destruct (isSupported currentBoard (property "architectures" properties)) eqn:Hsup.
  - intros [= <- <-] e. rewrite in_app_iff. cbn [In]. split.
    + intros [H|[<-|[]]]; [auto|]. right. split; [reflexivity|].
      exists properties, (child :: children). repeat split; [discriminate|exact Hsup].
    + intros [H|(_ & p & c & [= <-] & [= <-] & _ & _ & ->)]; auto.
  - destruct needParsingIncompatible; intros [= <- <-] e;
      (split; [auto|]); intros H; apply (Hskip e H); auto.
Qed.

Lemma scanLibraries_examples libraries examples inCompatibles examples' inCompatibles' :
  scanLibraries h currentBoard rootPath needParsingIncompatible libraries
                (examples, inCompatibles)
  = Normal (examples', inCompatibles') ->
  forall e, In e examples'
            <-> In e examples \/ exists library, In library libraries /\ compatibleEntry library e.
Proof.
  revert examples inCompatibles.
  induction libraries as [|library libraries IH]; intros examples inCompatibles;
    cbn [scanLibraries].
  - intros [= <- <-] e. split; [auto|]. intros [H|(l & [] & _)]. exact H.
  - destruct (scanLibrary h currentBoard rootPath needParsingIncompatible
                (examples, inCompatibles) library) as [[ex1 inc1]|] eqn:Hstep;
      [|discriminate].
    intros Hrest e. rewrite (IH _ _ Hrest e), (scanLibrary_examples _ _ _ _ _ Hstep e).
    cbn [In]. split.
    + intros [[H|H]|(l & Hl & H)]; [auto|right; exists library; auto|].
      right. exists l. auto.
    + intros [H|(l & [<-|Hl] & H)]; [auto|auto|]. right. exists l. auto.
Qed.

Lemma scanLibraries_returns libraries st :
  (forall library, In library libraries ->
     fileExistsSync h (propertiesFileOf h rootPath library) = true ->
     (exists properties,
        parseProperties h (propertiesFileOf h rootPath library) = Normal properties)
     /\ (exists children,
           parseExamples h (examplesPathOf h rootPath library) = Normal children)) ->
  exists st', scanLibraries h currentBoard rootPath needParsingIncompatible libraries st
              = Normal st'.
Proof.
  revert st. induction libraries as [|library libraries IH]; intros st Hall;
    cbn [scanLibraries]; [eexists; reflexivity|].
  assert (Hstep : exists st1,
            scanLibrary h currentBoard rootPath needParsingIncompatible st library
            = Normal st1).
  { destruct st as [examples inCompatibles]. unfold scanLibrary.
    destruct (fileExistsSync h _) eqn:Hfile; [|eexists; reflexivity].
    destruct (Hall library (or_introl eq_refl) Hfile) as [(properties & ->) (children & ->)].
    destruct (negb _); [|eexists; reflexivity].
    destruct (isSupported _ _); [eexists; reflexivity|].
    destruct needParsingIncompatible; eexists; reflexivity. }
  destruct Hstep as (st1 & ->). apply IH.
  intros l Hl. apply Hall. right. exact Hl.
Qed.
End ScanFacts.

(** C6 (as stated) fails: with no board selected, the library Bare (its
    architectures field is the wildcard, it has no example folder) and
    the library Blank (with an example folder and an architectures field
    that is empty) both have an architectures field, and neither is
    listed as compatible. *)
Lemma libraries_with_architectures_not_listed :
  util_readdirSync Sample.host "/home/lib" true = Normal ["Servo"; "Bare"; "Blank"]
  /\ parseProperties Sample.host (propertiesFileOf Sample.host "/home/lib" "Bare")
     = Normal [("name", "Bare"); ("architectures", "*")]
  /\ parseProperties Sample.host (propertiesFileOf Sample.host "/home/lib" "Blank")
     = Normal [("name", "Blank"); ("architectures", "")]
  /\ parseExamples Sample.host (examplesPathOf Sample.host "/home/lib" "Bare") = Normal []
  /\ parseExamples Sample.host (examplesPathOf Sample.host "/home/lib" "Blank")
     = Normal blankTree
  /\ parseExamplesFromLibrary Sample.host None "/home/lib" false
     = Normal [Library (mkLibrary "Servo" "/home/lib/Servo" servoTree)]
  /\ parseExamplesFromLibrary Sample.host None "/home/lib" true
     = Normal [Library (mkLibrary "Servo" "/home/lib/Servo" servoTree);
               Group "INCOMPATIBLE" "INCOMPATIBLE"
                 [mkLibrary "Blank" "/home/lib/Blank" blankTree]].
Proof. repeat split; vm_compute; reflexivity. Qed.

End Examples.

(** ** The local web bridge ([ArduinoContentProvider.installPackage]) *)
Module WebBridge.
Import Js.

(** [req.body] of a POST to /api/installboard: each field is absent
    ([None]) or the JSON value sent. *)
Record Body := mkBody {
  packageName : option json;
  arch : option json;
  version : option json;
}.

(** What is sent back: [res.send(text)] or [res.json(object)]. *)
Inductive Payload : Type :=
| Text (text : string)
| Json (fields : list (string * string)).

Record Response := mkResponse {
  status : nat;
  payload : Payload;
}.

(** The value [installBoard] rejects with, by what the handler does with
    it: what the template holes [${error.code}] and [${error.stderr}]
    evaluate to. A hole gives a text (the text [undefined] for a field
    the value does not have) or throws: reading a field of [null] or
    [undefined] throws, and so does the conversion of a field that has
    no string form. *)
Record InstallError := mkInstallError {
  code : outcome string;
  stderr : outcome string;
}.

(** [null] and [undefined], of which no field can be read. *)
Definition nullish : InstallError := mkInstallError Throws Throws.

(** How the awaited [installBoard] call ends. *)
Inductive Completion : Type :=
| Resolved
| Rejected (error : InstallError).

(** A call of [this._arduinoApp.installBoard], by its arguments. *)
Definition Call : Type := (option json * option json * option json)%type.

Definition quote : string := String "034" EmptyString.

Definition badRequest : Response :=
  mkResponse 400 (Text "BAD Request! Missing { packageName, arch } parameters!").

Definition ok : Response := mkResponse 200 (Json [("status", "OK")]).

Definition installFailed (code stderr : string) : Response :=
  mkResponse 500
    (Text ("Install board failed with message " ++ quote ++ "code:" ++ code
           ++ ", err:" ++ stderr ++ quote)).

(** The [catch] block: the message is built from the two holes, in
    their order, and sent; a hole that throws leaves the handler without
    an answer. *)
Definition installPackage_catch (error : InstallError) : outcome Response :=
  match code error with
  | Throws => Throws
  | Normal c =>
      match stderr error with
      | Throws => Throws
      | Normal e => Normal (installFailed c e)
      end
  end.

(** [installPackage(req, res)]: the response sent, or the throw that
    ends the handler without one, and the calls of [installBoard] made
    on the way. *)
Definition installPackage (installBoard : Call -> Completion) (body : Body)
  : outcome Response * list Call :=
  if negb (truthy (packageName body)) || negb (truthy (arch body)) then
    (Normal badRequest, [])
  else
    let call := (packageName body, arch body, version body) in
    match installBoard call with
    | Resolved => (Normal ok, [call])
    | Rejected error => (installPackage_catch error, [call])
    end.

(** C7 (as amended). A request whose body lacks packageName or arch, or
    carries a falsy one (such as the empty string), is answered with
    status 400 and [installBoard] is not called; when both are present
    and truthy, [installBoard] is called once with them and the version,
    and the answer is the JSON object with status OK if the call
    succeeds, and status 500 with the message of the [catch] block if
    the call rejects with a value whose code and stderr the block can
    print. *)
Theorem installPackage_responses (installBoard : Call -> Completion) (body : Body) :
  (packageName body = None \/ arch body = None ->
   installPackage installBoard body = (Normal badRequest, []))
  /\ (truthy (packageName body) = false \/ truthy (arch body) = false ->
      installPackage installBoard body = (Normal badRequest, []))
  /\ (truthy (packageName body) = true -> truthy (arch body) = true ->
      let call := (packageName body, arch body, version body) in
      snd (installPackage installBoard body) = [call]
      /\ (installBoard call = Resolved ->
          fst (installPackage installBoard body) = Normal ok)
      /\ (forall error c e,
            installBoard call = Rejected error ->
            code error = Normal c -> stderr error = Normal e ->
            fst (installPackage installBoard body) = Normal (installFailed c e)
            /\ status (installFailed c e) = 500)).
Proof.
  unfold installPackage. split; [|split].
  - intros [-> | ->]; cbn [truthy negb orb]; [reflexivity|].
    rewrite orb_true_r. reflexivity.
  - intros [-> | ->]; cbn [negb orb]; [reflexivity|].
    rewrite orb_true_r. reflexivity.
  - intros -> ->. cbn [negb orb].
    destruct (installBoard _) as [|error]; cbn [fst snd].
    + split; [reflexivity|]. split; [reflexivity|discriminate].
    + split; [reflexivity|]. split; [discriminate|].
      intros error' c e [= <-] Hc He. unfold installPackage_catch. rewrite Hc, He.
      split; reflexivity.
Qed.

Lemma installPackage_responses_witness :
  installPackage (fun _ => Resolved) (mkBody None (Some (JStr "avr")) None)
  = (Normal badRequest, [])
  /\ fst (installPackage (fun _ => Resolved)
            (mkBody (Some (JStr "arduino")) (Some (JStr "avr")) None)) = Normal ok
  /\ fst (installPackage
            (fun _ => Rejected (mkInstallError (Normal "1") (Normal "no network")))
            (mkBody (Some (JStr "arduino")) (Some (JStr "avr")) None))
     = Normal (installFailed "1" "no network").
Proof.
  split; [|split].
  - exact (proj1 (installPackage_responses (fun _ => Resolved)
                    (mkBody None (Some (JStr "avr")) None))
             (or_introl eq_refl)).
  - exact (proj1 (proj2 (proj2 (proj2 (installPackage_responses (fun _ => Resolved)
                    (mkBody (Some (JStr "arduino")) (Some (JStr "avr")) None)))
             eq_refl eq_refl)) eq_refl).
  - exact (proj1 (proj2 (proj2 (proj2 (proj2 (installPackage_responses
                    (fun _ => Rejected (mkInstallError (Normal "1") (Normal "no network")))
                    (mkBody (Some (JStr "arduino")) (Some (JStr "avr")) None)))
             eq_refl eq_refl))
             (mkInstallError (Normal "1") (Normal "no network")) "1" "no network"
             eq_refl eq_refl eq_refl)).
Defined.

(** C7 (as stated) fails: a body in which packageName (the empty string)
    and arch are both present, and an [installBoard] that would succeed:
    the answer is status 400, not the JSON object, and [installBoard] is
    not called. *)
Lemma empty_packageName_is_bad_request :
  let body := mkBody (Some (JStr "")) (Some (JStr "avr")) (Some (JStr "1.6.17")) in
  packageName body <> None /\ arch body <> None
  /\ installPackage (fun _ => Resolved) body = (Normal badRequest, [])
  /\ fst (installPackage (fun _ => Resolved) body) <> Normal ok.
Proof. cbv zeta. repeat split; discriminate. Qed.

(** When [installBoard] rejects with [null] or [undefined], the [catch]
    block throws in its turn and nothing is sent. *)
Example installPackage_nullish_rejection :
  installPackage (fun _ => Rejected nullish)
    (mkBody (Some (JStr "arduino")) (Some (JStr "avr")) None)
  = (Throws, [(Some (JStr "arduino"), Some (JStr "avr"), None)]).
Proof. reflexivity. Qed.

End WebBridge.

(** ** More about the board descriptor parser *)
Module DescriptorProperties.
Import Js BoardDescriptor.

Lemma append_assoc (a b c : string) : (a ++ b) ++ c = a ++ b ++ c.
Proof. induction a as [|ch a IH]; simpl; [reflexivity|]. rewrite IH. reflexivity. Qed.

(** *** What a match of [boardLineRegex] is made of *)
Section MatcherSound.
Context {R : Type}.

Lemma re_plus_sound c s (k : string -> string -> option R) r :
  re_plus c s k = Some r ->
  exists g rest,
    s = g ++ rest /\ nonempty g = true /\ string_forall c g = true /\ k g rest = Some r.
Proof.
  revert k. induction s as [|ch s IH]; intros k; cbn [re_plus]; [discriminate|].
  destruct (c ch) eqn:Hc; [|discriminate].
  destruct (re_plus c s (fun g rest => k (String ch g) rest)) as [r'|] eqn:Hlong.
  - intros [= ->]. destruct (IH _ Hlong) as (g & rest & -> & _ & Hall & Hk).
    exists (String ch g), rest. cbn. rewrite Hc, Hall. auto.
  - intros Hk. exists (String ch EmptyString), s. cbn. rewrite Hc. auto.
Qed.

Lemma re_char_sound a s (k : string -> option R) r :
  re_char a s k = Some r -> exists rest, s = String a rest /\ k rest = Some r.
Proof.
  destruct s as [|ch s]; cbn [re_char]; [discriminate|].
  destruct (Ascii.eqb ch a) eqn:Ha; [|discriminate].
  apply Ascii.eqb_eq in Ha. subst ch. intros Hk. exists s. auto.
Qed.
End MatcherSound.

(** The three groups with the text between and around them. *)
Definition matched (line m1 m2 m3 : string) : Prop :=
  (exists pre post, line = pre ++ m1 ++ "." ++ m2 ++ "=" ++ m3 ++ post)
  /\ nonempty m1 = true /\ string_forall notDot m1 = true
  /\ nonempty m2 = true /\ string_forall nonSpace m2 = true
  /\ nonempty m3 = true /\ string_forall anyChar m3 = true.

Lemma boardLineRegex_at_sound s m1 m2 m3 :
  boardLineRegex_at s = Some (m1, m2, m3) ->
  (exists post, s = m1 ++ "." ++ m2 ++ "=" ++ m3 ++ post)
  /\ nonempty m1 = true /\ string_forall notDot m1 = true
  /\ nonempty m2 = true /\ string_forall nonSpace m2 = true
  /\ nonempty m3 = true /\ string_forall anyChar m3 = true.
Proof.
  unfold boardLineRegex_at. intros H.
  apply re_plus_sound in H as (g1 & r1 & -> & Hn1 & Ha1 & H).
  apply re_char_sound in H as (r2 & -> & H).
  apply re_plus_sound in H as (g2 & r3 & -> & Hn2 & Ha2 & H).
  apply re_char_sound in H as (r4 & -> & H).
  apply re_plus_sound in H as (g3 & post & -> & Hn3 & Ha3 & H).
  injection H as <- <- <-.
  split; [|auto 10]. exists post. reflexivity.
Qed.

Lemma boardLineRegex_exec_matched line m1 m2 m3 :
  boardLineRegex_exec line = Some (m1, m2, m3) -> matched line m1 m2 m3.
Proof.
  induction line as [|ch line IH]; cbn [boardLineRegex_exec].
  - destruct (boardLineRegex_at "") as [[[a b] c]|] eqn:Hat; [|discriminate].
    intros [= -> -> ->]. apply boardLineRegex_at_sound in Hat as ((post & Hpost) & Hrest).
    split; [|exact Hrest]. exists "", post. exact Hpost.
  - destruct (boardLineRegex_at (String ch line)) as [[[a b] c]|] eqn:Hat.
    + intros [= -> -> ->]. apply boardLineRegex_at_sound in Hat as ((post & Hpost) & Hrest).
      split; [|exact Hrest]. exists "", post. exact Hpost.
    + intros H. destruct (IH H) as ((pre & post & ->) & Hrest).
      split; [|exact Hrest]. exists (String ch pre), post. reflexivity.
Qed.

(** X1. Whatever [boardLineRegex.exec] returns for a line is a genuine
    reading of it: the line holds the first group, a dot, the second
    group, an equals sign and the third group in a row; the first group
    is not empty and has no dot, the second is not empty and has no white
    space, the third is not empty and has no line break. *)
Theorem boardLineRegex_match_is_sound (line m1 m2 m3 : string) :
  boardLineRegex_exec line = Some (m1, m2, m3) ->
  (exists pre post, line = pre ++ m1 ++ "." ++ m2 ++ "=" ++ m3 ++ post)
  /\ nonempty m1 = true /\ string_forall notDot m1 = true
  /\ nonempty m2 = true /\ string_forall nonSpace m2 = true
  /\ nonempty m3 = true /\ string_forall anyChar m3 = true.
Proof. apply boardLineRegex_exec_matched. Qed.

Lemma boardLineRegex_match_is_sound_witness :
  (exists pre post,
      "x.y z.w=v" = pre ++ "y z" ++ "." ++ "w" ++ "=" ++ "v" ++ post)
  /\ nonempty "y z" = true /\ string_forall notDot "y z" = true
  /\ nonempty "w" = true /\ string_forall nonSpace "w" = true
  /\ nonempty "v" = true /\ string_forall anyChar "v" = true.
Proof. exact (boardLineRegex_match_is_sound "x.y z.w=v" "y z" "w" "v" eq_refl). Defined.

(** *** Lines and separators *)

Definition noSeparator (ch : ascii) : bool := negb (isSeparator ch).

Fixpoint dropSeparators (s : string) : string :=
  match s with
  | EmptyString => EmptyString
  | String ch s' => if isSeparator ch then dropSeparators s' else String ch (dropSeparators s')
  end.

Fixpoint countSeparators (s : string) : nat :=
  match s with
  | EmptyString => 0
  | String ch s' => if isSeparator ch then S (countSeparators s') else countSeparators s'
  end.

Lemma split_cons_nonsep ch text :
  isSeparator ch = false ->
  exists l ls, split text = l :: ls /\ split (String ch text) = String ch l :: ls.
Proof.
  intros Hsep. cbn [split]. rewrite Hsep.
  destruct (split text) as [|l ls] eqn:Hs; [destruct (split_nonempty text Hs)|].
  exists l, ls. auto.
Qed.

Lemma split_facts (text : string) :
  length (split text) = S (countSeparators text)
  /\ Forall (fun line => string_forall noSeparator line = true) (split text)
  /\ String.concat "" (split text) = dropSeparators text.
Proof.
  induction text as [|ch text (IHlen & IHall & IHcat)].
  - split; [reflexivity|]. split; [repeat constructor|reflexivity].
  - destruct (isSeparator ch) eqn:Hsep.
    + cbn [split countSeparators dropSeparators]. rewrite Hsep.
      split; [cbn [length]; rewrite IHlen; reflexivity|].
      split; [constructor; [reflexivity|exact IHall]|].
      rewrite <- IHcat. destruct (split text) as [|l ls] eqn:Hs;
        [destruct (split_nonempty text Hs)|].
      reflexivity.
    + destruct (split_cons_nonsep ch text Hsep) as (l & ls & Hs & ->).
      cbn [countSeparators dropSeparators]. rewrite Hsep, Hs in *.
      split; [exact IHlen|]. apply Forall_cons in IHall as [Hl Hls].
      split.
      * constructor; [|exact Hls]. cbn [string_forall]. unfold noSeparator at 1.
        rewrite Hsep, Hl. reflexivity.
      * rewrite <- IHcat. destruct ls; reflexivity.
Qed.

(** X2. [split(/[\r|\r\n|\n]/)] cuts the descriptor at every carriage
    return, line feed and bar: there is one line more than there are
    such characters, no line holds one of them, and the lines put
    together are the text without them. *)
Theorem split_cuts_at_every_separator (text : string) :
  length (split text) = S (countSeparators text)
  /\ Forall (fun line => string_forall noSeparator line = true) (split text)
  /\ String.concat "" (split text) = dropSeparators text.
Proof. apply split_facts. Qed.

Lemma split_lines_noSeparator text line :
  In line (split text) -> string_forall noSeparator line = true.
Proof.
  intros Hin. destruct (split_facts text) as (_ & Hall & _).
  rewrite List.Forall_forall in Hall. apply Hall, Hin.
Qed.

(** *** Trimmed names *)

(** Neither the first nor the last character is white space. *)
Definition unpadded (n : string) : Prop :=
  (forall c t, n = String c t -> isWhiteSpace c = false)
  /\ (forall t c, n = t ++ String c "" -> isWhiteSpace c = false).

Lemma trimStart_head s c t : trimStart s = String c t -> isWhiteSpace c = false.
Proof.
  induction s as [|ch s IH]; cbn [trimStart]; [discriminate|].
  destruct (isWhiteSpace ch) eqn:Hws; [exact IH|]. intros [= <- _]. exact Hws.
Qed.

Lemma trimEnd_head s c t : trimEnd s = String c t -> exists s', s = String c s'.
Proof.
  destruct s as [|ch s]; cbn [trimEnd]; [discriminate|].
  destruct (trimEnd s); [destruct (isWhiteSpace ch); [discriminate|]|];
    intros [= <- _]; eexists; reflexivity.
Qed.

Lemma trimEnd_last s t c : trimEnd s = t ++ String c "" -> isWhiteSpace c = false.
Proof.
  revert t. induction s as [|ch s IH]; intros t; cbn [trimEnd].
  - destruct t; discriminate.
  - destruct (trimEnd s) as [|a u] eqn:Hs.
    + destruct (isWhiteSpace ch) eqn:Hws; [destruct t; discriminate|].
      destruct t as [|b t]; cbn; [intros [= <-]; exact Hws|].
      intros [= _ H]. destruct t; discriminate.
    + destruct t as [|b t]; cbn; [discriminate|].
      intros [= _ H]. apply (IH t). exact H.
Qed.

Lemma trim_unpadded s : unpadded (trim s).
Proof.
  unfold trim. split.
  - intros c t Heq. destruct (trimEnd_head _ _ _ Heq) as (s' & Hs').
    eapply trimStart_head. exact Hs'.
  - intros t c Heq. eapply trimEnd_last. exact Heq.
Qed.

(** *** The shape of the registry *)
Section Shape.
Context {Platform : Type}.
Implicit Types (plat : Platform) (result : gmap string (IBoard Platform)).

Definition parameter_ok (pk pv : string) : Prop :=
  nonempty pk = true /\ string_forall nonSpace pk = true /\ pk <> "name"
  /\ nonempty pv = true /\ string_forall noSeparator pv = true.

Definition board_shape (k : string) (b : IBoard Platform) : Prop :=
  nonempty k = true /\ string_forall notDot k = true
  /\ (forall n, name b = Some n -> unpadded n)
  /\ (forall pk pv, parameters b !! pk = Some pv -> parameter_ok pk pv).

Definition registry_shape result : Prop :=
  forall k b, result !! k = Some b -> board_shape k b.

Lemma string_forall_app_l c a b :
  string_forall c (a ++ b) = true -> string_forall c a = true.
Proof. rewrite string_forall_app. intros [H _]%andb_true_iff. exact H. Qed.

Lemma string_forall_app_r c a b :
  string_forall c (a ++ b) = true -> string_forall c b = true.
Proof. rewrite string_forall_app. intros [_ H]%andb_true_iff. exact H. Qed.

Lemma matched_value_noSeparator line m1 m2 m3 :
  string_forall noSeparator line = true -> matched line m1 m2 m3 ->
  string_forall noSeparator m3 = true.
Proof.
  intros Hline ((pre & post & ->) & _).
  apply string_forall_app_r in Hline. apply string_forall_app_r in Hline.
  cbn [String.append string_forall] in Hline. apply andb_true_iff in Hline as [_ Hline].
  apply string_forall_app_r in Hline.
  cbn [String.append string_forall] in Hline. apply andb_true_iff in Hline as [_ Hline].
  eapply string_forall_app_l. exact Hline.
Qed.

Lemma processLine_shape plat result line :
  string_forall noSeparator line = true ->
  registry_shape result -> registry_shape (processLine plat result line).
Proof.
  intros Hline Hok. unfold processLine.
  destruct (startsWith line "#" || startsWith line "menu."); [exact Hok|].
  destruct (boardLineRegex_exec line) as [[[m1 m2] m3]|] eqn:Hexec; [|exact Hok].
  pose proof (boardLineRegex_exec_matched _ _ _ _ Hexec) as Hm.
  pose proof (matched_value_noSeparator _ _ _ _ Hline Hm) as Hv.
  destruct Hm as (_ & Hn1 & Hd1 & Hn2 & Hs2 & Hn3 & _).
  intros k b. rewrite lookup_insert. case_decide as Hk; [|apply Hok].
  intros [= <-]. subst k.
  assert (Hold : (forall n, name (boardObjectFor plat result m1) = Some n -> unpadded n)
                 /\ (forall pk pv, parameters (boardObjectFor plat result m1) !! pk = Some pv ->
                                   parameter_ok pk pv)).
  { unfold boardObjectFor. destruct (result !! m1) as [b0|] eqn:Hb0.
    - destruct (Hok _ _ Hb0) as (_ & _ & H1 & H2). auto.
    - cbn. split; [discriminate|]. intros pk pv. rewrite lookup_empty. discriminate. }
  destruct Hold as [Hname Hparams].
  split; [exact Hn1|]. split; [exact Hd1|].
  unfold applyMatch. destruct (String.eqb m2 "name") eqn:Hname2; cbn.
  - split; [|exact Hparams]. intros n [= <-]. apply trim_unpadded.
  - split; [exact Hname|]. intros pk pv. rewrite lookup_insert.
    case_decide as Hpk; [|apply Hparams].
    intros [= <-]. subst pk. apply String.eqb_neq in Hname2.
    unfold parameter_ok. auto.
Qed.

Lemma parse_shape plat text : registry_shape (parseBoardDescriptorFile text plat).
Proof.
  unfold parseBoardDescriptorFile, parseLines.
  assert (Hlines : Forall (fun line => string_forall noSeparator line = true) (split text))
    by apply split_facts.
  assert (Hempty : registry_shape (∅ : gmap string (IBoard Platform))).
  { intros k b. rewrite lookup_empty. discriminate. }
  revert Hempty. generalize (∅ : gmap string (IBoard Platform)) as result.
  induction Hlines as [|line lines Hline _ IH]; intros result Hok; [exact Hok|].
  cbn [fold_left]. apply IH. apply processLine_shape; assumption.
Qed.
End Shape.

(** X3. In the registry returned for any descriptor, every board key is
    non-empty and dot-free, and a display name, where set, neither
    starts nor ends with white space. *)
Theorem registry_keys_are_dot_free_and_names_trimmed {Platform} (plat : Platform)
        (text k : string) (b : IBoard Platform) :
  parseBoardDescriptorFile text plat !! k = Some b ->
  nonempty k = true /\ string_forall notDot k = true
  /\ forall n, name b = Some n ->
       (forall c t, n = String c t -> isWhiteSpace c = false)
       /\ (forall t c, n = t ++ String c "" -> isWhiteSpace c = false).
Proof.
  intros Hb. destruct (parse_shape plat text k b Hb) as (H1 & H2 & H3 & _). auto.
Qed.

Lemma registry_keys_are_dot_free_and_names_trimmed_witness :
  nonempty "uno" = true /\ string_forall notDot "uno" = true
  /\ forall n, Some "Arduino Uno" = Some n ->
       (forall c t, n = String c t -> isWhiteSpace c = false)
       /\ (forall t c, n = t ++ String c "" -> isWhiteSpace c = false).
Proof.
  exact (registry_keys_are_dot_free_and_names_trimmed tt "uno.name= Arduino Uno " "uno"
           (mkBoard "uno" tt (Some "Arduino Uno") ∅) eq_refl).
Defined.

(** X4. In the registry returned for any descriptor, the [name] suffix
    never lands in a board's parameters; every parameter key is
    non-empty and free of white space, and every parameter value is
    non-empty and holds no carriage return, line feed or bar. *)
Theorem registry_parameters_are_well_formed {Platform} (plat : Platform)
        (text k : string) (b : IBoard Platform) (pk pv : string) :
  parseBoardDescriptorFile text plat !! k = Some b ->
  parameters b !! pk = Some pv ->
  pk <> "name" /\ nonempty pk = true /\ string_forall nonSpace pk = true
  /\ nonempty pv = true /\ string_forall noSeparator pv = true.
Proof.
  intros Hb Hp. destruct (parse_shape plat text k b Hb) as (_ & _ & _ & H).
  destruct (H pk pv Hp) as (? & ? & ? & ? & ?). auto.
Qed.

Lemma registry_parameters_are_well_formed_witness :
  "build.mcu" <> "name" /\ nonempty "build.mcu" = true
  /\ string_forall nonSpace "build.mcu" = true
  /\ nonempty "atmega328p" = true /\ string_forall noSeparator "atmega328p" = true.
Proof.
  exact (registry_parameters_are_well_formed tt "uno.build.mcu=atmega328p" "uno"
           (mkBoard "uno" tt None {["build.mcu" := "atmega328p"]})
           "build.mcu" "atmega328p" eq_refl eq_refl).
Defined.

(** *** Which lines reach which board *)

(** [sub] occurs in [s]. *)
Definition within (sub s : string) : Prop :=
  exists pre post, s = pre ++ sub ++ post.

Section Reach.
Context {Platform : Type}.
Implicit Types (plat : Platform) (result : gmap string (IBoard Platform)).

(** The line is taken up by the parser and matched with first group [k]. *)
Definition touches (line k : string) : bool :=
  negb (startsWith line "#" || startsWith line "menu.")
  && match boardLineRegex_exec line with
     | Some (m1, _, _) => String.eqb m1 k
     | None => false
     end.

Lemma touches_reach line k :
  touches line k = true ->
  startsWith line "#" = false /\ startsWith line "menu." = false
  /\ within (k ++ ".") line.
Proof.
  unfold touches. intros [Hskip Hexec]%andb_true_iff.
  apply negb_true_iff, orb_false_iff in Hskip as [Hhash Hmenu].
  split; [exact Hhash|]. split; [exact Hmenu|].
  destruct (boardLineRegex_exec line) as [[[m1 m2] m3]|] eqn:Hm; [|discriminate].
  apply String.eqb_eq in Hexec. subst m1.
  apply boardLineRegex_exec_matched in Hm as ((pre & post & ->) & _).
  exists pre, (m2 ++ "=" ++ m3 ++ post). rewrite append_assoc. reflexivity.
Qed.

Lemma processLine_not_touched plat result line k :
  touches line k = false -> processLine plat result line !! k = result !! k.
Proof.
  unfold touches, processLine.
  destruct (startsWith line "#" || startsWith line "menu."); [reflexivity|].
  destruct (boardLineRegex_exec line) as [[[m1 m2] m3]|]; [|reflexivity].
  cbn [negb andb]. intros Hne%String.eqb_neq. apply lookup_insert_ne. exact Hne.
Qed.

Lemma processLine_untouched plat result line k :
  ~ within (k ++ ".") line -> processLine plat result line !! k = result !! k.
Proof.
  intros Hnot. apply processLine_not_touched.
  destruct (touches line k) eqn:Ht; [|reflexivity].
  apply touches_reach in Ht as (_ & _ & H). contradiction.
Qed.

Lemma fold_processLine_untouched plat lines result k :
  (forall l, In l lines -> ~ within (k ++ ".") l) ->
  fold_left (processLine plat) lines result !! k = result !! k.
Proof.
  revert result. induction lines as [|l lines IH]; intros result Hnot; [reflexivity|].
  cbn [fold_left]. rewrite IH by (intros l' Hl'; apply Hnot; right; exact Hl').
  apply processLine_untouched. apply Hnot. left. reflexivity.
Qed.

Lemma fold_processLine_origin plat lines result k :
  fold_left (processLine plat) lines result !! k <> result !! k ->
  exists line, In line lines
               /\ startsWith line "#" = false /\ startsWith line "menu." = false
               /\ within (k ++ ".") line.
Proof.
  revert result. induction lines as [|l lines IH]; intros result Hne;
    [exfalso; apply Hne; reflexivity|].
  cbn [fold_left] in Hne.
  destruct (touches l k) eqn:Ht.
  - exists l. split; [left; reflexivity|]. apply touches_reach. exact Ht.
  - rewrite <- (processLine_not_touched plat result l k Ht) in Hne.
    destruct (IH _ Hne) as (line & Hin & H).
    exists line. split; [right; exact Hin|exact H].
Qed.
End Reach.

(** X5. A board is in the registry only if some line of the descriptor
    that is neither a comment nor a menu line holds the board's key
    followed by a dot. *)
Theorem registered_board_stems_from_a_line {Platform} (plat : Platform)
        (text k : string) (b : IBoard Platform) :
  parseBoardDescriptorFile text plat !! k = Some b ->
  exists line, In line (split text)
               /\ startsWith line "#" = false /\ startsWith line "menu." = false
               /\ exists pre post, line = pre ++ (k ++ ".") ++ post.
Proof.
  intros Hb. apply (fold_processLine_origin plat (split text) ∅ k).
  unfold parseBoardDescriptorFile, parseLines in Hb. rewrite Hb, lookup_empty. discriminate.
Qed.

Lemma registered_board_stems_from_a_line_witness :
  exists line, In line (split "uno.name= Arduino Uno ")
               /\ startsWith line "#" = false /\ startsWith line "menu." = false
               /\ exists pre post, line = pre ++ ("uno" ++ ".") ++ post.
Proof.
  exact (registered_board_stems_from_a_line tt "uno.name= Arduino Uno " "uno"
           (mkBoard "uno" tt (Some "Arduino Uno") ∅) eq_refl).
Defined.

(** X6. Take a piece of the descriptor, as [split] cuts it (at carriage
    returns, line feeds and bars), that reads [prefix.suffix=value],
    where the prefix is not empty, has no dot, does not start with [#]
    and is not [menu], the suffix is not empty and has no white space,
    and the value is not empty and has no equals sign in its first
    word. If no later piece holds the prefix followed by a dot, the
    registry returned has a board under the prefix, with the trimmed
    value as display name when the suffix is [name], and with the value
    under the suffix in its parameters otherwise. *)
Theorem line_value_kept_until_a_later_line {Platform} (plat : Platform)
        (text : string) (before after : list string) (p s v : string) :
  split text = (before ++ (p ++ "." ++ s ++ "=" ++ v)%string :: after)%list ->
  nonempty p = true -> string_forall notDot p = true ->
  startsWith p "#" = false -> String.eqb p "menu" = false ->
  nonempty s = true -> string_forall nonSpace s = true ->
  nonempty v = true ->
  string_forall notEquals (takeWhile nonSpace v) = true ->
  (forall l, In l after -> ~ exists pre post, l = pre ++ (p ++ ".") ++ post) ->
  exists b : IBoard Platform,
    parseBoardDescriptorFile text plat !! p = Some b
    /\ (s = "name" -> name b = Some (trim v))
    /\ (s <> "name" -> parameters b !! s = Some v).
Proof.
  intros Hsplit Hp Hpd Hhash Hmenu Hs Hss Hv Hveq Hafter.
  assert (Hva : string_forall anyChar v = true).
  { assert (Hline : string_forall anyChar (p ++ "." ++ s ++ "=" ++ v) = true).
    { apply (split_lines_anyChar text). rewrite Hsplit.
      apply in_or_app. right. left. reflexivity. }
    apply string_forall_app_r in Hline.
    cbn [String.append string_forall] in Hline. apply andb_true_iff in Hline as [_ Hline].
    apply string_forall_app_r in Hline.
    cbn [String.append string_forall] in Hline. apply andb_true_iff in Hline as [_ Hline].
    exact Hline. }
  unfold parseBoardDescriptorFile, parseLines. rewrite Hsplit, fold_left_app.
  cbn [fold_left]. rewrite (fold_processLine_untouched plat after _ p Hafter).
  rewrite processLine_match by assumption. rewrite lookup_insert_eq.
  eexists. split; [reflexivity|]. unfold applyMatch.
  destruct (String.eqb s "name") eqn:Hname.
  - split; [reflexivity|]. apply String.eqb_eq in Hname. congruence.
  - apply String.eqb_neq in Hname. split; [congruence|].
    intros _. cbn. apply lookup_insert_eq.
Qed.

Lemma line_value_kept_until_a_later_line_witness :
  exists b : IBoard unit,
    parseBoardDescriptorFile sampleDescriptor tt !! "uno" = Some b
    /\ ("build.mcu" = "name" -> name b = Some (trim "atmega328p"))
    /\ ("build.mcu" <> "name" -> parameters b !! "build.mcu" = Some "atmega328p").
Proof.
  refine (line_value_kept_until_a_later_line tt sampleDescriptor
            ["# boards"; "uno.name= Arduino Uno "] [] "uno" "build.mcu" "atmega328p"
            eq_refl eq_refl eq_refl eq_refl eq_refl eq_refl eq_refl eq_refl eq_refl _).
  intros l [].
Defined.

(** *** The lines of the text *)

(** [s] is empty or ends with a line break: a line may start after it. *)
Fixpoint endsWithBreak (s : string) : bool :=
  match s with
  | EmptyString => true
  | String ch s' =>
      match s' with
      | EmptyString => isLineTerminator ch
      | String _ _ => endsWithBreak s'
      end
  end.

(** [s] is empty or begins with a line break: a line may end before it. *)
Definition beginsWithBreak (s : string) : bool :=
  match s with
  | EmptyString => true
  | String ch _ => isLineTerminator ch
  end.

Lemma lineTerminator_separator ch : isLineTerminator ch = true -> isSeparator ch = true.
Proof.
  destruct ch as [[] [] [] [] [] [] [] []]; vm_compute; intros H;
    first [reflexivity | discriminate H].
Qed.

Lemma endsWithBreak_inv s :
  endsWithBreak s = true ->
  s = "" \/ exists s' ch, s = s' ++ String ch "" /\ isSeparator ch = true.
Proof.
  induction s as [|c s IH]; [left; reflexivity|]. intros H. right.
  destruct s as [|c' s].
  - exists "", c. split; [reflexivity|]. apply lineTerminator_separator. exact H.
  - destruct (IH H) as [Hs|(s' & ch & Hs & Hch)]; [discriminate Hs|].
    exists (String c s'), ch. rewrite Hs. split; [reflexivity|exact Hch].
Qed.

Lemma split_app_sep a ch b :
  isSeparator ch = true -> split (a ++ String ch b) = (split a ++ split b)%list.
Proof.
  intros Hch. induction a as [|c a IH]; cbn [String.append split app].
  - rewrite Hch. reflexivity.
  - rewrite IH. destruct (isSeparator c); [reflexivity|].
    destruct (split a) as [|l ls] eqn:Hs; [destruct (split_nonempty a Hs)|]. reflexivity.
Qed.

Lemma split_noSeparator x : string_forall noSeparator x = true -> split x = [x].
Proof.
  induction x as [|c x IH]; cbn [string_forall split]; [reflexivity|].
  intros [Hc Hx]%andb_true_iff. unfold noSeparator in Hc. apply negb_true_iff in Hc.
  rewrite Hc, (IH Hx). reflexivity.
Qed.

Lemma within_cons c l t : within l t -> within l (String c t).
Proof. intros (a & b & ->). exists (String c a), b. reflexivity. Qed.

Lemma within_trans a b c : within a b -> within b c -> within a c.
Proof.
  intros (p1 & q1 & ->) (p2 & q2 & ->). exists (p2 ++ p1), (q1 ++ q2).
  rewrite !append_assoc. reflexivity.
Qed.

Lemma split_head_prefix t l ls : split t = l :: ls -> exists rest, t = l ++ rest.
Proof.
  revert l ls. induction t as [|c t IH]; intros l ls; cbn [split].
  - intros [= <- <-]. exists "". reflexivity.
  - destruct (isSeparator c).
    + intros [= <- <-]. exists (String c t). reflexivity.
    + destruct (split t) as [|l0 ls0] eqn:Hs; [destruct (split_nonempty t Hs)|].
      intros [= <- <-]. destruct (IH l0 ls0 eq_refl) as (rest & Hrest).
      exists rest. cbn. rewrite <- Hrest. reflexivity.
Qed.

(** Every piece is a part of the text. *)
Lemma split_piece_within t l : In l (split t) -> within l t.
Proof.
  revert l. induction t as [|c t IH]; intros l; cbn [split].
  - intros [<-|[]]. exists "", "". reflexivity.
  - destruct (isSeparator c).
    + intros [<-|Hl]; [exists "", (String c t); reflexivity|].
      apply within_cons, IH, Hl.
    + destruct (split t) as [|l0 ls0] eqn:Hs; [destruct (split_nonempty t Hs)|].
      intros [<-|Hl].
      * destruct (split_head_prefix t l0 ls0 Hs) as (rest & Hrest).
        exists "", rest. cbn. rewrite <- Hrest. reflexivity.
      * apply within_cons, IH. right. exact Hl.
Qed.

(** A text between line breaks that holds no separator is a piece of
    its own, whatever it is; the pieces after it are parts of what
    follows it. *)
Lemma split_line pre post :
  endsWithBreak pre = true -> beginsWithBreak post = true ->
  exists before after,
    (forall l, In l after -> within l post)
    /\ forall x, string_forall noSeparator x = true ->
                 split (pre ++ x ++ post) = (before ++ x :: after)%list.
Proof.
  intros Hpre Hpost.
  assert (Hend : exists after,
             (forall l, In l after -> within l post)
             /\ forall x, string_forall noSeparator x = true ->
                          split (x ++ post) = x :: after).
  { destruct post as [|ch post].
    - exists []. split; [intros l []|]. intros x Hx.
      rewrite append_nil_r. apply split_noSeparator. exact Hx.
    - exists (split post). split.
      + intros l Hl. apply within_cons, split_piece_within, Hl.
      + intros x Hx.
        rewrite (split_app_sep x ch post (lineTerminator_separator ch Hpost)).
        rewrite (split_noSeparator x Hx). reflexivity. }
  destruct Hend as (after & Hafter & Hsplit).
  destruct (endsWithBreak_inv pre Hpre) as [->|(pre' & ch & -> & Hch)].
  - exists [], after. split; [exact Hafter|]. intros x Hx. exact (Hsplit x Hx).
  - exists (split pre'), after. split; [exact Hafter|]. intros x Hx.
    rewrite append_assoc. cbn [String.append].
    rewrite (split_app_sep pre' ch _ Hch), (Hsplit x Hx). reflexivity.
Qed.

Lemma noSeparator_anyChar x :
  string_forall noSeparator x = true -> string_forall anyChar x = true.
Proof.
  induction x as [|c x IH]; cbn [string_forall]; [reflexivity|].
  intros [Hc Hx]%andb_true_iff. unfold noSeparator in Hc. apply negb_true_iff in Hc.
  rewrite (not_separator_anyChar c Hc), (IH Hx). reflexivity.
Qed.

Section Kept.
Context {Platform : Type}.
Implicit Types (plat : Platform) (result : gmap string (IBoard Platform)).

(** The registry holds what a line [p.s=v] sets. *)
Definition holds result (p s v : string) : Prop :=
  exists b, result !! p = Some b
            /\ (s = "name" -> name b = Some (trim v))
            /\ (s <> "name" -> parameters b !! s = Some v).

Lemma processLine_keeps plat result line p s v :
  holds result p s v -> ~ within (p ++ "." ++ s ++ "=") line ->
  holds (processLine plat result line) p s v.
Proof.
  intros (b & Hb & Hname & Hparam) Hnot. unfold processLine.
  destruct (startsWith line "#" || startsWith line "menu."); [exists b; auto|].
  destruct (boardLineRegex_exec line) as [[[m1 m2] m3]|] eqn:Hm; [|exists b; auto].
  destruct (String.eqb_spec m1 p) as [->|Hne].
  2:{ exists b. rewrite lookup_insert_ne by exact Hne. auto. }
  assert (Hm2 : m2 <> s).
  { intros ->. apply Hnot.
    apply boardLineRegex_exec_matched in Hm as ((pre & post & ->) & _).
    exists pre, (m3 ++ post). rewrite !append_assoc. reflexivity. }
  unfold holds, boardObjectFor. rewrite Hb, lookup_insert_eq.
  eexists. split; [reflexivity|].
  unfold applyMatch. destruct (String.eqb_spec m2 "name") as [->|Hn]; cbn.
  - split; [intros ->; contradiction|exact Hparam].
  - split; [exact Hname|]. intros Hs. rewrite lookup_insert_ne by exact Hm2. auto.
Qed.

Lemma fold_processLine_keeps plat lines result p s v :
  holds result p s v ->
  (forall l, In l lines -> ~ within (p ++ "." ++ s ++ "=") l) ->
  holds (fold_left (processLine plat) lines result) p s v.
Proof.
  revert result. induction lines as [|l lines IH]; intros result Hh Hnot; [exact Hh|].
  cbn [fold_left]. apply IH.
  - apply processLine_keeps; [exact Hh|]. apply Hnot. left. reflexivity.
  - intros l' Hl'. apply Hnot. right. exact Hl'.
Qed.

Lemma processLine_empty plat result : processLine plat result "" = result.
Proof. reflexivity. Qed.
End Kept.

(** C3 (as amended). A line is a part of the descriptor between line
    breaks (or the ends of the text) that holds no carriage return, line
    feed or bar. A line that starts with [#] or with [menu.] contributes
    nothing: the registry returned is the one of the text without the
    line. A line [prefix.suffix=value], where the prefix is not empty,
    has neither dot nor equals sign, does not start with [#] and is not
    [menu], the suffix is not empty and has neither white space nor
    equals sign, and the value is not empty and has no equals sign in
    its first word, contributes to the board keyed by the prefix:
    unless the text after the line holds [prefix.suffix=] again, the
    registry returned has under the prefix a board of that key and of
    the platform given, with the trimmed value as display name when the
    suffix is [name], and with the untrimmed value under the suffix in
    its parameters otherwise. *)
Theorem descriptor_line_contribution {Platform} (plat : Platform)
        (pre line post : string) :
  endsWithBreak pre = true -> beginsWithBreak post = true ->
  string_forall noSeparator line = true ->
  (startsWith line "#" = true \/ startsWith line "menu." = true ->
   parseBoardDescriptorFile (pre ++ line ++ post) plat
   = parseBoardDescriptorFile (pre ++ post) plat)
  /\ (forall p s v : string,
        line = p ++ "." ++ s ++ "=" ++ v ->
        nonempty p = true -> string_forall notDot p = true ->
        string_forall notEquals p = true ->
        startsWith p "#" = false -> String.eqb p "menu" = false ->
        nonempty s = true -> string_forall nonSpace s = true ->
        string_forall notEquals s = true ->
        nonempty v = true ->
        string_forall notEquals (takeWhile nonSpace v) = true ->
        Z.ltb (indexOf post (p ++ "." ++ s ++ "=")) 0 = true ->
        exists b : IBoard Platform,
          parseBoardDescriptorFile (pre ++ line ++ post) plat !! p = Some b
          /\ board b = p /\ platform b = plat
          /\ (s = "name" -> name b = Some (trim v))
          /\ (s <> "name" -> parameters b !! s = Some v)).
Proof.
  intros Hpre Hpost Hline.
  destruct (split_line pre post Hpre Hpost) as (before & after & Hafter & Hsplit).
  unfold parseBoardDescriptorFile, parseLines. split.
  - intros Hskip. rewrite (Hsplit line Hline).
    change (pre ++ post) with (pre ++ "" ++ post). rewrite (Hsplit "" eq_refl).
    rewrite !fold_left_app. cbn [fold_left]. f_equal.
    destruct Hskip as [Hhash|Hmenu].
    + apply processLine_comment. exact Hhash.
    + apply processLine_menu. exact Hmenu.
  - intros p s v -> Hp Hpd Hpe Hhash Hmenu Hs Hss Hse Hv Hveq Hlater.
    assert (Hva : string_forall anyChar v = true).
    { apply noSeparator_anyChar in Hline.
      apply string_forall_app_r in Hline.
      cbn [String.append string_forall] in Hline. apply andb_true_iff in Hline as [_ Hline].
      apply string_forall_app_r in Hline.
      cbn [String.append string_forall] in Hline. apply andb_true_iff in Hline as [_ Hline].
      exact Hline. }
    assert (Hnot : forall l, In l after -> ~ within (p ++ "." ++ s ++ "=") l).
    { intros l Hl Hin.
      assert (Hocc : Examples.occursIn (p ++ "." ++ s ++ "=") post)
        by exact (within_trans _ _ _ Hin (Hafter l Hl)).
      apply Examples.indexOf_nonneg in Hocc. apply Z.leb_le in Hocc.
      apply Z.ltb_lt in Hlater. lia. }
    rewrite (Hsplit _ Hline), fold_left_app. cbn [fold_left].
    rewrite processLine_match by assumption.
    set (result := fold_left (processLine plat) before ∅).
    destruct (fold_processLine_keeps plat after
                (<[p := applyMatch s v (boardObjectFor plat result p)]> result) p s v)
      as (b & Hb & Hname & Hparam).
    + eexists. split; [apply lookup_insert_eq|]. unfold applyMatch.
      destruct (String.eqb_spec s "name") as [->|Hn]; cbn.
      * split; [reflexivity|]. intros Hbad. contradiction.
      * split; [intros Hbad; contradiction|]. intros _. apply lookup_insert_eq.
    + exact Hnot.
    + exists b. split; [exact Hb|].
      assert (Hok : registry_ok plat
                (fold_left (processLine plat) after
                   (<[p := applyMatch s v (boardObjectFor plat result p)]> result))).
      { apply fold_processLine_ok.
        rewrite <- (processLine_match plat result p s v) by assumption.
        apply processLine_ok. unfold result. apply fold_processLine_ok.
        intros k b' Hk. rewrite lookup_empty in Hk. discriminate. }
      destruct (Hok p b Hb) as [Hboard Hplat]. auto.
Qed.

Lemma descriptor_line_contribution_witness :
  exists b : IBoard unit,
    parseBoardDescriptorFile
      (("# boards" ++ String "010" "")
         ++ "uno.name= Arduino Uno " ++ String "010" "uno.build.mcu=atmega328p") tt
    !! "uno" = Some b
    /\ board b = "uno"
    /\ name b = Some "Arduino Uno".
Proof.
  destruct (proj2 (descriptor_line_contribution tt
                     ("# boards" ++ String "010" "") "uno.name= Arduino Uno "
                     (String "010" "uno.build.mcu=atmega328p")
                     eq_refl eq_refl eq_refl)
              "uno" "name" " Arduino Uno "
              eq_refl eq_refl eq_refl eq_refl eq_refl eq_refl eq_refl eq_refl eq_refl
              eq_refl eq_refl eq_refl)
    as (b & Hb & Hboard & _ & Hname & _).
  exists b. split; [exact Hb|]. split; [exact Hboard|]. exact (Hname eq_refl).
Defined.

End DescriptorProperties.

(** ** The board registry of all installed platforms
    ([BoardManager.loadInstalledBoards], the version that calls
    [parseBoardDescriptorFile]) *)
Module BoardRegistry.
Import Js Host BoardDescriptor.

Section Registry.
(** [IPlatform], by the one field read here. *)
Context {Platform : Type} (rootBoardPath : Platform -> string) (h : Host).

Definition boardsFileOf (plat : Platform) : string :=
  path_join h [rootBoardPath plat; "boards.txt"].

(** The body of [installedPlatforms.forEach]:
    [boards = new Map([...boards, ...parseBoardDescriptorFile(content, plat)])],
    in which the entries parsed last replace those of the same key. *)
Definition addPlatformBoards (boards : gmap string (IBoard Platform)) (plat : Platform)
  : outcome (gmap string (IBoard Platform)) :=
  match readFileSync h (boardsFileOf plat) with
  | Throws => Throws
  | Normal boardContent => Normal (parseBoardDescriptorFile boardContent plat ∪ boards)
  end.

Fixpoint addPlatformsBoards (installedPlatforms : list Platform)
         (boards : gmap string (IBoard Platform))
  : outcome (gmap string (IBoard Platform)) :=
  match installedPlatforms with
  | [] => Normal boards
  | plat :: rest =>
      match addPlatformBoards boards plat with
      | Throws => Throws
      | Normal boards' => addPlatformsBoards rest boards'
      end
  end.

(** [loadInstalledBoards()], returning what it stores in [this._boards]. *)
Definition loadInstalledBoards (installedPlatforms : list Platform)
  : outcome (gmap string (IBoard Platform)) :=
  addPlatformsBoards installedPlatforms ∅.

(** The board is what [plat]'s boards.txt says under [k]. *)
Definition definedBy (plat : Platform) (k : string) (b : IBoard Platform) : Prop :=
  exists boardContent,
    readFileSync h (boardsFileOf plat) = Normal boardContent
    /\ parseBoardDescriptorFile boardContent plat !! k = Some b.

Lemma parse_registry_ok (plat : Platform) (boardContent : string) :
  registry_ok plat (parseBoardDescriptorFile boardContent plat).
Proof.
  apply fold_processLine_ok. intros k b Hk. rewrite lookup_empty in Hk. discriminate.
Qed.

Lemma addPlatformsBoards_origin installedPlatforms boards boards' k b :
  addPlatformsBoards installedPlatforms boards = Normal boards' ->
  boards' !! k = Some b ->
  boards !! k = Some b
  \/ exists plat, In plat installedPlatforms /\ definedBy plat k b.
Proof.
  revert boards. induction installedPlatforms as [|plat rest IH]; intros boards;
    cbn [addPlatformsBoards].
  - intros [= <-] Hb. left. exact Hb.
  - unfold addPlatformBoards.
    destruct (readFileSync h (boardsFileOf plat)) as [boardContent|] eqn:Hread;
      [|discriminate].
    intros Hrest Hb. destruct (IH _ Hrest Hb) as [Hhere|(plat' & Hin & Hdef)].
    + apply lookup_union_Some_raw in Hhere as [Hnew|[_ Hold]]; [|left; exact Hold].
      right. exists plat. split; [left; reflexivity|]. exists boardContent. auto.
    + right. exists plat'. split; [right; exact Hin|exact Hdef].
Qed.

Lemma addPlatformsBoards_Throws installedPlatforms boards :
  addPlatformsBoards installedPlatforms boards = Throws
  <-> exists plat, In plat installedPlatforms /\ readFileSync h (boardsFileOf plat) = Throws.
Proof.
  revert boards. induction installedPlatforms as [|plat rest IH]; intros boards;
    cbn [addPlatformsBoards].
  - split; [discriminate|intros (plat & [] & _)].
  - unfold addPlatformBoards.
    destruct (readFileSync h (boardsFileOf plat)) as [boardContent|] eqn:Hread.
    + rewrite IH. split.
      * intros (plat' & Hin & H). exists plat'. split; [right; exact Hin|exact H].
      * intros (plat' & [<-|Hin] & H); [congruence|]. exists plat'. auto.
    + split; [intros _; exists plat; split; [left; reflexivity|exact Hread]|reflexivity].
Qed.

Lemma addPlatformsBoards_kept installedPlatforms boards boards' k b :
  addPlatformsBoards installedPlatforms boards = Normal boards' ->
  boards !! k = Some b ->
  (forall plat boardContent,
      In plat installedPlatforms ->
      readFileSync h (boardsFileOf plat) = Normal boardContent ->
      parseBoardDescriptorFile boardContent plat !! k = None) ->
  boards' !! k = Some b.
Proof.
  revert boards. induction installedPlatforms as [|plat rest IH]; intros boards;
    cbn [addPlatformsBoards].
  - intros [= <-] Hb _. exact Hb.
  - unfold addPlatformBoards.
    destruct (readFileSync h (boardsFileOf plat)) as [boardContent|] eqn:Hread;
      [|discriminate].
    intros Hrest Hb Hnone. apply (IH _ Hrest).
    + apply lookup_union_Some_raw. right. split; [|exact Hb].
      apply (Hnone plat boardContent); [left; reflexivity|exact Hread].
    + intros plat' content' Hin. apply Hnone. right. exact Hin.
Qed.

Lemma addPlatformsBoards_app l1 l2 boards :
  addPlatformsBoards (l1 ++ l2) boards
  = match addPlatformsBoards l1 boards with
    | Throws => Throws
    | Normal boards' => addPlatformsBoards l2 boards'
    end.
Proof.
  revert boards. induction l1 as [|plat l1 IH]; intros boards; cbn [addPlatformsBoards app];
    [reflexivity|].
  destruct (addPlatformBoards boards plat); [apply IH|reflexivity].
Qed.
End Registry.

(** X7. [loadInstalledBoards] throws exactly when the boards.txt of one
    of the installed platforms cannot be read; and every board of the
    registry it builds is stored under its own [board] field, belongs to
    one of the installed platforms, and is what that platform's
    boards.txt says under the key. *)
Theorem loadInstalledBoards_boards_stem_from_platforms
        {Platform} (rootBoardPath : Platform -> string) (h : Host)
        (installedPlatforms : list Platform) :
  (loadInstalledBoards rootBoardPath h installedPlatforms = Throws
   <-> exists plat, In plat installedPlatforms
                    /\ readFileSync h (boardsFileOf rootBoardPath h plat) = Throws)
  /\ forall boards k b,
       loadInstalledBoards rootBoardPath h installedPlatforms = Normal boards ->
       boards !! k = Some b ->
       board b = k /\ In (platform b) installedPlatforms
       /\ exists boardContent,
            readFileSync h (boardsFileOf rootBoardPath h (platform b)) = Normal boardContent
            /\ parseBoardDescriptorFile boardContent (platform b) !! k = Some b.
Proof.
  split; [apply addPlatformsBoards_Throws|].
  intros boards k b Hrun Hb.
  destruct (addPlatformsBoards_origin _ _ _ _ _ _ _ Hrun Hb) as [Hempty|(plat & Hin & Hdef)].
  { rewrite lookup_empty in Hempty. discriminate. }
  destruct Hdef as (boardContent & Hread & Hparse).
  destruct (parse_registry_ok plat boardContent k b Hparse) as [Hboard Hplat].
  subst plat. split; [exact Hboard|]. split; [exact Hin|]. exists boardContent. auto.
Qed.

(** X8. When two installed platforms define a board under the same key,
    [loadInstalledBoards] keeps the board of the platform that comes
    later: what a platform's boards.txt says under a key is in the
    registry if no platform after it says anything under that key. *)
Theorem loadInstalledBoards_later_platform_wins
        {Platform} (rootBoardPath : Platform -> string) (h : Host)
        (earlier later : list Platform) (plat : Platform)
        (boardContent k : string) (b : IBoard Platform)
        (boards : gmap string (IBoard Platform)) :
  loadInstalledBoards rootBoardPath h (earlier ++ plat :: later) = Normal boards ->
  readFileSync h (boardsFileOf rootBoardPath h plat) = Normal boardContent ->
  parseBoardDescriptorFile boardContent plat !! k = Some b ->
  (forall plat' content',
      In plat' later ->
      readFileSync h (boardsFileOf rootBoardPath h plat') = Normal content' ->
      parseBoardDescriptorFile content' plat' !! k = None) ->
  boards !! k = Some b.
Proof.
  unfold loadInstalledBoards. rewrite addPlatformsBoards_app.
  destruct (addPlatformsBoards rootBoardPath h earlier ∅) as [boards0|]; [|discriminate].
  cbn [addPlatformsBoards]. unfold addPlatformBoards at 1.
  intros Hrun Hread Hparse Hlater. rewrite Hread in Hrun.
  apply (addPlatformsBoards_kept _ _ _ _ _ _ _ Hrun); [|exact Hlater].
  apply lookup_union_Some_raw. left. exact Hparse.
Qed.

(** Two platforms whose boards.txt both define [uno]. *)
Definition boardsHost : Host :=
  {| packagePath := ""; defaultPackagePath := "";
     path_join := String.concat "/";
     path_resolve := fun p => p; path_dirname := fun p => p; path_basename := fun p => p;
     readFileSync :=
       Sample.lookupOr [("/avr/boards.txt", Normal "uno.name=Uno");
                        ("/clone/boards.txt", Normal "uno.name=Uno clone")] Throws;
     readdirSync := fun _ => Throws;
     glob_sync := fun _ => [];
     JSON_parse := fun _ => Throws;
     directoryExistsSync := fun _ => false;
     fileExistsSync := fun _ => false;
     util_readdirSync := fun _ _ => Throws;
     parseProperties := fun _ => Throws;
     isJunk := fun _ => false |}.

Lemma loadInstalledBoards_boards_stem_from_platforms_witness :
  board (mkBoard "uno" "/clone" (Some "Uno clone") ∅) = "uno"
  /\ In "/clone" ["/avr"; "/clone"].
Proof.
  destruct (proj2 (loadInstalledBoards_boards_stem_from_platforms (fun p => p) boardsHost
                     ["/avr"; "/clone"])
              _ "uno" (mkBoard "uno" "/clone" (Some "Uno clone") ∅) eq_refl eq_refl)
    as (Hb & Hin & _).
  split; [exact Hb|exact Hin].
Defined.

Lemma loadInstalledBoards_later_platform_wins_witness :
  exists boards,
    loadInstalledBoards (fun p => p) boardsHost ["/avr"; "/clone"] = Normal boards
    /\ boards !! "uno" = Some (mkBoard "uno" "/clone" (Some "Uno clone") ∅).
Proof.
  eexists. split; [reflexivity|].
  refine (loadInstalledBoards_later_platform_wins (fun p => p) boardsHost
            ["/avr"] [] "/clone" "uno.name=Uno clone" "uno" _ _ eq_refl eq_refl eq_refl _).
  intros plat' content' [].
Defined.

End BoardRegistry.

(** ** More about the package index merge *)
Module IndexProperties.
Import Arrays PackageIndex.

Section Merge.
Context {Board : Type} (boardName : Board -> string).
Local Abbreviation Plat := (IPlatform Board).
Local Abbreviation Ent := (RawPackage Board * RawPlatform Board)%type.

Definition platKey (p : Plat) : string * string := (package_name p, architecture p).

Definition versionCount (platforms : list Plat) : nat :=
  list_sum (map (fun p => length (versions p)) platforms).

(** The [version] field is cleared and [versions] holds something. *)
Definition cleared (p : Plat) : Prop := version p = "" /\ versions p <> [].

Lemma versionCount_app l1 l2 :
  versionCount (l1 ++ l2) = versionCount l1 + versionCount l2.
Proof. unfold versionCount. rewrite map_app, list_sum_app. reflexivity. Qed.

Lemma versionCount_cons p l :
  versionCount (p :: l) = length (versions p) + versionCount l.
Proof. reflexivity. Qed.

Lemma update_first_mergeInto (q : Plat -> bool) (plat : RawPlatform Board) (l : list Plat) x :
  List.find q l = Some x ->
  Forall cleared l ->
  Forall cleared (update_first q (mergeInto boardName plat) l)
  /\ versionCount (update_first q (mergeInto boardName plat) l) = S (versionCount l)
  /\ map platKey (update_first q (mergeInto boardName plat) l) = map platKey l.
Proof.
  induction l as [|y l IH]; cbn [List.find update_first]; [discriminate|].
  intros Hfind Hall. apply Forall_cons in Hall as [Hy Hall].
  destruct (q y) eqn:Hq.
  - split; [|split].
    + constructor; [|exact Hall]. destruct Hy as [Hv _]. split; [exact Hv|].
      cbn. destruct (versions y); discriminate.
    + rewrite !versionCount_cons. cbn [mergeInto versions]. rewrite length_app.
      cbn [length]. lia.
    + reflexivity.
  - destruct (IH Hfind Hall) as (H1 & H2 & H3). split; [|split].
    + constructor; assumption.
    + rewrite !versionCount_cons, H2. lia.
    + cbn [map]. rewrite H3. reflexivity.
Qed.

Lemma find_none_not_key (e : Ent) (l : list Plat) :
  List.find (samePlatform (fst e) (snd e)) l = None ->
  ~ In (keyOf e) (map platKey l).
Proof.
  intros Hfind Hin. apply in_map_iff in Hin as (p & Hp & Hin).
  apply (find_none _ _ Hfind) in Hin.
  assert (samePlatform (fst e) (snd e) p = true); [|congruence].
  unfold samePlatform, platKey, keyOf in *. injection Hp as -> ->.
  rewrite !String.eqb_refl. reflexivity.
Qed.

Lemma fold_addEntry_conserves (es : list Ent) :
  let platforms := fold_left (addEntry boardName) es [] in
  Forall cleared platforms
  /\ versionCount platforms = length es
  /\ NoDup (map platKey platforms).
Proof.
  induction es as [|e es (Hcl & Hcount & Hnd)] using rev_ind.
  - split; [constructor|]. split; [reflexivity|constructor].
  - cbv zeta. rewrite fold_left_app. cbn [fold_left].
    set (st := fold_left (addEntry boardName) es []) in *.
    rewrite length_app. cbn [length]. unfold addEntry, addPlatform.
    destruct (List.find (samePlatform (fst e) (snd e)) st) as [x|] eqn:Hfind.
    + destruct (update_first_mergeInto _ (snd e) st x Hfind Hcl) as (H1 & H2 & H3).
      split; [exact H1|]. split; [lia|]. rewrite H3. exact Hnd.
    + split; [|split].
      * apply Forall_app. split; [exact Hcl|].
        constructor; [|constructor]. split; [reflexivity|discriminate].
      * rewrite versionCount_app. unfold versionCount at 2. cbn. lia.
      * rewrite map_app. cbn [map]. apply NoDup_app. split; [exact Hnd|].
        split; [|apply NoDup_singleton].
        intros k Hk Hin%list_elem_of_In. cbn in Hin. destruct Hin as [<-|[]].
        apply list_elem_of_In in Hk. revert Hk. apply find_none_not_key. exact Hfind.
Qed.
End Merge.

(** X9. After any list of index files, no two platforms share package
    name and architecture. *)
Theorem parsePackageIndex_one_platform_per_key
        {Board : Type} (boardName : Board -> string)
        (indexFiles : list (list (RawPackage Board))) :
  NoDup (map (fun p => (package_name p, architecture p))
             (parseIndexFiles boardName indexFiles)).
Proof.
  rewrite parseIndexFiles_entries. apply (fold_addEntry_conserves boardName).
Qed.

(** X10. After any list of index files, every platform has its [version]
    cleared and at least one entry in [versions], and no version is lost
    or invented: the [versions] lists hold, together, as many versions as
    the index files hold platform entries. *)
Theorem parsePackageIndex_conserves_versions
        {Board : Type} (boardName : Board -> string)
        (indexFiles : list (list (RawPackage Board))) :
  Forall (fun p => version p = "" /\ versions p <> [])
         (parseIndexFiles boardName indexFiles)
  /\ list_sum (map (fun p => length (versions p)) (parseIndexFiles boardName indexFiles))
     = length (allEntries indexFiles).
Proof.
  rewrite parseIndexFiles_entries.
  destruct (fold_addEntry_conserves boardName (allEntries indexFiles)) as (H1 & H2 & _).
  split; [exact H1|exact H2].
Qed.

End IndexProperties.

(** ** More about the installed-platform resolver *)
Module ResolverProperties.
Import Js Host Arrays Installed.

Definition keyOf (p : InstalledPlatform) : string * string :=
  (packageName p, architecture p).

(** *** The order of the result of [getInstalledPlatforms] *)
Section Order.

Lemma update_first_map_inv {A B} (g : A -> B) (q : A -> bool) (f : A -> A) (l : list A) :
  (forall x, g (f x) = g x) -> map g (update_first q f l) = map g l.
Proof.
  intros Hf. induction l as [|x l IH]; cbn [update_first map]; [reflexivity|].
  destruct (q x); cbn [map]; [rewrite Hf|rewrite IH]; reflexivity.
Qed.

Lemma find_samePlatform_None plat st :
  List.find (samePlatform plat) st = None <-> ~ In (keyOf plat) (map keyOf st).
Proof.
  rewrite samePlatform_hasKey. split.
  - intros Hfind Hin. apply in_map_iff in Hin as (p & Hp & Hin).
    apply (find_none _ _ Hfind) in Hin.
    assert (hasKey (packageName plat, architecture plat) p = true); [|congruence].
    apply hasKey_iff. exact Hp.
  - intros Hnot. destruct (List.find _ st) as [p|] eqn:Hfind; [|reflexivity].
    exfalso. apply Hnot. apply find_some in Hfind as [Hin Hk].
    apply hasKey_iff in Hk. apply in_map_iff. exists p. auto.
Qed.

(** The pairs of the result: those of the defaults, then the new ones. *)
Lemma fold_overwriteWith_keys manual defaults :
  exists added,
    map keyOf (fold_left overwriteWith manual defaults) = (map keyOf defaults ++ added)%list
    /\ NoDup added
    /\ forall k, In k added <-> In k (map keyOf manual) /\ ~ In k (map keyOf defaults).
Proof.
  induction manual as [|m manual (added & Hkeys & Hnd & Hadded)] using rev_ind.
  - exists []. cbn. rewrite app_nil_r. split; [reflexivity|]. split; [constructor|].
    intros k. split; [intros []|intros [[] _]].
  - rewrite fold_left_app. cbn [fold_left].
    set (st := fold_left overwriteWith manual defaults) in *.
    unfold overwriteWith.
    destruct (List.find (samePlatform m) st) as [x|] eqn:Hfind.
    + exists added. rewrite update_first_map_inv by reflexivity.
      split; [exact Hkeys|]. split; [exact Hnd|].
      assert (Hin : In (keyOf m) (map keyOf st)).
      { apply find_some in Hfind as [Hin Hk]. rewrite samePlatform_hasKey in Hk.
        apply hasKey_iff in Hk. apply in_map_iff. exists x. auto. }
      intros k. rewrite Hadded, map_app, in_app_iff. cbn [map In]. split; [tauto|].
      intros [[H|[<-|[]]] Hnot]; [tauto|].
      rewrite Hkeys, in_app_iff in Hin. destruct Hin as [Hin|Hin]; [contradiction|].
      apply Hadded in Hin. tauto.
    + apply find_samePlatform_None in Hfind.
      exists (added ++ [keyOf m])%list. rewrite map_app, Hkeys, <- app_assoc.
      split; [reflexivity|].
      rewrite Hkeys, in_app_iff in Hfind. split.
      * apply NoDup_app. split; [exact Hnd|]. split; [|apply NoDup_singleton].
        intros k Hk Hin%list_elem_of_In. cbn in Hin. destruct Hin as [<-|[]].
        apply list_elem_of_In in Hk. tauto.
      * intros k. rewrite in_app_iff, Hadded, map_app, in_app_iff. cbn [map In].
        split; [intros [H|[<-|[]]]; tauto|tauto].
Qed.
End Order.

(** X11. In the result of [getInstalledPlatforms] the default platforms
    come first, in their order and with their package names and
    architectures; after them comes one entry for each pair that only
    the manually installed platforms have. *)
Theorem getInstalledPlatforms_keeps_defaults_first (h : Host)
        (defaults manual : list InstalledPlatform) :
  getDefaultPlatforms h = Normal defaults ->
  getManuallyInstalledPlatforms h = Normal manual ->
  exists installed added,
    getInstalledPlatforms h = Normal installed
    /\ map keyOf installed = (map keyOf defaults ++ added)%list
    /\ NoDup added
    /\ forall k, In k added <-> In k (map keyOf manual) /\ ~ In k (map keyOf defaults).
Proof.
  intros Hd Hm. unfold getInstalledPlatforms. rewrite Hd, Hm.
  destruct (fold_overwriteWith_keys manual defaults) as (added & H).
  eexists. exists added. split; [reflexivity|exact H].
Qed.

Lemma getInstalledPlatforms_keeps_defaults_first_witness :
  exists installed added,
    getInstalledPlatforms Sample.host = Normal installed
    /\ map keyOf installed = ([("arduino", "avr"); ("arduino", "sam")] ++ added)%list
    /\ NoDup added
    /\ forall k, In k added
                 <-> In k [("arduino", "avr"); ("esp8266", "esp8266")]
                     /\ ~ In k [("arduino", "avr"); ("arduino", "sam")].
Proof.
  exact (getInstalledPlatforms_keeps_defaults_first Sample.host _ _ eq_refl eq_refl).
Defined.

(** X12. Whatever the two lists hold: for a pair that has a manually
    installed platform, the entries of the pair in the result of
    [getInstalledPlatforms] are that platform (the last one of the pair,
    should there be several) followed by the default entries of the pair
    but the first. *)
Theorem getInstalledPlatforms_manual_replaces_first_default (h : Host)
        (defaults manual : list InstalledPlatform) (pkg arch : string)
        (m : InstalledPlatform) :
  getDefaultPlatforms h = Normal defaults ->
  getManuallyInstalledPlatforms h = Normal manual ->
  last (List.filter (hasKey (pkg, arch)) manual) = Some m ->
  exists installed,
    getInstalledPlatforms h = Normal installed
    /\ List.filter (hasKey (pkg, arch)) installed
       = m :: tl (List.filter (hasKey (pkg, arch)) defaults).
Proof.
  intros Hd Hm Hlast. unfold getInstalledPlatforms. rewrite Hd, Hm.
  eexists. split; [reflexivity|]. rewrite fold_overwriteWith_key, Hlast. reflexivity.
Qed.

Lemma getInstalledPlatforms_manual_replaces_first_default_witness :
  exists installed,
    getInstalledPlatforms (Sample.withBundledIndex Sample.twoVersionsBundled Sample.host)
    = Normal installed
    /\ List.filter (hasKey ("arduino", "avr")) installed
       = [mkInstalled "arduino" "avr" (JStr "1.6.17")
            "/home/packages/arduino/hardware/avr/1.6.17" false;
          mkInstalled "arduino" "avr" (JStr "1.6.14") "/ide/hardware/arduino/avr" true].
Proof.
  exact (getInstalledPlatforms_manual_replaces_first_default
           (Sample.withBundledIndex Sample.twoVersionsBundled Sample.host)
           _ _ "arduino" "avr" _ eq_refl eq_refl eq_refl).
Defined.

(** *** What [getManuallyInstalledPlatforms] returns and when it throws *)
Section Manual.
Context (h : Host).

Lemma mapM_Throws_iff {X I} (c : I -> outcome (list X)) (items : list I) :
  mapM c items = Throws <-> exists x, In x items /\ c x = Throws.
Proof.
  induction items as [|y items IH]; cbn [mapM].
  - split; [discriminate|intros (x & [] & _)].
  - destruct (c y) as [l|] eqn:Hy.
    + destruct (mapM c items) as [ls|].
      * split; [discriminate|]. intros (x & [<-|Hin] & Hx); [congruence|].
        assert (Hbad : Normal ls = @Throws (list (list X)))
          by (apply IH; exists x; auto).
        discriminate Hbad.
      * split; [|reflexivity]. intros _. destruct (proj1 IH eq_refl) as (x & Hin & Hx).
        exists x. split; [right; exact Hin|exact Hx].
    + split; [|reflexivity]. intros _. exists y. split; [left; reflexivity|exact Hy].
Qed.

Lemma filterJunk_In files file :
  In file (filterJunk h files) -> In file files /\ isJunk h file = false.
Proof.
  unfold filterJunk. rewrite List.filter_In, negb_true_iff. tauto.
Qed.

Lemma getManuallyInstalledPlatforms_no_directory :
  directoryExistsSync h (rootPackagePath h) = false ->
  getManuallyInstalledPlatforms h = Normal [].
Proof.
  intros Hroot. unfold getManuallyInstalledPlatforms, getManuallyInstalledPlatforms_body.
  rewrite Hroot. reflexivity.
Qed.

Lemma getManuallyInstalledPlatforms_unlisted :
  directoryExistsSync h (rootPackagePath h) = true ->
  util_readdirSync h (rootPackagePath h) true = Throws ->
  getManuallyInstalledPlatforms h = Throws.
Proof.
  intros Hroot Hdirs. unfold getManuallyInstalledPlatforms, getManuallyInstalledPlatforms_body.
  rewrite Hroot. cbn [negb]. unfold bind, eval. rewrite Hdirs. reflexivity.
Qed.

Lemma package_pushed_Throws packageName :
  package_pushed h packageName = Throws
  <-> directoryExistsSync h (archPathOf h packageName) = true
      /\ (readdirSync h (archPathOf h packageName) = Throws
          \/ exists listing,
               readdirSync h (archPathOf h packageName) = Normal listing
               /\ exists architecture,
                    In architecture (filterJunk h listing)
                    /\ readdirSync h (path_join h [archPathOf h packageName; architecture])
                       = Throws).
Proof.
  unfold package_pushed.
  destruct (directoryExistsSync h (archPathOf h packageName)); cbn [negb];
    [|split; [discriminate|intros [[=] _]]].
  destruct (readdirSync h (archPathOf h packageName)) as [listing|];
    [|split; [auto|reflexivity]].
  destruct (mapM (architecture_pushed h packageName) (filterJunk h listing)) as [ls|] eqn:Hls.
  - split; [discriminate|]. intros [_ [[=]|(listing' & [= <-] & arch & Hin & Hthrow)]].
    assert (Hex : mapM (architecture_pushed h packageName) (filterJunk h listing) = Throws).
    { apply mapM_Throws_iff. exists arch. split; [exact Hin|].
      unfold architecture_pushed, versionPathOf. rewrite Hthrow. reflexivity. }
    congruence.
  - split; [|reflexivity]. intros _. split; [reflexivity|]. right.
    exists listing. split; [reflexivity|].
    apply mapM_Throws_iff in Hls as (arch & Hin & Hthrow). exists arch. split; [exact Hin|].
    unfold architecture_pushed, versionPathOf in Hthrow.
    destruct (readdirSync h _); [discriminate|reflexivity].
Qed.
End Manual.

Lemma manual_entry_facts (h : Host) res e :
  getManuallyInstalledPlatforms h = Normal res -> In e res ->
  defaultPlatform e = false
  /\ isJunk h (packageName e) = false
  /\ isJunk h (architecture e) = false
  /\ exists v,
       version e = JStr v /\ isJunk h v = false
       /\ rootBoardPath e
          = path_join h [archPathOf h (packageName e); architecture e; v].
Proof.
  intros Hres He.
  destruct (directoryExistsSync h (rootPackagePath h)) eqn:Hroot.
  2:{ rewrite (getManuallyInstalledPlatforms_no_directory h Hroot) in Hres.
      injection Hres as <-. destruct He. }
  destruct (util_readdirSync h (rootPackagePath h) true) as [dirs|] eqn:Hdirs.
  2:{ rewrite (getManuallyInstalledPlatforms_unlisted h Hroot Hdirs) in Hres. discriminate. }
  rewrite (getManuallyInstalledPlatforms_pushed h dirs Hroot Hdirs) in Hres.
  destruct (mapM (package_pushed h) (filterJunk h dirs)) as [ls|] eqn:Hls; [|discriminate].
  injection Hres as <-.
  destruct (mapM_Normal_origin _ _ _ _ Hls He) as (pkg & l & Hpkg & Hl & Hin).
  destruct (package_pushed_fields h pkg l e Hl Hin)
    as (Hp & listing & allVersion & v & rest & _ & Harch & _ & Hf & Heq).
  apply filterJunk_In in Hpkg as [_ Hpkg]. apply filterJunk_In in Harch as [_ Harch].
  assert (Hv : In v (filterJunk h allVersion)) by (rewrite Hf; left; reflexivity).
  apply filterJunk_In in Hv as [_ Hv].
  rewrite Hp. split; [rewrite Heq; reflexivity|]. split; [exact Hpkg|].
  split; [exact Harch|]. exists v. rewrite Heq. cbn. auto.
Qed.


(** X13. Every platform [getManuallyInstalledPlatforms] returns is
    marked as not default; its package name, architecture and version are
    non-junk names, the version a string; and its [rootBoardPath] is the
    version folder under the architecture folder. Without the packages
    directory the result is empty. *)
Theorem getManuallyInstalledPlatforms_entries (h : Host) :
  (directoryExistsSync h (rootPackagePath h) = false ->
   getManuallyInstalledPlatforms h = Normal [])
  /\ forall res e,
       getManuallyInstalledPlatforms h = Normal res -> In e res ->
       defaultPlatform e = false
       /\ isJunk h (packageName e) = false
       /\ isJunk h (architecture e) = false
       /\ exists v,
            version e = JStr v /\ isJunk h v = false
            /\ rootBoardPath e
               = path_join h [archPathOf h (packageName e); architecture e; v].
Proof.
  split; [apply getManuallyInstalledPlatforms_no_directory|].
  apply manual_entry_facts.
Qed.

Lemma getManuallyInstalledPlatforms_entries_witness :
  defaultPlatform (mkInstalled "arduino" "avr" (JStr "1.6.17")
                     "/home/packages/arduino/hardware/avr/1.6.17" false) = false.
Proof.
  exact (proj1 (proj2 (getManuallyInstalledPlatforms_entries Sample.host)
                  _ (mkInstalled "arduino" "avr" (JStr "1.6.17")
                       "/home/packages/arduino/hardware/avr/1.6.17" false)
                  eq_refl (or_introl eq_refl))).
Defined.

(** X14. [getManuallyInstalledPlatforms] throws exactly when the packages
    directory exists and one of the listings it asks for cannot be read:
    that of the packages directory, of the hardware folder of a non-junk
    package that has one, or of a non-junk entry of such a hardware
    folder (a plain file there is enough). *)
Theorem getManuallyInstalledPlatforms_throws_iff (h : Host) :
  getManuallyInstalledPlatforms h = Throws
  <-> directoryExistsSync h (rootPackagePath h) = true
      /\ (util_readdirSync h (rootPackagePath h) true = Throws
          \/ exists dirs packageName,
               util_readdirSync h (rootPackagePath h) true = Normal dirs
               /\ In packageName (filterJunk h dirs)
               /\ directoryExistsSync h (archPathOf h packageName) = true
               /\ (readdirSync h (archPathOf h packageName) = Throws
                   \/ exists listing architecture,
                        readdirSync h (archPathOf h packageName) = Normal listing
                        /\ In architecture (filterJunk h listing)
                        /\ readdirSync h
                             (path_join h [archPathOf h packageName; architecture])
                           = Throws)).
Proof.
  destruct (directoryExistsSync h (rootPackagePath h)) eqn:Hroot.
  2:{ rewrite (getManuallyInstalledPlatforms_no_directory h Hroot).
      split; [discriminate|intros [[=] _]]. }
  destruct (util_readdirSync h (rootPackagePath h) true) as [dirs|] eqn:Hdirs.
  2:{ rewrite (getManuallyInstalledPlatforms_unlisted h Hroot Hdirs).
      split; [auto|reflexivity]. }
  rewrite (getManuallyInstalledPlatforms_pushed h dirs Hroot Hdirs).
  destruct (mapM (package_pushed h) (filterJunk h dirs)) as [ls|] eqn:Hls.
  - split; [discriminate|].
    intros [_ [[=]|(dirs' & pkg & [= <-] & Hin & Hdir & Hthrow)]].
    assert (Hex : mapM (package_pushed h) (filterJunk h dirs) = Throws).
    { apply mapM_Throws_iff. exists pkg. split; [exact Hin|].
      apply package_pushed_Throws. split; [exact Hdir|].
      destruct Hthrow as [H|(listing & arch & H1 & H2 & H3)]; [left; exact H|].
      right. exists listing. split; [exact H1|]. exists arch. auto. }
    congruence.
  - split; [|reflexivity]. intros _. split; [reflexivity|]. right.
    apply mapM_Throws_iff in Hls as (pkg & Hin & Hthrow).
    apply package_pushed_Throws in Hthrow as [Hdir Hthrow].
    exists dirs, pkg. split; [reflexivity|]. split; [exact Hin|]. split; [exact Hdir|].
    destruct Hthrow as [H|(listing & H1 & arch & H2 & H3)]; [left; exact H|].
    right. exists listing, arch. auto.
Qed.

(** *** The bundled index, entry by entry *)
Section Bundled.
Context (h : Host).

Lemma forEachM_stops {S X} (body : X -> M S unit) (pre post : list X) (x : X) (st : S) :
  (forall st', body x st' = (Throws, st')) ->
  snd (forEachM (pre ++ x :: post) body st) = snd (forEachM pre body st).
Proof.
  intros Hx. revert st. induction pre as [|y pre IH]; intros st; cbn [app forEachM].
  - unfold bind. rewrite Hx. reflexivity.
  - unfold bind. destruct (body y st) as [[[]|] st']; [apply IH|reflexivity].
Qed.

(** The packages of the bundled index are the array [items]. *)
Lemma getDefaultPlatforms_packages content fields items :
  readFileSync h (bundledIndexPath h) = Normal content ->
  nonempty content = true ->
  JSON_parse h content = Normal (JObj fields) ->
  assoc "packages" fields = Some (JArr items) ->
  getDefaultPlatforms h = Normal (snd (forEachM items (defaultPackage_body h) [])).
Proof.
  intros Hread Hne Hparse Hpackages.
  rewrite getDefaultPlatforms_Normal. f_equal.
  unfold getDefaultPlatforms_try, bind, eval. fold (bundledIndexPath h).
  rewrite Hread, Hne. cbn [negb]. rewrite Hparse. cbn [truthy getProp].
  rewrite Hpackages. reflexivity.
Qed.

(** A package entry on which the loop over its platforms cannot start. *)
Definition unreadablePackage (pkg : json) : Prop :=
  match getProp (Some pkg) "platforms" with
  | Throws => True
  | Normal platforms => iterate platforms = Throws
  end.

Lemma unreadablePackage_throws pkg st :
  unreadablePackage pkg -> defaultPackage_body h pkg st = (Throws, st).
Proof.
  unfold unreadablePackage, defaultPackage_body, bind, eval.
  destruct (getProp (Some pkg) "platforms") as [platforms|]; [|reflexivity].
  intros ->. reflexivity.
Qed.

(** *** A well-formed bundled index *)

(** A platform entry: its architecture and, if it has one, its version. *)
Definition encodePlatform (p : string * option json) : json :=
  JObj (("architecture", JStr (fst p))
          :: match snd p with Some v => [("version", v)] | None => [] end).

(** A package entry: its name and its platforms. *)
Definition encodePackage (pkg : string * list (string * option json)) : json :=
  JObj [("name", JStr (fst pkg)); ("platforms", JArr (map encodePlatform (snd pkg)))].

(** What a platform entry with a truthy version is turned into; one
    without is skipped. *)
Definition defaultOf (name : string) (p : string * option json) : list InstalledPlatform :=
  match snd p with
  | Some v =>
      if truthy (Some v) then
        [mkInstalled name (fst p) v (path_join h [defaultPackagePath h; name; fst p]) true]
      else []
  | None => []
  end.

(** The default platforms of a package, in the order of its entries. *)
Definition defaultsOf (pkg : string * list (string * option json)) : list InstalledPlatform :=
  flat_map (defaultOf (fst pkg)) (snd pkg).

(** *** A bundled index of the expected form *)

(** The entry [j] describes a platform: it is an object with the
    version [snd p], if any; where the version is truthy it has the
    architecture [fst p], a string. Other properties are of no account. *)
Definition describesPlatform (j : json) (p : string * option json) : Prop :=
  exists fields,
    j = JObj fields
    /\ assoc "version" fields = snd p
    /\ (truthy (snd p) = true -> assoc "architecture" fields = Some (JStr (fst p))).

(** The entry [j] describes a package: an object with the name
    [fst pkg], a string, and with an array of platform entries. *)
Definition describesPackage (j : json) (pkg : string * list (string * option json))
  : Prop :=
  exists fields plats,
    j = JObj fields
    /\ assoc "name" fields = Some (JStr (fst pkg))
    /\ assoc "platforms" fields = Some (JArr plats)
    /\ Forall2 describesPlatform plats (snd pkg).

Lemma defaultPlatform_body_described pkgj name j p st :
  getProp (Some pkgj) "name" = Normal (Some (JStr name)) ->
  describesPlatform j p ->
  defaultPlatform_body h pkgj j st = (Normal tt, (st ++ defaultOf name p)%list).
Proof.
  intros Hname (fields & -> & Hversion & Harch).
  assert (Hv : getProp (Some (JObj fields)) "version" = Normal (snd p))
    by (cbn [getProp]; rewrite Hversion; reflexivity).
  assert (Ha : truthy (snd p) = true ->
               getProp (Some (JObj fields)) "architecture" = Normal (Some (JStr (fst p))))
    by (intros Ht; cbn [getProp]; rewrite (Harch Ht); reflexivity).
  unfold defaultPlatform_body, defaultOf, bind, eval.
  rewrite Hv. destruct (snd p) as [v|].
  - destruct (truthy (Some v)) eqn:Ht.
    + rewrite Hname, (Ha eq_refl). reflexivity.
    + unfold ret. rewrite app_nil_r. reflexivity.
  - cbn [truthy]. unfold ret. rewrite app_nil_r. reflexivity.
Qed.

Lemma forEachM_platforms_described pkgj name plats ps st :
  getProp (Some pkgj) "name" = Normal (Some (JStr name)) ->
  Forall2 describesPlatform plats ps ->
  forEachM plats (defaultPlatform_body h pkgj) st
  = (Normal tt, (st ++ flat_map (defaultOf name) ps)%list).
Proof.
  intros Hname Hall. revert st.
  induction Hall as [|j p plats ps Hj Hall IH]; intros st; cbn [forEachM flat_map].
  - unfold ret. rewrite app_nil_r. reflexivity.
  - unfold bind. rewrite (defaultPlatform_body_described _ _ _ _ _ Hname Hj), IH, app_assoc.
    reflexivity.
Qed.

Lemma defaultPackage_body_described j pkg st :
  describesPackage j pkg ->
  defaultPackage_body h j st = (Normal tt, (st ++ defaultsOf pkg)%list).
Proof.
  intros (fields & plats & -> & Hname & Hplats & Hall).
  unfold defaultPackage_body, defaultsOf, bind, eval.
  change (getProp (Some (JObj fields)) "platforms") with (Normal (assoc "platforms" fields)).
  rewrite Hplats. cbn [iterate].
  apply forEachM_platforms_described; [|exact Hall].
  change (getProp (Some (JObj fields)) "name") with (Normal (assoc "name" fields)).
  rewrite Hname. reflexivity.
Qed.

Lemma forEachM_described items pkgs st :
  Forall2 describesPackage items pkgs ->
  forEachM items (defaultPackage_body h) st
  = (Normal tt, (st ++ flat_map defaultsOf pkgs)%list).
Proof.
  intros Hall. revert st.
  induction Hall as [|j pkg items pkgs Hj Hall IH]; intros st; cbn [forEachM flat_map].
  - unfold ret. rewrite app_nil_r. reflexivity.
  - unfold bind. rewrite (defaultPackage_body_described _ _ _ Hj), IH, app_assoc.
    reflexivity.
Qed.
End Bundled.

(** X15. A package entry of the bundled index that is null, or whose
    [platforms] are missing or not iterable, ends the scan silently:
    [getDefaultPlatforms] returns what it returns for the index cut off
    before that entry. *)
Theorem getDefaultPlatforms_stops_at_unreadable_package (h : Host)
        (content : string) (fields : list (string * json))
        (pre post : list json) (bad : json) :
  readFileSync h (bundledIndexPath h) = Normal content ->
  nonempty content = true ->
  JSON_parse h content = Normal (JObj fields) ->
  assoc "packages" fields = Some (JArr (pre ++ bad :: post)) ->
  unreadablePackage bad ->
  getDefaultPlatforms h
  = getDefaultPlatforms (Sample.withBundledIndex (JObj [("packages", JArr pre)]) h).
Proof.
  intros Hread Hne Hparse Hpackages Hbad.
  rewrite (getDefaultPlatforms_packages h content fields _ Hread Hne Hparse Hpackages).
  rewrite (getDefaultPlatforms_packages
             (Sample.withBundledIndex (JObj [("packages", JArr pre)]) h)
             content [("packages", JArr pre)] pre Hread Hne eq_refl eq_refl).
  f_equal. apply (forEachM_stops (defaultPackage_body h)).
  intros st'. apply unreadablePackage_throws. exact Hbad.
Qed.

(** An index whose second package entry is null. *)
Definition interruptedIndex : json :=
  JObj [("packages",
         JArr ([encodePackage ("arduino", [("avr", Some (JStr "1.6.15"))])]
                 ++ JNull :: [encodePackage ("arduino", [("sam", Some (JStr "1.6.4"))])]))].

Lemma getDefaultPlatforms_stops_at_unreadable_package_witness :
  getDefaultPlatforms (Sample.withBundledIndex interruptedIndex Sample.host)
  = Normal [mkInstalled "arduino" "avr" (JStr "1.6.15") "/ide/hardware/arduino/avr" true].
Proof.
  rewrite (getDefaultPlatforms_stops_at_unreadable_package
             (Sample.withBundledIndex interruptedIndex Sample.host)
             "bundled" _ _ _ JNull eq_refl eq_refl eq_refl eq_refl I).
  reflexivity.
Defined.

(** X16. On a bundled index of the expected form, whatever else it
    holds: an object whose [packages] are an array of objects, each with
    a string as [name] and an array as [platforms], whose entries are
    objects that have a string as [architecture] wherever their
    [version] is truthy. There [getDefaultPlatforms] returns exactly the
    platforms that have a truthy version, in the order of the index,
    each with the name of its package, its architecture and version,
    the bundled folder of that package and architecture as
    [rootBoardPath], and marked as default. *)
Theorem getDefaultPlatforms_reads_well_formed_index (h : Host) (content : string)
        (fields : list (string * json)) (items : list json)
        (pkgs : list (string * list (string * option json))) :
  readFileSync h (bundledIndexPath h) = Normal content ->
  nonempty content = true ->
  JSON_parse h content = Normal (JObj fields) ->
  assoc "packages" fields = Some (JArr items) ->
  Forall2 describesPackage items pkgs ->
  getDefaultPlatforms h
  = Normal (flat_map
              (fun pkg =>
                 flat_map
                   (fun p =>
                      match snd p with
                      | Some v =>
                          if truthy (Some v) then
                            [mkInstalled (fst pkg) (fst p) v
                               (path_join h [defaultPackagePath h; fst pkg; fst p]) true]
                          else []
                      | None => []
                      end)
                   (snd pkg))
              pkgs).
Proof.
  intros Hread Hne Hparse Hpackages Hall.
  rewrite (getDefaultPlatforms_packages h content _ _ Hread Hne Hparse Hpackages).
  rewrite (forEachM_described h items pkgs [] Hall). reflexivity.
Qed.

(** A bundled index as the IDE ships it, with more than the parser
    reads: a maintainer, boards, and a platform without version. *)
Definition shippedIndex : json :=
  JObj [("packages",
         JArr [JObj [("name", JStr "arduino");
                     ("maintainer", JStr "Arduino");
                     ("websiteURL", JStr "http://www.arduino.cc/");
                     ("platforms",
                      JArr [JObj [("name", JStr "Arduino AVR Boards");
                                  ("architecture", JStr "avr");
                                  ("version", JStr "1.6.15");
                                  ("boards", JArr [JObj [("name", JStr "Arduino Uno")]])];
                            JObj [("name", JStr "Arduino SAMD Boards");
                                  ("category", JStr "Arduino")];
                            JObj [("name", JStr "Arduino SAM Boards");
                                  ("architecture", JStr "sam");
                                  ("version", JStr "")]]);
                     ("tools", JArr [])]])].

Lemma shippedIndex_described :
  Forall2 describesPackage
    [JObj [("name", JStr "arduino");
           ("maintainer", JStr "Arduino");
           ("websiteURL", JStr "http://www.arduino.cc/");
           ("platforms",
            JArr [JObj [("name", JStr "Arduino AVR Boards");
                        ("architecture", JStr "avr");
                        ("version", JStr "1.6.15");
                        ("boards", JArr [JObj [("name", JStr "Arduino Uno")]])];
                  JObj [("name", JStr "Arduino SAMD Boards");
                        ("category", JStr "Arduino")];
                  JObj [("name", JStr "Arduino SAM Boards");
                        ("architecture", JStr "sam");
                        ("version", JStr "")]]);
           ("tools", JArr [])]]
    [("arduino", [("avr", Some (JStr "1.6.15")); ("samd", None); ("sam", Some (JStr ""))])].
Proof.
  constructor; [|constructor].
  eexists _, _. split; [reflexivity|]. split; [reflexivity|]. split; [reflexivity|].
  constructor; [|constructor; [|constructor; [|constructor]]];
    (eexists; split; [reflexivity|]; split; [reflexivity|]);
    intros H; first [reflexivity | discriminate H].
Defined.

Lemma getDefaultPlatforms_reads_well_formed_index_witness :
  getDefaultPlatforms (Sample.withBundledIndex shippedIndex Sample.host)
  = Normal [mkInstalled "arduino" "avr" (JStr "1.6.15") "/ide/hardware/arduino/avr" true].
Proof.
  exact (getDefaultPlatforms_reads_well_formed_index
           (Sample.withBundledIndex shippedIndex Sample.host)
           "bundled" _ _
           [("arduino", [("avr", Some (JStr "1.6.15")); ("samd", None);
                         ("sam", Some (JStr ""))])]
           eq_refl eq_refl eq_refl eq_refl shippedIndex_described).
Defined.

End ResolverProperties.

(** ** Marking the installed platforms ([BoardManager.loadInstalledPlatforms]) *)
Module Loader.
Import Js Host.

Section Marking.
Context {Board : Type}.

(** An object of [this._platforms]: what [parsePackageIndex] made of the
    index, and the three fields that are set when the platform turns out
    to be installed ([undefined] until then). *)
Record Platform := mkLoaded {
  index : PackageIndex.IPlatform Board;
  defaultPlatform : option bool;
  installedVersion : option json;
  rootBoardPath : option string;
}.

(** A platform as it comes out of the index. *)
Definition fresh (p : PackageIndex.IPlatform Board) : Platform := mkLoaded p None None None.

(** [_plat.package.name === platform.packageName
     && _plat.architecture === platform.architecture] *)
Definition isPlatformOf (platform : Installed.InstalledPlatform) (_plat : Platform) : bool :=
  String.eqb (PackageIndex.package_name (index _plat)) (Installed.packageName platform)
  && String.eqb (PackageIndex.architecture (index _plat)) (Installed.architecture platform).

(** The position of the first element that satisfies [q]. *)
Fixpoint findIndex {A} (q : A -> bool) (l : list A) : option nat :=
  match l with
  | [] => None
  | x :: l' => if q x then Some 0 else option_map S (findIndex q l')
  end.

(** What the body of [installed.forEach] does to the platform found. *)
Definition mark (platform : Installed.InstalledPlatform) (existingPlatform : Platform)
  : Platform :=
  if negb (truthy (installedVersion existingPlatform)) then
    mkLoaded (index existingPlatform) (Some (Installed.defaultPlatform platform))
             (Some (Installed.version platform)) (Some (Installed.rootBoardPath platform))
  else
    mkLoaded (index existingPlatform) (Some (Installed.defaultPlatform platform))
             (installedVersion existingPlatform) (rootBoardPath existingPlatform).

(** The body of [installed.forEach], on [this._platforms] and
    [this._installedPlatforms]. The latter holds references to objects
    of the former, here their positions: the platform found is mutated
    in place and, when it had no installed version yet, pushed. *)
Definition markInstalled (st : list Platform * list nat)
           (platform : Installed.InstalledPlatform) : list Platform * list nat :=
  let '(_platforms, _installedPlatforms) := st in
  match findIndex (isPlatformOf platform) _platforms with
  | None => st
  | Some i =>
      match _platforms !! i with
      | None => st
      | Some existingPlatform =>
          (<[i := mark platform existingPlatform]> _platforms,
           if negb (truthy (installedVersion existingPlatform))
           then (_installedPlatforms ++ [i])%list else _installedPlatforms)
      end
  end.

(** [loadInstalledPlatforms()] *)
Definition loadInstalledPlatforms (h : Host) (st : list Platform * list nat)
  : outcome (list Platform * list nat) :=
  match Installed.getInstalledPlatforms h with
  | Throws => Throws
  | Normal installed => Normal (fold_left markInstalled installed st)
  end.

(** *** One platform through the loop *)

Definition hasKeyP (k : string * string) (p : Platform) : bool :=
  String.eqb (PackageIndex.package_name (index p)) (fst k)
  && String.eqb (PackageIndex.architecture (index p)) (snd k).

Lemma isPlatformOf_hasKeyP platform :
  isPlatformOf platform
  = hasKeyP (Installed.packageName platform, Installed.architecture platform).
Proof. reflexivity. Qed.

Lemma hasKeyP_mark k platform p : hasKeyP k (mark platform p) = hasKeyP k p.
Proof. unfold mark. destruct (negb _); reflexivity. Qed.

Lemma hasKeyP_iff k p :
  hasKeyP k p = true
  <-> (PackageIndex.package_name (index p), PackageIndex.architecture (index p)) = k.
Proof.
  unfold hasKeyP. rewrite andb_true_iff, !String.eqb_eq.
  destruct k as [kp ka]. simpl. split; [intros [-> ->]; reflexivity|].
  intros [= -> ->]. split; reflexivity.
Qed.

Lemma findIndex_Some {A} (q : A -> bool) (l : list A) i :
  findIndex q l = Some i -> exists x, l !! i = Some x /\ q x = true.
Proof.
  revert i. induction l as [|y l IH]; intros i; cbn [findIndex]; [discriminate|].
  destruct (q y) eqn:Hy.
  - intros [= <-]. exists y. auto.
  - destruct (findIndex q l) as [j|]; [|discriminate]. intros [= <-].
    destruct (IH j eq_refl) as (x & Hx & Hq). exists x. auto.
Qed.

Lemma findIndex_insert {A} (q : A -> bool) (l : list A) j x x' :
  l !! j = Some x -> q x' = q x -> findIndex q (<[j := x']> l) = findIndex q l.
Proof.
  revert j. induction l as [|y l IH]; intros j Hj Hq; [discriminate|].
  destruct j as [|j].
  - change (<[0 := x']> (y :: l)) with (x' :: l).
    injection Hj as ->. cbn [findIndex]. rewrite Hq. reflexivity.
  - change (<[S j := x']> (y :: l)) with (y :: <[j := x']> l).
    cbn [findIndex]. rewrite (IH j Hj Hq). reflexivity.
Qed.

(** The fields of one platform after the loop: the loop acts on it as
    [mark] does, once for each installed entry of its pair. *)
Lemma fold_markInstalled_at installed platforms refs k i p :
  findIndex (hasKeyP k) platforms = Some i -> platforms !! i = Some p ->
  fst (fold_left markInstalled installed (platforms, refs)) !! i
  = Some (fold_left (fun p e => mark e p) (List.filter (Installed.hasKey k) installed) p).
Proof.
  revert platforms refs p.
  induction installed as [|e installed IH]; intros platforms refs p Hfind Hp; [exact Hp|].
  cbn [fold_left List.filter]. unfold markInstalled at 2.
  rewrite isPlatformOf_hasKeyP.
  set (ke := (Installed.packageName e, Installed.architecture e)).
  destruct (Installed.hasKey k e) eqn:Hk.
  - apply Installed.hasKey_iff in Hk. fold ke in Hk. subst k.
    rewrite Hfind, Hp. cbn [fold_left]. apply IH.
    + rewrite (findIndex_insert _ _ _ p); auto using hasKeyP_mark.
    + apply list_lookup_insert_eq. eapply lookup_lt_Some. exact Hp.
  - destruct (findIndex (hasKeyP ke) platforms) as [j|] eqn:Hj; [|apply IH; assumption].
    destruct (findIndex_Some _ _ _ Hj) as (x & Hx & Hqx). rewrite Hx.
    assert (Hne : j <> i).
    { intros ->. rewrite Hp in Hx. injection Hx as <-.
      destruct (findIndex_Some _ _ _ Hfind) as (x' & Hx' & Hqx').
      rewrite Hp in Hx'. injection Hx' as <-.
      apply hasKeyP_iff in Hqx, Hqx'.
      assert (Installed.hasKey k e = true); [|congruence].
      apply Installed.hasKey_iff. fold ke. congruence. }
    apply IH.
    + rewrite (findIndex_insert _ _ _ x); auto using hasKeyP_mark.
    + rewrite list_lookup_insert_ne by exact Hne. exact Hp.
Qed.

Lemma last_cons_default {A} (x : A) (l : list A) (d : A) :
  List.last (x :: l) d = List.last l x.
Proof.
  revert x d. induction l as [|y l IH]; intros x d; [reflexivity|].
  change (List.last (x :: y :: l) d) with (List.last (y :: l) d).
  rewrite !IH. reflexivity.
Qed.

(** [mark] repeated: the first entry with a truthy version decides the
    installed version and path, the last entry the default flag. *)
Lemma fold_mark_closed (first : Installed.InstalledPlatform)
      (rest : list Installed.InstalledPlatform) (p : Platform) :
  truthy (installedVersion p) = false ->
  truthy (Some (Installed.version first)) = true ->
  fold_left (fun p e => mark e p) (first :: rest) p
  = mkLoaded (index p)
             (Some (Installed.defaultPlatform (List.last rest first)))
             (Some (Installed.version first)) (Some (Installed.rootBoardPath first)).
Proof.
  intros Hp Hfirst. cbn [fold_left]. unfold mark at 2. rewrite Hp. cbn [negb].
  set (p1 := mkLoaded _ _ _ _).
  assert (Hgen : forall d,
            fold_left (fun p e => mark e p) rest
              (mkLoaded (index p) (Some (Installed.defaultPlatform d))
                        (Some (Installed.version first))
                        (Some (Installed.rootBoardPath first)))
            = mkLoaded (index p) (Some (Installed.defaultPlatform (List.last rest d)))
                       (Some (Installed.version first))
                       (Some (Installed.rootBoardPath first))).
  { induction rest as [|e rest IH]; intros d; [reflexivity|].
    cbn [fold_left]. unfold mark at 2. cbn [installedVersion index rootBoardPath].
    rewrite Hfirst. cbn [negb]. rewrite IH, (last_cons_default e rest d). reflexivity. }
  apply Hgen.
Qed.

(** *** The references pushed *)

(** [_installedPlatforms] refers, once each, to exactly the platforms
    that have a truthy installed version. *)
Definition refs_ok (st : list Platform * list nat) : Prop :=
  NoDup (snd st)
  /\ forall i, In i (snd st)
               <-> exists p, fst st !! i = Some p /\ truthy (installedVersion p) = true.

Lemma markInstalled_refs_ok st e :
  truthy (Some (Installed.version e)) = true ->
  refs_ok st -> refs_ok (markInstalled st e).
Proof.
  intros He [Hnd Hrefs]. destruct st as [platforms refs]. cbn [fst snd] in *.
  unfold markInstalled.
  destruct (findIndex (isPlatformOf e) platforms) as [i|] eqn:Hi; [|split; assumption].
  destruct (platforms !! i) as [p|] eqn:Hp; [|split; assumption].
  assert (Hlt : i < length platforms) by (eapply lookup_lt_Some; exact Hp).
  assert (Hlookup : forall j,
            <[i := mark e p]> platforms !! j
            = if decide (i = j) then Some (mark e p) else platforms !! j).
  { intros j. case_decide as Hij.
    - subst j. apply list_lookup_insert_eq. exact Hlt.
    - apply list_lookup_insert_ne. exact Hij. }
  unfold refs_ok. cbn [fst snd]. unfold mark in *.
  destruct (truthy (installedVersion p)) eqn:Htruthy; cbn [negb] in *.
  - split; [exact Hnd|]. intros j. rewrite Hrefs, Hlookup. case_decide as Hij.
    + subst j. split; intros _; eexists; split; eauto.
    + reflexivity.
  - assert (Hnot : ~ In i refs).
    { intros Hin. apply Hrefs in Hin as (p' & Hp' & Ht). congruence. }
    split.
    + apply NoDup_app. split; [exact Hnd|]. split; [|apply NoDup_singleton].
      intros j Hj Hin%list_elem_of_In. cbn in Hin. destruct Hin as [<-|[]].
      apply list_elem_of_In in Hj. contradiction.
    + intros j. rewrite in_app_iff, Hrefs, Hlookup. cbn [In]. case_decide as Hij.
      * subst j. split; [intros _|auto]. eexists. split; [reflexivity|exact He].
      * split; [intros [H|[H|[]]]; [exact H|contradiction]|auto].
Qed.

Lemma fold_markInstalled_refs_ok installed st :
  Forall (fun e => truthy (Some (Installed.version e)) = true) installed ->
  refs_ok st -> refs_ok (fold_left markInstalled installed st).
Proof.
  intros Hall. revert st. induction Hall as [|e installed He _ IH]; intros st Hok;
    [exact Hok|].
  cbn [fold_left]. apply IH, markInstalled_refs_ok; assumption.
Qed.
End Marking.

Arguments Platform : clear implicits.

(** *** The platforms after [loadInstalledPlatforms] *)

Lemma fresh_refs_ok {Board} (platforms : list (Platform Board)) :
  Forall (fun p => installedVersion p = None) platforms ->
  refs_ok (platforms, []).
Proof.
  intros Hfresh. split; [constructor|]. cbn [fst snd]. intros i. split; [intros []|].
  intros (p & Hp & Ht). rewrite List.Forall_forall in Hfresh.
  assert (Hin : In p platforms).
  { apply list_elem_of_In. eapply list_elem_of_lookup_2. exact Hp. }
  rewrite (Hfresh p Hin) in Ht. discriminate.
Qed.

Lemma marked_platform {Board} (installed : list Installed.InstalledPlatform)
      (platforms : list (Platform Board)) (k : string * string) (i : nat)
      (p : Platform Board) :
  Forall (fun p => installedVersion p = None) platforms ->
  Forall (fun e => truthy (Some (Installed.version e)) = true) installed ->
  findIndex (hasKeyP k) platforms = Some i ->
  platforms !! i = Some p ->
  let st := fold_left markInstalled installed (platforms, []) in
  NoDup (snd st)
  /\ match List.filter (Installed.hasKey k) installed with
     | [] => fst st !! i = Some p /\ ~ In i (snd st)
     | first :: rest =>
         fst st !! i
         = Some (mkLoaded (index p)
                   (Some (Installed.defaultPlatform (List.last rest first)))
                   (Some (Installed.version first))
                   (Some (Installed.rootBoardPath first)))
         /\ In i (snd st)
     end.
Proof.
  intros Hfresh Htruthy Hfind Hp st.
  destruct (fold_markInstalled_refs_ok installed (platforms, []) Htruthy
              (fresh_refs_ok platforms Hfresh)) as [Hnd Hrefs].
  fold st in Hnd, Hrefs. split; [exact Hnd|].
  pose proof (fold_markInstalled_at installed platforms [] k i p Hfind Hp) as Hat.
  fold st in Hat.
  assert (Hpv : installedVersion p = None).
  { rewrite List.Forall_forall in Hfresh. apply Hfresh.
    apply list_elem_of_In. eapply list_elem_of_lookup_2. exact Hp. }
  destruct (List.filter (Installed.hasKey k) installed) as [|first rest] eqn:Hk.
  - cbn [fold_left] in Hat. split; [exact Hat|].
    intros Hin. apply Hrefs in Hin as (p' & Hp' & Ht).
    rewrite Hat in Hp'. injection Hp' as <-. rewrite Hpv in Ht. discriminate.
  - assert (Hfirst : truthy (Some (Installed.version first)) = true).
    { rewrite List.Forall_forall in Htruthy. apply Htruthy.
      assert (Hin : In first (List.filter (Installed.hasKey k) installed))
        by (rewrite Hk; left; reflexivity).
      apply List.filter_In in Hin. tauto. }
    rewrite fold_mark_closed in Hat by (rewrite ?Hpv; auto).
    split; [exact Hat|]. apply Hrefs. eexists. split; [exact Hat|exact Hfirst].
Qed.

(** X17. [loadInstalledPlatforms], run on platforms fresh from the index
    and with every installed entry carrying a truthy version: it pushes
    no platform twice; the first platform of a pair without installed
    entry stays as it is and is not pushed; the first platform of a pair
    with installed entries is pushed, gets installed version and root
    path from the first of these entries and the default flag from the
    last. *)
Theorem loadInstalledPlatforms_marks_each_platform_once
        {Board} (h : Host) (installed : list Installed.InstalledPlatform)
        (platforms : list (Platform Board)) (pkg arch : string) (i : nat)
        (p : Platform Board) :
  Installed.getInstalledPlatforms h = Normal installed ->
  Forall (fun p => installedVersion p = None) platforms ->
  Forall (fun e => truthy (Some (Installed.version e)) = true) installed ->
  findIndex (hasKeyP (pkg, arch)) platforms = Some i ->
  platforms !! i = Some p ->
  exists _platforms _installedPlatforms,
    loadInstalledPlatforms h (platforms, []) = Normal (_platforms, _installedPlatforms)
    /\ NoDup _installedPlatforms
    /\ match List.filter (Installed.hasKey (pkg, arch)) installed with
       | [] => _platforms !! i = Some p /\ ~ In i _installedPlatforms
       | first :: rest =>
           _platforms !! i
           = Some (mkLoaded (index p)
                     (Some (Installed.defaultPlatform (List.last rest first)))
                     (Some (Installed.version first))
                     (Some (Installed.rootBoardPath first)))
           /\ In i _installedPlatforms
       end.
Proof.
  intros Hrun Hfresh Htruthy Hfind Hp. unfold loadInstalledPlatforms. rewrite Hrun.
  pose proof (marked_platform installed platforms (pkg, arch) i p Hfresh Htruthy Hfind Hp) as H.
  cbv zeta in H.
  destruct (fold_left markInstalled installed (platforms, [])) as [ps refs].
  exists ps, refs. split; [reflexivity|exact H].
Qed.

(** The index of the sample: arduino/avr and esp8266/esp8266. *)
Definition samplePlatforms : list (Platform string) :=
  [fresh (PackageIndex.mkPlatform "Arduino AVR" "avr" "" ["1.6.15"; "1.6.17"] ["Uno"] "arduino");
   fresh (PackageIndex.mkPlatform "ESP8266" "esp8266" "" ["2.3.0"] ["NodeMCU"] "esp8266")].

Lemma loadInstalledPlatforms_marks_each_platform_once_witness :
  exists _platforms _installedPlatforms,
    loadInstalledPlatforms Sample.host (samplePlatforms, [])
    = Normal (_platforms, _installedPlatforms)
    /\ NoDup _installedPlatforms
    /\ _platforms !! 0
       = Some (mkLoaded
                 (PackageIndex.mkPlatform "Arduino AVR" "avr" "" ["1.6.15"; "1.6.17"] ["Uno"]
                    "arduino")
                 (Some false) (Some (JStr "1.6.17"))
                 (Some "/home/packages/arduino/hardware/avr/1.6.17"))
    /\ In 0 _installedPlatforms.
Proof.
  refine (loadInstalledPlatforms_marks_each_platform_once Sample.host _ samplePlatforms
            "arduino" "avr" 0 _ eq_refl _ _ eq_refl eq_refl).
  - repeat constructor.
  - repeat constructor.
Defined.

(** *** From the two sources to the loaded platforms *)

Lemma Forall_update_first {A} (P : A -> Prop) (q : A -> bool) (f : A -> A) (l : list A) :
  (forall x, P (f x)) -> Forall P l -> Forall P (Arrays.update_first q f l).
Proof.
  intros Hf. induction 1 as [|x l Hx Hl IH]; cbn [Arrays.update_first]; [constructor|].
  destruct (q x); constructor; auto.
Qed.

Definition hasVersion (e : Installed.InstalledPlatform) : Prop :=
  truthy (Some (Installed.version e)) = true.

Lemma fold_overwriteWith_hasVersion manual defaults :
  Forall hasVersion manual -> Forall hasVersion defaults ->
  Forall hasVersion (fold_left Installed.overwriteWith manual defaults).
Proof.
  intros Hm. revert defaults. induction Hm as [|m manual Hv Hm IH]; intros defaults Hd;
    [exact Hd|].
  cbn [fold_left]. apply IH. unfold Installed.overwriteWith.
  destruct (List.find _ defaults).
  - apply Forall_update_first; [|exact Hd]. intros x. exact Hv.
  - apply Forall_app. split; [exact Hd|]. constructor; [exact Hv|constructor].
Qed.

Lemma defaults_facts (h : Host) defaults :
  Installed.getDefaultPlatforms h = Normal defaults ->
  Forall (fun e => Installed.defaultPlatform e = true /\ hasVersion e) defaults.
Proof.
  rewrite Installed.getDefaultPlatforms_Normal. intros [= <-].
  eapply List.Forall_impl; [|apply (Installed.getDefaultPlatforms_try_ok h)].
  intros e (Hd & Hv & _). split; assumption.
Qed.

Lemma last_In {A} (l : list A) (x d : A) : In (List.last (x :: l) d) (x :: l).
Proof.
  revert x. induction l as [|y l IH]; intros x; [left; reflexivity|].
  right. exact (IH y).
Qed.

(** X18. From the bundled index and the packages directory to the loaded
    platforms: the first platform of a pair that has a manually
    installed platform is pushed to the installed ones and gets version
    and root path of the manual platform (the last one of the pair); it
    is flagged as default exactly when the bundled index yields the pair
    more than once. *)
Theorem loadInstalledPlatforms_manual_platform_default_flag
        {Board} (h : Host) (defaults manual : list Installed.InstalledPlatform)
        (platforms : list (Platform Board)) (pkg arch : string)
        (m : Installed.InstalledPlatform) (i : nat) (p : Platform Board) :
  Installed.getDefaultPlatforms h = Normal defaults ->
  Installed.getManuallyInstalledPlatforms h = Normal manual ->
  Forall (fun e => truthy (Some (Installed.version e)) = true) manual ->
  last (List.filter (Installed.hasKey (pkg, arch)) manual) = Some m ->
  Forall (fun p => installedVersion p = None) platforms ->
  findIndex (hasKeyP (pkg, arch)) platforms = Some i ->
  platforms !! i = Some p ->
  exists _platforms _installedPlatforms,
    loadInstalledPlatforms h (platforms, []) = Normal (_platforms, _installedPlatforms)
    /\ In i _installedPlatforms
    /\ _platforms !! i
       = Some (mkLoaded (index p)
                 (Some (negb (Nat.leb
                                (length (List.filter (Installed.hasKey (pkg, arch)) defaults))
                                1)))
                 (Some (Installed.version m))
                 (Some (Installed.rootBoardPath m))).
Proof.
  intros Hd Hm Hmv Hlast Hfresh Hfind Hp.
  pose proof (defaults_facts h defaults Hd) as Hdf.
  assert (Hmd : Installed.defaultPlatform m = false).
  { apply (ResolverProperties.manual_entry_facts h manual m Hm).
    assert (Hin : m ∈ List.filter (Installed.hasKey (pkg, arch)) manual).
    { apply last_Some_elem_of. exact Hlast. }
    apply list_elem_of_In, List.filter_In in Hin. tauto. }
  unfold loadInstalledPlatforms, Installed.getInstalledPlatforms. rewrite Hd, Hm.
  set (installed := fold_left Installed.overwriteWith manual defaults).
  assert (Hiv : Forall hasVersion installed).
  { apply fold_overwriteWith_hasVersion; [exact Hmv|].
    eapply List.Forall_impl; [|exact Hdf]. intros e [_ He]. exact He. }
  pose proof (marked_platform installed platforms (pkg, arch) i p Hfresh Hiv Hfind Hp) as H.
  cbv zeta in H.
  assert (Hkey : List.filter (Installed.hasKey (pkg, arch)) installed
                 = m :: tl (List.filter (Installed.hasKey (pkg, arch)) defaults)).
  { unfold installed. rewrite Installed.fold_overwriteWith_key, Hlast. reflexivity. }
  rewrite Hkey in H.
  destruct (fold_left markInstalled installed (platforms, [])) as [ps refs].
  cbn [fst snd] in H. destruct H as (_ & Hat & Hin).
  exists ps, refs. split; [reflexivity|]. split; [exact Hin|]. rewrite Hat.
  do 3 f_equal.
  destruct (List.filter (Installed.hasKey (pkg, arch)) defaults) as [|d [|d' ds]] eqn:Hk;
    cbn [tl List.last length Nat.leb negb]; try exact Hmd.
  assert (Hl : In (List.last (d' :: ds) m) (List.filter (Installed.hasKey (pkg, arch)) defaults)).
  { rewrite Hk. right. apply last_In. }
  apply List.filter_In in Hl as [Hl _].
  rewrite List.Forall_forall in Hdf. apply (Hdf _ Hl).
Qed.

Lemma loadInstalledPlatforms_manual_platform_default_flag_witness :
  exists _platforms _installedPlatforms,
    loadInstalledPlatforms (Sample.withBundledIndex Sample.twoVersionsBundled Sample.host)
      (samplePlatforms, [])
    = Normal (_platforms, _installedPlatforms)
    /\ In 0 _installedPlatforms
    /\ _platforms !! 0
       = Some (mkLoaded
                 (PackageIndex.mkPlatform "Arduino AVR" "avr" "" ["1.6.15"; "1.6.17"] ["Uno"]
                    "arduino")
                 (Some true) (Some (JStr "1.6.17"))
                 (Some "/home/packages/arduino/hardware/avr/1.6.17")).
Proof.
  refine (loadInstalledPlatforms_manual_platform_default_flag
            (Sample.withBundledIndex Sample.twoVersionsBundled Sample.host)
            _ _ samplePlatforms "arduino" "avr" _ 0 _
            eq_refl eq_refl _ eq_refl _ eq_refl eq_refl).
  - repeat constructor.
  - repeat constructor.
Defined.

End Loader.

(** * The additional package index files

    [getAdditionalUrls] and [getAddtionalIndexFiles] of [BoardManager]:
    the URLs come from the settings or, failing that, from the
    preferences of the IDE; the name of an index file is what follows
    the last slash of the path of its URL. *)
Module IndexFiles.
Import Js.

(** [s.lastIndexOf(sub)]: the last position at which [sub] occurs, or -1. *)
Fixpoint lastIndexOf_from (i found : Z) (s sub : string) : Z :=
  let found' := if startsWith s sub then i else found in
  match s with
  | EmptyString => found'
  | String _ s' => lastIndexOf_from (i + 1)%Z found' s' sub
  end.

Definition lastIndexOf (s sub : string) : Z := lastIndexOf_from 0%Z (-1)%Z s sub.

(** [s.substr(start)]: a negative [start] counts from the end. *)
Definition substr (s : string) (start : Z) : string :=
  let n := Z.of_nat (String.length s) in
  let from := if (start <? 0)%Z then Z.max (n + start) 0 else Z.min start n in
  String.substring (Z.to_nat from) (Z.to_nat (n - from)) s.

(** [s.split(sep)] for a separator of one character. *)
Fixpoint split (sep : ascii) (s : string) : list string :=
  match s with
  | EmptyString => [EmptyString]
  | String ch s' =>
      if Ascii.eqb ch sep then EmptyString :: split sep s'
      else match split sep s' with
           | piece :: pieces => String ch piece :: pieces
           | [] => [String ch EmptyString]
           end
  end.

(** What [url.parse] returns, as far as the code reads it. *)
Record Url := mkUrl { pathname : option string }.

(** The preferences of the IDE: a [Map] from strings to strings, or
    nothing. *)
Definition Preferences : Type := option (gmap string string).

(** [let additionalUrls = this._settings.additionalUrls; if
    (!additionalUrls && preferences && preferences.has(key))
    additionalUrls = preferences.get(key);] *)
Definition configured (settings_additionalUrls : option json) (preferences : Preferences)
  : option json :=
  match preferences with
  | Some prefs =>
      if negb (truthy settings_additionalUrls) then
        match prefs !! "boardsmanager.additional.urls" with
        | Some v => Some (JStr v)
        | None => settings_additionalUrls
        end
      else settings_additionalUrls
  | None => settings_additionalUrls
  end.

(** The value is returned under a cast only: it is an array when the
    setting is one or is a string, and whatever the setting is
    otherwise. *)
Definition getAdditionalUrls (settings_additionalUrls : option json)
           (preferences : Preferences) : option json :=
  let additionalUrls := configured settings_additionalUrls preferences in
  if truthy additionalUrls then
    match additionalUrls with
    | Some (JStr s) => Some (JArr (map JStr (split "," s)))
    | urls => urls
    end
  else Some (JArr []).

Definition indexFileNameOf (pathname : string) : string :=
  substr pathname (lastIndexOf pathname "/" + 1)%Z.

Section IndexFileNames.
(** [url.parse]: it may throw, and the code provides for a falsy result. *)
Variable url_parse : json -> outcome (option Url).

(** The function given to [urls.forEach]; reading [substr] of a [null]
    path name is a [TypeError]. *)
Definition indexFile_body (urlString : json) : M (list string) unit :=
  (if negb (truthy (Some urlString)) then ret tt
   else
     let* normalizedUrl := url_parse urlString in
     match normalizedUrl with
     | None => ret tt
     | Some u =>
         match pathname u with
         | Some p => push (indexFileNameOf p)
         | None => eval Throws
         end
     end)%stmt.

(** [urls.forEach] exists on arrays only. *)
Definition indexFilesOf (urls : option json) : outcome (list string) :=
  match urls with
  | Some (JArr items) =>
      match forEachM items indexFile_body [] with
      | (Normal _, result) => Normal result
      | (Throws, _) => Throws
      end
  | _ => Throws
  end.

Definition getAddtionalIndexFiles (settings_additionalUrls : option json)
           (preferences : Preferences) : outcome (list string) :=
  indexFilesOf (getAdditionalUrls settings_additionalUrls preferences).
End IndexFileNames.

(** ** Properties *)

Definition notChar (a ch : ascii) : bool := negb (Ascii.eqb ch a).

Lemma startsWith_char s a :
  startsWith s (String a EmptyString)
  = match s with EmptyString => false | String b _ => Ascii.eqb b a end.
Proof. destruct s as [|b s]; cbn [startsWith]; [reflexivity|]. apply andb_true_r. Qed.

Lemma lastIndexOf_from_char a s : forall i found,
  (string_forall (notChar a) s = true ->
   lastIndexOf_from i found s (String a EmptyString) = found)
  /\ (string_forall (notChar a) s = false ->
      exists pre post,
        s = pre ++ String a post
        /\ string_forall (notChar a) post = true
        /\ lastIndexOf_from i found s (String a EmptyString)
           = (i + Z.of_nat (String.length pre))%Z).
Proof.
  induction s as [|b s IH]; intros i found; cbn [lastIndexOf_from string_forall].
  - rewrite startsWith_char. split; [reflexivity|discriminate].
  - rewrite startsWith_char. unfold notChar at 1 3.
    destruct (string_forall (notChar a) s) eqn:Hs.
    + destruct (Ascii.eqb b a) eqn:Hb; cbn [negb andb].
      * split; [discriminate|]. intros _. apply Ascii.eqb_eq in Hb. subst b.
        exists EmptyString, s. split; [reflexivity|]. split; [exact Hs|].
        rewrite (proj1 (IH (i + 1)%Z i) eq_refl). cbn [String.length]. lia.
      * split; [|discriminate]. intros _. apply (IH (i + 1)%Z found). reflexivity.
    + rewrite andb_false_r. split; [discriminate|]. intros _.
      destruct (proj2 (IH (i + 1)%Z (if Ascii.eqb b a then i else found)) eq_refl)
        as (pre & post & -> & Hpost & ->).
      exists (String b pre), post. split; [reflexivity|]. split; [exact Hpost|].
      cbn [String.length]. lia.
Qed.

Lemma substring_all s : String.substring 0 (String.length s) s = s.
Proof. induction s as [|c s IH]; cbn; [reflexivity|]. rewrite IH. reflexivity. Qed.

Lemma substring_skip pre s m :
  String.substring (String.length pre) m (pre ++ s) = String.substring 0 m s.
Proof. induction pre as [|c pre IH]; cbn; [reflexivity|exact IH]. Qed.

Lemma length_append (s t : string) :
  String.length (s ++ t) = String.length s + String.length t.
Proof. induction s as [|c s IH]; cbn; [reflexivity|]. rewrite IH. reflexivity. Qed.

Lemma substr_suffix pre post :
  substr (pre ++ post) (Z.of_nat (String.length pre)) = post.
Proof.
  unfold substr. rewrite length_append.
  assert (Hlt : (Z.of_nat (String.length pre) <? 0)%Z = false) by (apply Z.ltb_ge; lia).
  rewrite Hlt.
  assert (Hfrom : Z.min (Z.of_nat (String.length pre))
                    (Z.of_nat (String.length pre + String.length post))
                  = Z.of_nat (String.length pre)) by lia.
  rewrite Hfrom, Nat2Z.id, Nat2Z.inj_add, Z.add_simpl_l, Nat2Z.id.
  rewrite substring_skip. apply substring_all.
Qed.

(** The name of an index file is the path name itself when that has no
    slash, and what follows its last slash otherwise. *)
Lemma indexFileNameOf_segment p :
  string_forall (notChar "/") (indexFileNameOf p) = true
  /\ (p = indexFileNameOf p \/ exists dir, p = dir ++ "/" ++ indexFileNameOf p).
Proof.
  unfold indexFileNameOf, lastIndexOf.
  destruct (lastIndexOf_from_char "/" p 0%Z (-1)%Z) as [Hnone Hsome].
  destruct (string_forall (notChar "/") p) eqn:Hp.
  - rewrite (Hnone eq_refl).
    pose proof (substr_suffix "" p) as Hall. cbn [String.append String.length] in Hall.
    change (-1 + 1)%Z with (Z.of_nat 0). rewrite Hall.
    split; [exact Hp|left; reflexivity].
  - destruct (Hsome eq_refl) as (pre & post & -> & Hpost & ->).
    replace (0 + Z.of_nat (String.length pre) + 1)%Z
      with (Z.of_nat (String.length (pre ++ "/")))
      by (rewrite length_append; cbn [String.length]; lia).
    replace (pre ++ String "/" post) with ((pre ++ "/") ++ post)
      by (rewrite DescriptorProperties.append_assoc; reflexivity).
    rewrite substr_suffix.
    split; [exact Hpost|]. right. exists pre.
    rewrite DescriptorProperties.append_assoc. reflexivity.
Qed.

(** *** The pieces of a string setting *)

Fixpoint count (a : ascii) (s : string) : nat :=
  match s with
  | EmptyString => 0
  | String ch s' => (if Ascii.eqb ch a then 1 else 0) + count a s'
  end.

Lemma split_pieces sep s :
  String.concat (String sep EmptyString) (split sep s) = s
  /\ Forall (fun piece => string_forall (notChar sep) piece = true) (split sep s)
  /\ length (split sep s) = S (count sep s).
Proof.
  induction s as [|ch s (IHc & IHf & IHl)]; cbn [split count].
  - repeat split. repeat constructor.
  - destruct (Ascii.eqb ch sep) eqn:Hch.
    + apply Ascii.eqb_eq in Hch. subst ch. split; [|split].
      * destruct (split sep s) as [|piece pieces]; [discriminate IHl|].
        cbn [String.concat String.append]. f_equal. exact IHc.
      * constructor; [reflexivity|exact IHf].
      * cbn [length]. rewrite IHl. reflexivity.
    + destruct (split sep s) as [|piece pieces]; [discriminate IHl|]. split; [|split].
      * destruct pieces as [|piece' pieces]; cbn [String.concat String.append] in *;
          f_equal; exact IHc.
      * inversion IHf as [|? ? Hpiece Hpieces]; subst. constructor; [|exact Hpieces].
        cbn [string_forall]. unfold notChar at 1. rewrite Hch. exact Hpiece.
      * exact IHl.
Qed.

(** X19. A string of URLs, from the settings or from the preferences, is
    cut at its commas: [getAdditionalUrls] returns the pieces, which have
    no comma, are one more than the commas of the string, and joined
    with commas give the string back. *)
Theorem getAdditionalUrls_cuts_string_at_commas
        (settings_additionalUrls : option json) (preferences : Preferences) (s : string) :
  configured settings_additionalUrls preferences = Some (JStr s) ->
  nonempty s = true ->
  exists pieces,
    getAdditionalUrls settings_additionalUrls preferences = Some (JArr (map JStr pieces))
    /\ String.concat "," pieces = s
    /\ Forall (fun piece => string_forall (notChar ",") piece = true) pieces
    /\ length pieces = S (count "," s).
Proof.
  intros Hc Hs. exists (split "," s). unfold getAdditionalUrls. rewrite Hc.
  cbn [truthy]. rewrite Hs. split; [reflexivity|apply split_pieces].
Qed.

Lemma getAdditionalUrls_cuts_string_at_commas_witness :
  exists pieces,
    getAdditionalUrls None
      (Some {["boardsmanager.additional.urls" := "http://a.io/x/index.json,,b.json"]})
    = Some (JArr (map JStr pieces))
    /\ String.concat "," pieces = "http://a.io/x/index.json,,b.json"
    /\ Forall (fun piece => string_forall (notChar ",") piece = true) pieces
    /\ length pieces = 3.
Proof.
  exact (getAdditionalUrls_cuts_string_at_commas None
           (Some {["boardsmanager.additional.urls" := "http://a.io/x/index.json,,b.json"]})
           "http://a.io/x/index.json,,b.json" eq_refl eq_refl).
Defined.

(** *** The index files of the URLs *)
Section Names.
Variable url_parse : json -> outcome (option Url).

(** The names one URL contributes. *)
Definition namesOf (urlString : json) : outcome (list string) :=
  if negb (truthy (Some urlString)) then Normal []
  else match url_parse urlString with
       | Throws => Throws
       | Normal None => Normal []
       | Normal (Some u) =>
           match pathname u with
           | Some p => Normal [indexFileNameOf p]
           | None => Throws
           end
       end.

Lemma indexFile_body_pushes : Installed.pushes (indexFile_body url_parse) namesOf.
Proof.
  intros u st. unfold namesOf, indexFile_body, bind, eval, ret, push.
  destruct (negb (truthy (Some u))); [rewrite app_nil_r; reflexivity|].
  destruct (url_parse u) as [[[[p|]]|]|]; try reflexivity.
  rewrite app_nil_r. reflexivity.
Qed.

Lemma indexFilesOf_array items :
  indexFilesOf url_parse (Some (JArr items))
  = match Installed.mapM namesOf items with
    | Normal ls => Normal (concat ls)
    | Throws => Throws
    end.
Proof.
  unfold indexFilesOf.
  pose proof (Installed.forEachM_pushes _ _ items indexFile_body_pushes []) as H.
  destruct (Installed.mapM namesOf items) as [ls|].
  - rewrite H. reflexivity.
  - destruct (forEachM items (indexFile_body url_parse) []) as [[|] st];
      [discriminate H|reflexivity].
Qed.

Lemma mapM_length items ls :
  Installed.mapM namesOf items = Normal ls -> length (concat ls) <= length items.
Proof.
  revert ls. induction items as [|u items IH]; intros ls; cbn [Installed.mapM].
  - intros [= <-]. reflexivity.
  - destruct (namesOf u) as [l|] eqn:Hu; [|discriminate].
    destruct (Installed.mapM namesOf items) as [ls'|]; [|discriminate].
    intros [= <-]. cbn [concat]. rewrite length_app.
    specialize (IH _ eq_refl). cbn [length].
    assert (length l <= 1); [|lia].
    unfold namesOf in Hu. destruct (negb (truthy (Some u))); [injection Hu as <-; cbn; lia|].
    destruct (url_parse u) as [[[[p|]]|]|]; try discriminate; injection Hu as <-; cbn; lia.
Qed.

Lemma namesOf_Normal u l :
  namesOf u = Normal l ->
  (l = [] /\ (truthy (Some u) = false \/ url_parse u = Normal None))
  \/ exists url p,
       truthy (Some u) = true /\ url_parse u = Normal (Some url)
       /\ pathname url = Some p /\ l = [indexFileNameOf p].
Proof.
  unfold namesOf. destruct (truthy (Some u)); cbn [negb].
  - destruct (url_parse u) as [[[[p|]]|]|]; intros [= <-].
    + right. exists (mkUrl (Some p)), p. auto.
    + left. auto.
  - intros [= <-]. left. auto.
Qed.

(** X20. When [getAddtionalIndexFiles] returns, the URLs are an array,
    and the names it returns are at most as many; each name has no
    slash and is the path of a non-empty URL of the array, or what
    follows the last slash of that path; and every non-empty URL that
    parses has its name in the result. *)
Theorem getAddtionalIndexFiles_names_are_last_segments
        (settings_additionalUrls : option json) (preferences : Preferences)
        (result : list string) :
  getAddtionalIndexFiles url_parse settings_additionalUrls preferences = Normal result ->
  exists urls,
    getAdditionalUrls settings_additionalUrls preferences = Some (JArr urls)
    /\ length result <= length urls
    /\ (forall name, In name result ->
          string_forall (notChar "/") name = true
          /\ exists u url p,
               In u urls /\ truthy (Some u) = true
               /\ url_parse u = Normal (Some url) /\ pathname url = Some p
               /\ (p = name \/ exists dir, p = dir ++ "/" ++ name))
    /\ (forall u url p,
          In u urls -> truthy (Some u) = true ->
          url_parse u = Normal (Some url) -> pathname url = Some p ->
          In (indexFileNameOf p) result).
Proof.
  unfold getAddtionalIndexFiles.
  destruct (getAdditionalUrls settings_additionalUrls preferences) as [[| | | |items|]|];
    try discriminate.
  rewrite indexFilesOf_array.
  destruct (Installed.mapM namesOf items) as [ls|] eqn:Hls; [|discriminate].
  intros [= <-]. exists items. split; [reflexivity|]. split; [exact (mapM_length _ _ Hls)|].
  split.
  - intros name Hname.
    destruct (Installed.mapM_Normal_origin _ _ _ _ Hls Hname) as (u & l & Hu & Hl & Hin).
    apply namesOf_Normal in Hl as [[-> _]|(url & p & Ht & Hparse & Hp & ->)]; [destruct Hin|].
    destruct Hin as [<-|[]]. destruct (indexFileNameOf_segment p) as [Hslash Hseg].
    split; [exact Hslash|]. exists u, url, p. auto 7.
  - intros u url p Hu Ht Hparse Hp.
    destruct (Installed.mapM_Normal_In _ _ _ _ Hls Hu) as (l & Hl & Hin).
    apply Hin. unfold namesOf in Hl. rewrite Ht, Hparse, Hp in Hl. cbn [negb] in Hl.
    injection Hl as <-. left. reflexivity.
Qed.

Definition isArray (v : option json) : bool :=
  match v with Some (JArr _) => true | _ => false end.

Lemma namesOf_Throws u :
  namesOf u = Throws
  <-> truthy (Some u) = true
      /\ (url_parse u = Throws
          \/ exists url, url_parse u = Normal (Some url) /\ pathname url = None).
Proof.
  unfold namesOf. destruct (truthy (Some u)); cbn [negb].
  - destruct (url_parse u) as [[[[p|]]|]|]; split; intros H.
    + discriminate H.
    + destruct H as (_ & [H|(url & [= <-] & H)]); discriminate H.
    + split; [reflexivity|]. right. eexists. split; reflexivity.
    + reflexivity.
    + discriminate H.
    + destruct H as (_ & [H|(url & H & _)]); discriminate H.
    + split; [reflexivity|]. left. reflexivity.
    + reflexivity.
  - split; [discriminate|]. intros [H _]. discriminate.
Qed.

Lemma indexFiles_Throws urls :
  indexFilesOf url_parse urls = Throws
  <-> isArray urls = false
      \/ exists items u,
           urls = Some (JArr items) /\ In u items /\ truthy (Some u) = true
           /\ (url_parse u = Throws
               \/ exists url, url_parse u = Normal (Some url) /\ pathname url = None).
Proof.
  destruct urls as [[| | | |items|]|];
    try (split; [intros _; left; reflexivity|reflexivity]).
  rewrite indexFilesOf_array. split.
  - intros H. right.
    destruct (Installed.mapM namesOf items) as [ls|] eqn:Hls; [discriminate|].
    apply ResolverProperties.mapM_Throws_iff in Hls as (u & Hu & Hthrows).
    apply namesOf_Throws in Hthrows as [Ht Hwhy]. exists items, u. auto.
  - intros [H|(items' & u & [= <-] & Hu & Ht & Hwhy)]; [discriminate|].
    assert (Hls : Installed.mapM namesOf items = Throws).
    { apply ResolverProperties.mapM_Throws_iff. exists u. split; [exact Hu|].
      apply namesOf_Throws. auto. }
    rewrite Hls. reflexivity.
Qed.

(** X21. [getAddtionalIndexFiles] throws in two cases only: what is
    configured is truthy but neither a string nor an array; or one of
    the URLs is not empty and [url.parse] throws on it or finds no path
    name in it. *)
Theorem getAddtionalIndexFiles_throws_iff
        (settings_additionalUrls : option json) (preferences : Preferences) :
  getAddtionalIndexFiles url_parse settings_additionalUrls preferences = Throws
  <-> (exists v,
         configured settings_additionalUrls preferences = Some v
         /\ truthy (Some v) = true
         /\ match v with JStr _ | JArr _ => False | _ => True end)
      \/ exists urls u,
           getAdditionalUrls settings_additionalUrls preferences = Some (JArr urls)
           /\ In u urls /\ truthy (Some u) = true
           /\ (url_parse u = Throws
               \/ exists url, url_parse u = Normal (Some url) /\ pathname url = None).
Proof.
  unfold getAddtionalIndexFiles. rewrite indexFiles_Throws.
  apply or_iff_compat_r. unfold getAdditionalUrls.
  destruct (configured settings_additionalUrls preferences) as [v|].
  - destruct (truthy (Some v)) eqn:Hv.
    + destruct v; cbn [isArray]; (split; [intros H|intros (v' & [= <-] & _ & H)]);
        try discriminate H; try destruct H; try reflexivity;
        eexists; (split; [reflexivity|]); (split; [exact Hv|exact I]).
    + cbn [isArray]. split; [discriminate|]. intros (v' & [= <-] & Hv' & _). congruence.
  - cbn [truthy isArray]. split; [discriminate|]. intros (v' & [=] & _).
Qed.
End Names.

(** A parser for the examples: the path name is what follows the host of
    an [http://] URL, the path name of [mailto:] is [null], and any
    other string is a path. *)
Definition sampleParse (u : json) : outcome (option Url) :=
  match u with
  | JStr s =>
      if startsWith s "http://" then
        let rest := substr s 7 in
        let i := indexOf rest "/" in
        Normal (Some (mkUrl (Some (if (i <? 0)%Z then "/" else substr rest i))))
      else if startsWith s "mailto:" then Normal (Some (mkUrl None))
      else Normal (Some (mkUrl (Some s)))
  | _ => Throws
  end.

Lemma getAddtionalIndexFiles_names_are_last_segments_witness :
  exists urls,
    getAdditionalUrls (Some (JStr "http://a.io/x/index.json,,b.json")) None
    = Some (JArr urls)
    /\ length ["index.json"; "b.json"] <= length urls
    /\ (forall name, In name ["index.json"; "b.json"] ->
          string_forall (notChar "/") name = true
          /\ exists u url p,
               In u urls /\ truthy (Some u) = true
               /\ sampleParse u = Normal (Some url) /\ pathname url = Some p
               /\ (p = name \/ exists dir, p = dir ++ "/" ++ name))
    /\ (forall u url p,
          In u urls -> truthy (Some u) = true ->
          sampleParse u = Normal (Some url) -> pathname url = Some p ->
          In (indexFileNameOf p) ["index.json"; "b.json"]).
Proof.
  exact (getAddtionalIndexFiles_names_are_last_segments sampleParse
           (Some (JStr "http://a.io/x/index.json,,b.json")) None
           ["index.json"; "b.json"] eq_refl).
Defined.

End IndexFiles.

(** * The additional index files in the older [BoardManager]

    The [BoardManager] of [exampleManager.ts] has the same two methods,
    but its [getAdditionalUrls] has no [else] branch: it returns what is
    configured, whatever that is. *)
Module LegacyIndexFiles.
Import Js.

Definition getAdditionalUrls (settings_additionalUrls : option json)
           (preferences : IndexFiles.Preferences) : option json :=
  let additionalUrls := IndexFiles.configured settings_additionalUrls preferences in
  if truthy additionalUrls then
    match additionalUrls with
    | Some (JStr s) => Some (JArr (map JStr (IndexFiles.split "," s)))
    | urls => urls
    end
  else additionalUrls.

Definition getAddtionalIndexFiles (url_parse : json -> outcome (option IndexFiles.Url))
           (settings_additionalUrls : option json) (preferences : IndexFiles.Preferences)
  : outcome (list string) :=
  IndexFiles.indexFilesOf url_parse (getAdditionalUrls settings_additionalUrls preferences).

(** X22. The two versions of [getAddtionalIndexFiles] agree whenever
    URLs are configured. When none is (the setting is falsy and the
    preferences have no entry, or an empty one), the older one throws
    and the newer one returns no file. *)
Theorem getAddtionalIndexFiles_without_urls
        (url_parse : json -> outcome (option IndexFiles.Url))
        (settings_additionalUrls : option json) (preferences : IndexFiles.Preferences) :
  if truthy (IndexFiles.configured settings_additionalUrls preferences)
  then getAddtionalIndexFiles url_parse settings_additionalUrls preferences
       = IndexFiles.getAddtionalIndexFiles url_parse settings_additionalUrls preferences
  else getAddtionalIndexFiles url_parse settings_additionalUrls preferences = Throws
       /\ IndexFiles.getAddtionalIndexFiles url_parse settings_additionalUrls preferences
          = Normal [].
Proof.
  unfold getAddtionalIndexFiles, IndexFiles.getAddtionalIndexFiles, getAdditionalUrls,
    IndexFiles.getAdditionalUrls.
  destruct (truthy (IndexFiles.configured settings_additionalUrls preferences)) eqn:Hc;
    [reflexivity|].
  split; [|reflexivity].
  destruct (IndexFiles.configured settings_additionalUrls preferences) as [[]|];
    try reflexivity. discriminate Hc.
Qed.

End LegacyIndexFiles.

(** * More on the examples

    The group of incompatible libraries of [parseExamplesFromLibrary],
    the shape of the trees of [parseExamples], and [loadExamples]. *)
Module ExampleProperties.
Import Js Host Examples.

(** *** The group of incompatible libraries *)
Section Incompatible.
Context (h : Host) (currentBoard : option string) (rootPath : string)
        (needParsingIncompatible : bool).

(** [entry] is what the loop pushes onto [inCompatibles] for [library],
    when it is asked to. *)
Definition incompatibleEntry (library : string) (entry : LibraryExamples) : Prop :=
  fileExistsSync h (propertiesFileOf h rootPath library) = true
  /\ exists properties children,
       parseProperties h (propertiesFileOf h rootPath library) = Normal properties
       /\ parseExamples h (examplesPathOf h rootPath library) = Normal children
       /\ children <> []
       /\ isSupported currentBoard (property "architectures" properties) = false
       /\ entry = mkLibrary library (path_join h [rootPath; library]) children.

Lemma scanLibrary_step examples inCompatibles library examples' inCompatibles' :
  scanLibrary h currentBoard rootPath needParsingIncompatible
              (examples, inCompatibles) library
  = Normal (examples', inCompatibles') ->
  exists dex dinc,
    examples' = (examples ++ dex)%list /\ inCompatibles' = (inCompatibles ++ dinc)%list
    /\ sublist (map lib_name dex) [library]
    /\ sublist (map lib_name dinc) [library]
    /\ forall e, In e dinc
                 <-> needParsingIncompatible = true /\ incompatibleEntry library e.
Proof.
  unfold scanLibrary, incompatibleEntry.
  assert (Hnone : forall P : LibraryExamples -> Prop,
            (forall e, ~ P e) ->
            exists dex dinc : list LibraryExamples,
              examples = (examples ++ dex)%list /\ inCompatibles = (inCompatibles ++ dinc)%list
              /\ sublist (map lib_name dex) [library]
              /\ sublist (map lib_name dinc) [library]
              /\ forall e, In e dinc <-> P e).
  { intros P HP. exists [], []. rewrite !app_nil_r.
    split; [reflexivity|]. split; [reflexivity|]. split; [apply sublist_nil_l|].
    split; [apply sublist_nil_l|]. intros e. split; [intros []|].
    intros He. exact (HP e He). }
  destruct (fileExistsSync h (propertiesFileOf h rootPath library)).
  2:{ intros [= <- <-]. apply Hnone. intros e (_ & [=] & _). }
  destruct (parseProperties h _) as [properties|]; [|discriminate].
  destruct (parseExamples h _) as [children|]; [|discriminate].
  destruct children as [|child children]; cbn [length Nat.eqb negb].
  { intros [= <- <-]. apply Hnone.
    intros e (_ & _ & p & c & _ & [= <-] & Hne & _). congruence. }
  destruct (isSupported currentBoard (property "architectures" properties)) eqn:Hsup.
  - intros [= <- <-]. eexists [_], []. rewrite app_nil_r.
    split; [reflexivity|]. split; [reflexivity|]. split; [reflexivity|].
    split; [apply sublist_nil_l|]. intros e. split; [intros []|].
    intros (_ & _ & p & c & [= <-] & _ & _ & Hno & _). congruence.
  - destruct needParsingIncompatible.
    + intros [= <- <-]. eexists [], [_]. rewrite app_nil_r.
      split; [reflexivity|]. split; [reflexivity|]. split; [apply sublist_nil_l|].
      split; [reflexivity|]. intros e. split.
      * intros [<-|[]]. split; [reflexivity|]. split; [reflexivity|].
        exists properties, (child :: children).
        repeat split; [discriminate|exact Hsup].
      * intros (_ & _ & p & c & [= <-] & [= <-] & _ & _ & ->). left. reflexivity.
    + intros [= <- <-]. apply Hnone. intros e [[=] _].
Qed.

Lemma scanLibraries_steps libraries examples inCompatibles examples' inCompatibles' :
  scanLibraries h currentBoard rootPath needParsingIncompatible libraries
                (examples, inCompatibles)
  = Normal (examples', inCompatibles') ->
  exists dex dinc,
    examples' = (examples ++ dex)%list /\ inCompatibles' = (inCompatibles ++ dinc)%list
    /\ sublist (map lib_name dex) libraries
    /\ sublist (map lib_name dinc) libraries
    /\ forall e, In e dinc
                 <-> needParsingIncompatible = true
                     /\ exists library, In library libraries /\ incompatibleEntry library e.
Proof.
  revert examples inCompatibles.
  induction libraries as [|library libraries IH]; intros examples inCompatibles;
    cbn [scanLibraries].
  - intros [= <- <-]. exists [], []. rewrite !app_nil_r.
    split; [reflexivity|]. split; [reflexivity|]. split; [apply sublist_nil_l|].
    split; [apply sublist_nil_l|]. intros e. split; [intros []|].
    intros (_ & l & [] & _).
  - destruct (scanLibrary h currentBoard rootPath needParsingIncompatible
                (examples, inCompatibles) library) as [[ex1 inc1]|] eqn:Hstep;
      [|discriminate].
    intros Hrest.
    destruct (scanLibrary_step _ _ _ _ _ Hstep) as (dex1 & dinc1 & -> & -> & Hs1 & Hs1' & H1).
    destruct (IH _ _ Hrest) as (dex & dinc & -> & -> & Hs & Hs' & H).
    exists (dex1 ++ dex)%list, (dinc1 ++ dinc)%list. rewrite !app_assoc.
    split; [reflexivity|]. split; [reflexivity|].
    split; [rewrite map_app; exact (sublist_app _ _ _ _ Hs1 Hs)|].
    split; [rewrite map_app; exact (sublist_app _ _ _ _ Hs1' Hs')|].
    intros e. rewrite in_app_iff, H1, H. cbn [In]. split.
    + intros [[Hn He]|(Hn & l & Hl & He)]; (split; [exact Hn|]).
      * exists library. auto.
      * exists l. auto.
    + intros (Hn & l & [<-|Hl] & He); [left; auto|]. right. split; [exact Hn|]. exists l. auto.
Qed.

(** X23. What [parseExamplesFromLibrary] returns is the compatible
    libraries, in the order of the directory, followed by at most one
    group: the group INCOMPATIBLE, which appears only when incompatible
    libraries were asked for and there is one, and which holds, in the
    order of the directory, the libraries with a library.properties
    file and an example folder that [isSupported] rejects. No library is
    on both sides. *)
Theorem parseExamplesFromLibrary_incompatible_group_is_last libraries listing :
  util_readdirSync h rootPath true = Normal libraries ->
  parseExamplesFromLibrary h currentBoard rootPath needParsingIncompatible = Normal listing ->
  exists examples inCompatibles,
    ((inCompatibles = [] /\ listing = map Library examples)
     \/ (needParsingIncompatible = true /\ inCompatibles <> []
         /\ listing = (map Library examples
                         ++ [Group "INCOMPATIBLE" "INCOMPATIBLE" inCompatibles])%list))
    /\ sublist (map lib_name examples) libraries
    /\ sublist (map lib_name inCompatibles) libraries
    /\ (forall e, In e examples
                  <-> exists library,
                        In library libraries
                        /\ compatibleEntry h currentBoard rootPath library e)
    /\ (forall e, In e inCompatibles
                  <-> needParsingIncompatible = true
                      /\ exists library,
                           In library libraries /\ incompatibleEntry library e)
    /\ (forall e, In e examples -> ~ In e inCompatibles).
Proof.
  intros Hlibs. unfold parseExamplesFromLibrary. rewrite Hlibs.
  destruct (scanLibraries h currentBoard rootPath needParsingIncompatible libraries
              ([], [])) as [[examples inCompatibles]|] eqn:Hscan; [|discriminate].
  intros Hrun. exists examples, inCompatibles.
  pose proof (scanLibraries_examples _ _ _ _ _ _ _ _ _ Hscan) as Hex.
  destruct (scanLibraries_steps _ _ _ _ _ Hscan) as (dex & dinc & Hdex & Hdinc & Hs & Hs' & Hin).
  cbn [app] in Hdex, Hdinc. subst dex dinc.
  assert (Hex' : forall e, In e examples
                           <-> exists library,
                                 In library libraries
                                 /\ compatibleEntry h currentBoard rootPath library e).
  { intros e. rewrite Hex. cbn [In]. tauto. }
  split; [|split; [exact Hs|split; [exact Hs'|split; [exact Hex'|split; [exact Hin|]]]]].
  - destruct inCompatibles as [|x inc].
    + left. split; [reflexivity|]. rewrite andb_false_r in Hrun. congruence.
    + destruct needParsingIncompatible; cbn in Hrun; injection Hrun as <-.
      * right. repeat split. discriminate.
      * exfalso. destruct (proj1 (Hin x) (or_introl eq_refl)) as [Hn _]. discriminate Hn.
  - intros x Hc Hi. apply Hex' in Hc as (l & _ & _ & p & c & Hp & _ & _ & Hsup & ->).
    apply Hin in Hi as (_ & l' & _ & _ & p' & c' & Hp' & _ & _ & Hno & [= <- _]).
    rewrite Hp in Hp'. injection Hp' as <-. congruence.
Qed.
End Incompatible.

Lemma parseExamplesFromLibrary_incompatible_group_is_last_witness :
  exists examples inCompatibles,
    ((inCompatibles = []
      /\ [Library (mkLibrary "Servo" "/home/lib/Servo" servoTree);
          Group "INCOMPATIBLE" "INCOMPATIBLE"
            [mkLibrary "Blank" "/home/lib/Blank" blankTree]]
         = map Library examples)
     \/ (true = true /\ inCompatibles <> []
         /\ [Library (mkLibrary "Servo" "/home/lib/Servo" servoTree);
             Group "INCOMPATIBLE" "INCOMPATIBLE"
               [mkLibrary "Blank" "/home/lib/Blank" blankTree]]
            = (map Library examples
                 ++ [Group "INCOMPATIBLE" "INCOMPATIBLE" inCompatibles])%list))
    /\ sublist (map lib_name examples) ["Servo"; "Bare"; "Blank"]
    /\ sublist (map lib_name inCompatibles) ["Servo"; "Bare"; "Blank"]
    /\ (forall e, In e examples
                  <-> exists library,
                        In library ["Servo"; "Bare"; "Blank"]
                        /\ compatibleEntry Sample.host (Some "avr") "/home/lib" library e)
    /\ (forall e, In e inCompatibles
                  <-> true = true
                      /\ exists library,
                           In library ["Servo"; "Bare"; "Blank"]
                           /\ incompatibleEntry Sample.host (Some "avr") "/home/lib" library e)
    /\ (forall e, In e examples -> ~ In e inCompatibles).
Proof.
  exact (parseExamplesFromLibrary_incompatible_group_is_last Sample.host (Some "avr")
           "/home/lib" true ["Servo"; "Bare"; "Blank"] _ eq_refl eq_refl).
Defined.

(** *** Which libraries are listed *)

(** The entries of an architectures field: the texts between its commas. *)
Definition entries (architectures : string) : list string :=
  IndexFiles.split "," architectures.

Lemma char_split_head_prefix sep t l ls :
  IndexFiles.split sep t = l :: ls -> exists rest, t = l ++ rest.
Proof.
  revert l ls. induction t as [|c t IH]; intros l ls; cbn [IndexFiles.split].
  - intros [= <- <-]. exists "". reflexivity.
  - destruct (Ascii.eqb c sep).
    + intros [= <- <-]. exists (String c t). reflexivity.
    + destruct (IndexFiles.split sep t) as [|l0 ls0] eqn:Hs.
      * intros [= <- <-]. destruct t; [exists ""; reflexivity|].
        cbn [IndexFiles.split] in Hs. destruct (Ascii.eqb _ sep); [discriminate|].
        destruct (IndexFiles.split sep t); discriminate.
      * intros [= <- <-]. destruct (IH l0 ls0 eq_refl) as (rest & Hrest).
        exists rest. cbn. rewrite <- Hrest. reflexivity.
Qed.

(** An entry of the field occurs in it. *)
Lemma entry_occurs a x : In x (entries a) -> occursIn x a.
Proof.
  unfold entries. revert x. induction a as [|c a IH]; intros x; cbn [IndexFiles.split].
  - intros [<-|[]]. exists "", "". reflexivity.
  - assert (Hcons : forall y, occursIn y a -> occursIn y (String c a)).
    { intros y (pre & post & ->). exists (String c pre), post. reflexivity. }
    destruct (Ascii.eqb c ",").
    + intros [<-|Hx]; [exists "", (String c a); reflexivity|]. apply Hcons, IH, Hx.
    + destruct (IndexFiles.split "," a) as [|l0 ls0] eqn:Hs.
      * intros [<-|[]]. exists "", a. reflexivity.
      * intros [<-|Hx].
        -- destruct (char_split_head_prefix "," a l0 ls0 Hs) as (rest & Hrest).
           exists "", rest. cbn. rewrite <- Hrest. reflexivity.
        -- apply Hcons, IH. right. exact Hx.
Qed.

(** The library has an entry among the compatible ones, or in a group. *)
Definition listedCompatible (listing : list Listed) (library : string) : Prop :=
  exists e, In (Library e) listing /\ lib_name e = library.

Definition listedInGroup (listing : list Listed) (library : string) : Prop :=
  exists name path group e,
    In (Group name path group) listing /\ In e group /\ lib_name e = library.

(** C6 (as amended). With the library directory listed as [libraries]:
    [parseExamplesFromLibrary] returns when the properties and examples
    of the libraries can be read. In what it returns, a library is
    listed as compatible only if it is in the directory, has a
    library.properties file and at least one example folder, and its
    architectures field is present, not empty and, when a board is
    selected, mentions the architecture of the board or the wildcard.
    Such a library is listed as compatible whenever no board is
    selected, or the architecture of the board or the wildcard is one of
    the entries of the field. A library without architectures field, or
    with an empty one, is never listed as compatible; a library without
    library.properties file or without example folder is not listed at
    all, neither as compatible nor in a group. *)
Theorem parseExamplesFromLibrary_lists_supported_libraries (h : Host)
        (currentBoard : option string) (rootPath : string)
        (needParsingIncompatible : bool) (libraries : list string) :
  util_readdirSync h rootPath true = Normal libraries ->
  ((forall library, In library libraries ->
      fileExistsSync h (propertiesFileOf h rootPath library) = true ->
      (exists properties,
         parseProperties h (propertiesFileOf h rootPath library) = Normal properties)
      /\ (exists children,
            parseExamples h (examplesPathOf h rootPath library) = Normal children)) ->
   exists listing,
     parseExamplesFromLibrary h currentBoard rootPath needParsingIncompatible
     = Normal listing)
  /\
  (forall listing,
     parseExamplesFromLibrary h currentBoard rootPath needParsingIncompatible
     = Normal listing ->
     (forall library,
        listedCompatible listing library ->
        In library libraries
        /\ fileExistsSync h (propertiesFileOf h rootPath library) = true
        /\ exists properties children a,
             parseProperties h (propertiesFileOf h rootPath library) = Normal properties
             /\ parseExamples h (examplesPathOf h rootPath library) = Normal children
             /\ children <> []
             /\ In (Library (mkLibrary library (path_join h [rootPath; library]) children))
                   listing
             /\ property "architectures" properties = Some a /\ a <> ""
             /\ match currentBoard with
                | None => True
                | Some targetArch => occursIn targetArch a \/ occursIn "*" a
                end)
     /\ (forall library properties children a,
           In library libraries ->
           fileExistsSync h (propertiesFileOf h rootPath library) = true ->
           parseProperties h (propertiesFileOf h rootPath library) = Normal properties ->
           parseExamples h (examplesPathOf h rootPath library) = Normal children ->
           children <> [] ->
           property "architectures" properties = Some a -> a <> "" ->
           match currentBoard with
           | None => True
           | Some targetArch => In targetArch (entries a) \/ In "*" (entries a)
           end ->
           In (Library (mkLibrary library (path_join h [rootPath; library]) children))
              listing)
     /\ (forall library properties,
           parseProperties h (propertiesFileOf h rootPath library) = Normal properties ->
           property "architectures" properties = None
           \/ property "architectures" properties = Some "" ->
           ~ listedCompatible listing library)
     /\ (forall library,
           fileExistsSync h (propertiesFileOf h rootPath library) = false
           \/ parseExamples h (examplesPathOf h rootPath library) = Normal [] ->
           ~ listedCompatible listing library /\ ~ listedInGroup listing library)).
Proof.
  intros Hlibs. unfold parseExamplesFromLibrary. rewrite Hlibs. split.
  - intros Hall.
    destruct (scanLibraries_returns h currentBoard rootPath needParsingIncompatible
                libraries ([], []) Hall) as ([examples inCompatibles] & ->).
    destruct (_ && _); eexists; reflexivity.
  - intros listing Hrun.
    destruct (scanLibraries h currentBoard rootPath needParsingIncompatible libraries
                ([], [])) as [[examples inCompatibles]|] eqn:Hscan; [|discriminate].
    pose proof (scanLibraries_examples _ _ _ _ _ _ _ _ _ Hscan) as Hex.
    destruct (scanLibraries_steps _ _ _ _ _ _ _ _ _ Hscan)
      as (dex & dinc & _ & Hdinc & _ & _ & Hinc).
    cbn [app] in Hdinc. subst dinc.
    assert (Hlisted : forall e, In (Library e) listing <-> In e examples).
    { intros e. destruct (_ && _); injection Hrun as <-.
      - rewrite in_app_iff, in_map_iff. cbn [In]. split.
        + intros [(e' & [= ->] & He)|[[=]|[]]]. exact He.
        + intros He. left. exists e. auto.
      - rewrite in_map_iff. split.
        + intros (e' & [= ->] & He). exact He.
        + intros He. exists e. auto. }
    assert (Hgroup : forall name path group,
              In (Group name path group) listing -> group = inCompatibles).
    { intros name path group. destruct (_ && _); injection Hrun as <-.
      - rewrite in_app_iff, in_map_iff. cbn [In].
        intros [(e' & [=] & _)|[[= _ _ ->]|[]]]. reflexivity.
      - rewrite in_map_iff. intros (e' & [=] & _). }
    assert (Hcompatible : forall library,
              listedCompatible listing library ->
              exists e, In (Library e) listing
                        /\ In library libraries
                        /\ compatibleEntry h currentBoard rootPath library e).
    { intros library (e & He & Hname). exists e. split; [exact He|].
      apply Hlisted, Hex in He. cbn [In] in He.
      destruct He as [[]|(library' & Hin & Hentry)].
      assert (library' = library); [|subst library'; auto].
      destruct Hentry as (_ & p & c & _ & _ & _ & _ & ->). exact Hname. }
    split; [|split; [|split]].
    + intros library Hl.
      destruct (Hcompatible library Hl)
        as (e & He & Hin & Hfile & properties & children & Hp & Hc & Hne & Hsup & ->).
      split; [exact Hin|]. split; [exact Hfile|].
      apply isSupported_iff in Hsup as (a & Ha & Hane & Hboard).
      exists properties, children, a. auto 10.
    + intros library properties children a Hin Hfile Hp Hc Hne Ha Hane Hboard.
      apply Hlisted, Hex. right. exists library. split; [exact Hin|].
      split; [exact Hfile|]. exists properties, children.
      split; [exact Hp|]. split; [exact Hc|]. split; [exact Hne|].
      split; [|reflexivity]. apply isSupported_iff. exists a.
      split; [exact Ha|]. split; [exact Hane|].
      destruct currentBoard as [targetArch|]; [|exact I].
      destruct Hboard as [H|H]; [left|right]; apply entry_occurs; exact H.
    + intros library properties Hp Hnone Hl.
      destruct (Hcompatible library Hl)
        as (e & _ & _ & _ & properties' & children & Hp' & _ & _ & Hsup & _).
      rewrite Hp in Hp'. injection Hp' as <-.
      apply isSupported_iff in Hsup as (a & Ha & Hane & _).
      destruct Hnone as [Hn|Hn]; rewrite Hn in Ha; [discriminate|].
      injection Ha as <-. contradiction.
    + intros library Hnot. split.
      * intros Hl.
        destruct (Hcompatible library Hl)
          as (e & _ & _ & Hfile & properties & children & _ & Hc & Hne & _).
        destruct Hnot as [Hno|Hno]; [congruence|].
        rewrite Hno in Hc. injection Hc as <-. contradiction.
      * intros (name & path & group & e & Hg & He & Hname).
        apply Hgroup in Hg. subst group.
        apply Hinc in He as (_ & library' & _ & Hfile & p & c & _ & Hc & Hne & _ & ->).
        cbn [lib_name] in Hname. subst library'.
        destruct Hnot as [Hno|Hno]; [congruence|].
        rewrite Hno in Hc. injection Hc as <-. contradiction.
Qed.

Lemma parseExamplesFromLibrary_lists_supported_libraries_witness :
  In (Library (mkLibrary "Servo" "/home/lib/Servo" servoTree))
     [Library (mkLibrary "Servo" "/home/lib/Servo" servoTree);
      Group "INCOMPATIBLE" "INCOMPATIBLE" [mkLibrary "Blank" "/home/lib/Blank" blankTree]]
  /\ ~ listedCompatible
         [Library (mkLibrary "Servo" "/home/lib/Servo" servoTree);
          Group "INCOMPATIBLE" "INCOMPATIBLE"
            [mkLibrary "Blank" "/home/lib/Blank" blankTree]]
         "Bare".
Proof.
  destruct (proj2 (parseExamplesFromLibrary_lists_supported_libraries Sample.host
                     (Some "avr") "/home/lib" true ["Servo"; "Bare"; "Blank"] eq_refl)
              _ eq_refl) as (_ & Hif & _ & Hnone).
  split.
  - exact (Hif "Servo" [("name", "Servo"); ("architectures", "avr,sam")] servoTree
             "avr,sam" (or_introl eq_refl) eq_refl eq_refl eq_refl
             ltac:(discriminate) eq_refl ltac:(discriminate)
             (or_introl (or_introl eq_refl))).
  - exact (proj1 (Hnone "Bare" (or_intror eq_refl))).
Defined.

(** *** The trees of [parseExamples] follow the folders *)

Definition name (n : IExampleNode) : string :=
  match n with mkNode nm _ _ _ => nm end.

Section TreeShape.
Context (h : Host).

(** The node [c] was made for one of [folders], a folder whose parent
    directory resolves to [parentPath]. *)
Definition fromFolder (folders : list string) (parentPath : string) (c : IExampleNode)
  : Prop :=
  exists folder,
    In folder folders
    /\ name c = path_basename h folder
    /\ path c = path_resolve h folder
    /\ path_resolve h (path_dirname h folder) = parentPath.

Definition objectFrom (folders : list string) (parentPath : string) (oc : ExampleObject)
  : Prop :=
  exists folder,
    In folder folders
    /\ o_name oc = path_basename h folder
    /\ o_path oc = path_resolve h folder
    /\ path_resolve h (path_dirname h folder) = parentPath.

(** The key under which [exampleMap] holds the object [i]. *)
Definition keyAt (rootKey : string) (i : nat) (o : ExampleObject) : string :=
  match i with 0 => rootKey | S _ => o_path o end.

Definition store_src (rootKey : string) (folders : list string)
           (store : list ExampleObject) (exampleMap : gmap string nat) : Prop :=
  0 < length store
  /\ (forall k id, exampleMap !! k = Some id ->
        exists o, store !! id = Some o /\ keyAt rootKey id o = k)
  /\ (forall i o c, store !! i = Some o -> In c (o_children o) ->
        exists oc, store !! c = Some oc /\ objectFrom folders (keyAt rootKey i o) oc).

Lemma addFolder_src rootKey folders store exampleMap folder store' exampleMap' :
  In folder folders ->
  store_src rootKey folders store exampleMap ->
  addFolder h (store, exampleMap) folder = Normal (store', exampleMap') ->
  store_src rootKey folders store' exampleMap'.
Proof.
  intros Hfolder (Hlen & Hmap & Hkids). unfold addFolder.
  destruct (exampleMap !! path_resolve h (path_dirname h folder)) as [parent|] eqn:Hkey;
    [|intros [= <- <-]; repeat split; assumption].
  destruct (store !! parent) as [parentExample|] eqn:Hparent;
    [|intros [= <- <-]; repeat split; assumption].
  destruct (o_isLeaf parentExample) eqn:Hleaf; cbn [negb];
    [intros [= <- <-]; repeat split; assumption|].
  destruct (isExampleFolder h (path_resolve h folder)) as [leaf|]; [|discriminate].
  intros [= <- <-].
  assert (Hlt : parent < length store) by (eapply lookup_lt_Some; eassumption).
  set (current := mkObject (path_basename h folder) (path_resolve h folder) leaf []).
  set (store' := <[parent := pushChild (length store) parentExample]>
                   (store ++ [current])%list).
  assert (Hkeep : forall c oc, store !! c = Some oc ->
            exists oc', store' !! c = Some oc'
                        /\ o_name oc' = o_name oc /\ o_path oc' = o_path oc
                        /\ (c <> parent -> oc' = oc)).
  { intros c oc Hc. unfold store'. destruct (decide (parent = c)) as [<-|Hne].
    - rewrite list_lookup_insert_eq by (rewrite length_app; cbn [length]; lia).
      rewrite Hparent in Hc. injection Hc as <-.
      eexists. split; [reflexivity|]. split; [reflexivity|]. split; [reflexivity|].
      intros Hbad. congruence.
    - rewrite list_lookup_insert_ne by exact Hne.
      rewrite lookup_app_l by (eapply lookup_lt_Some; eassumption).
      exists oc. auto. }
  assert (Hcurrent : store' !! length store = Some current).
  { unfold store'. rewrite list_lookup_insert_ne by lia.
    rewrite lookup_app_r by lia. rewrite Nat.sub_diag. reflexivity. }
  assert (Hparentkey : keyAt rootKey parent parentExample
                       = path_resolve h (path_dirname h folder)).
  { destruct (Hmap _ _ Hkey) as (o & Ho & Hk). congruence. }
  split; [|split].
  - unfold store'. rewrite length_insert, length_app. lia.
  - intros k id. destruct (decide (path_resolve h folder = k)) as [<-|Hne].
    + rewrite lookup_insert_eq. intros [= <-]. exists current. split; [exact Hcurrent|].
      destruct (length store); [lia|reflexivity].
    + rewrite lookup_insert_ne by exact Hne. intros Hid.
      destruct (Hmap _ _ Hid) as (o & Ho & Hk).
      destruct (Hkeep _ _ Ho) as (o' & Ho' & _ & Hpath & _).
      exists o'. split; [exact Ho'|]. destruct id; [exact Hk|]. cbn [keyAt] in *. congruence.
  - intros i o c Hi Hc.
    assert (Hold : forall o0, store !! i = Some o0 -> In c (o_children o0) ->
              keyAt rootKey i o = keyAt rootKey i o0 ->
              exists oc, store' !! c = Some oc /\ objectFrom folders (keyAt rootKey i o) oc).
    { intros o0 Ho0 Hc0 Hk. destruct (Hkids _ _ _ Ho0 Hc0) as (oc & Hoc & f & Hf & Hn & Hp & Hd).
      destruct (Hkeep _ _ Hoc) as (oc' & Hoc' & Hn' & Hp' & _).
      exists oc'. split; [exact Hoc'|]. exists f. rewrite Hn', Hp', Hk. auto. }
    unfold store' in Hi. destruct (decide (parent = i)) as [<-|Hne].
    + rewrite list_lookup_insert_eq in Hi by (rewrite length_app; cbn [length]; lia).
      injection Hi as <-. cbn [pushChild o_children] in Hc.
      apply in_app_or in Hc as [Hc|[<-|[]]].
      * apply (Hold parentExample Hparent Hc). destruct parent; reflexivity.
      * exists current. split; [exact Hcurrent|]. exists folder.
        split; [exact Hfolder|]. split; [reflexivity|]. split; [reflexivity|].
        rewrite <- Hparentkey. destruct parent; reflexivity.
    + rewrite list_lookup_insert_ne in Hi by exact Hne.
      destruct (decide (i < length store)) as [Hil|Hil].
      * rewrite lookup_app_l in Hi by exact Hil. apply (Hold o Hi Hc). reflexivity.
      * rewrite lookup_app_r in Hi by lia.
        destruct (i - length store) as [|j]; cbn in Hi; [|discriminate].
        injection Hi as <-. destruct Hc.
Qed.

Lemma addFolders_src rootKey folders todo store exampleMap store' exampleMap' :
  (forall folder, In folder todo -> In folder folders) ->
  store_src rootKey folders store exampleMap ->
  addFolders h todo (store, exampleMap) = Normal (store', exampleMap') ->
  store_src rootKey folders store' exampleMap'.
Proof.
  revert store exampleMap.
  induction todo as [|folder todo IH]; intros store exampleMap Hsub Hsrc; cbn [addFolders].
  - intros [= <- <-]. exact Hsrc.
  - destruct (addFolder h (store, exampleMap) folder) as [[store1 map1]|] eqn:Hstep;
      [|discriminate].
    apply IH; [intros f Hf; apply Hsub; right; exact Hf|].
    eapply addFolder_src; [|exact Hsrc|exact Hstep]. apply Hsub. left. reflexivity.
Qed.

Lemma Forall2_In_r {A B} (Q : A -> B -> Prop) (l : list A) (k : list B) (y : B) :
  Forall2 Q l k -> In y k -> exists x, In x l /\ Q x y.
Proof.
  induction 1 as [|x y' l k Hxy Hq IH]; [intros []|].
  intros [<-|Hy]; [exists x; split; [left; reflexivity|exact Hxy]|].
  destruct (IH Hy) as (x' & Hx' & Hq'). exists x'. split; [right; exact Hx'|exact Hq'].
Qed.

Section Reified.
Context (rootKey : string) (folders : list string)
        (store : list ExampleObject) (exampleMap : gmap string nat).
Hypothesis Hok : store_ok h store.
Hypothesis Hsrc : store_src rootKey folders store exampleMap.

(** The node of an object, and where its children come from. *)
Lemma node_of_object i o :
  store !! i = Some o ->
  exists kids,
    reify store 0 !! i = Some (mkNode (o_name o) (o_path o) (o_isLeaf o) kids)
    /\ Forall2 (fun id kid => reify store 0 !! id = Some kid) (o_children o) kids.
Proof.
  intros Hi. destruct (reify_children store 0) with (i := i) (o := o)
    as (kids & Hnode & Hkids); [|exact Hi|].
  - intros j o' Hj. destruct (Hok j o' Hj) as [Hall _]. exact Hall.
  - exists kids. split; [exact Hnode|].
    eapply Forall2_impl; [exact Hkids|]. cbn beta. intros id kid.
    rewrite Nat.sub_0_r. auto.
Qed.

Lemma object_of_node i n :
  reify store 0 !! i = Some n ->
  exists o, store !! i = Some o
            /\ n = mkNode (o_name o) (o_path o) (o_isLeaf o) (children n)
            /\ Forall2 (fun id kid => reify store 0 !! id = Some kid)
                       (o_children o) (children n).
Proof.
  intros Hn.
  assert (Hlt : i < length store).
  { rewrite <- (length_reify store 0). eapply lookup_lt_Some. exact Hn. }
  destruct (lookup_lt_is_Some_2 store i Hlt) as (o & Ho).
  destruct (node_of_object i o Ho) as (kids & Hnode & Hkids).
  rewrite Hn in Hnode. injection Hnode as ->. exists o. auto.
Qed.

Lemma child_fromFolder i n c :
  reify store 0 !! i = Some n -> In c (children n) ->
  exists o id,
    store !! i = Some o /\ i < id /\ reify store 0 !! id = Some c
    /\ fromFolder folders (keyAt rootKey i o) c.
Proof.
  intros Hn Hc. destruct (object_of_node i n Hn) as (o & Ho & _ & Hkids).
  destruct (Forall2_In_r _ _ _ c Hkids Hc) as (id & Hid & Hcid).
  exists o, id. split; [exact Ho|].
  destruct (Hok i o Ho) as [Hall _]. rewrite List.Forall_forall in Hall.
  split; [apply (Hall id Hid)|]. split; [exact Hcid|].
  destruct Hsrc as (_ & _ & Hfrom).
  destruct (Hfrom i o id Ho Hid) as (oc & Hoc & f & Hf & Hname & Hpath & Hdir).
  destruct (node_of_object id oc Hoc) as (kids & Hnode & _).
  rewrite Hcid in Hnode. injection Hnode as ->.
  exists f. cbn [name path]. auto.
Qed.

Lemma inTree_index n t i :
  inTree n t -> reify store 0 !! i = Some t -> 0 < i ->
  exists j, 0 < j /\ reify store 0 !! j = Some n.
Proof.
  intros Hin. revert i. induction Hin as [|t c Hc Hin IH]; intros i Ht Hi.
  - exists i. auto.
  - destruct (child_fromFolder i t c Ht Hc) as (o & id & _ & Hlt & Hcid & _).
    apply (IH id Hcid). lia.
Qed.

Lemma trees_fromFolder :
  (forall t, In t (rootChildren store) -> fromFolder folders rootKey t)
  /\ (forall t n c, In t (rootChildren store) -> inTree n t -> In c (children n) ->
        fromFolder folders (path n) c).
Proof.
  destruct Hsrc as (Hlen & _ & _).
  destruct (lookup_lt_is_Some_2 store 0 Hlen) as (root & Hroot).
  destruct (node_of_object 0 root Hroot) as (kids & Hnode & _).
  assert (Hkids : rootChildren store = kids).
  { unfold rootChildren. destruct (reify store 0) as [|r rest]; [discriminate|].
    cbn in Hnode. injection Hnode as ->. reflexivity. }
  assert (Htop : forall t, In t (rootChildren store) ->
            exists id, 0 < id /\ reify store 0 !! id = Some t
                       /\ fromFolder folders rootKey t).
  { intros t Ht. rewrite Hkids in Ht.
    destruct (child_fromFolder 0 _ t Hnode Ht) as (o & id & Ho & Hlt & Hid & Hfrom).
    exists id. auto. }
  split.
  - intros t Ht. destruct (Htop t Ht) as (id & _ & _ & Hfrom). exact Hfrom.
  - intros t n c Ht Hn Hc. destruct (Htop t Ht) as (id & Hid & Htid & _).
    destruct (inTree_index n t id Hn Htid Hid) as (j & Hj & Hnj).
    destruct (child_fromFolder j n c Hnj Hc) as (o & id' & Ho & _ & _ & Hfrom).
    destruct (node_of_object j o Ho) as (kids' & Hnode' & _).
    rewrite Hnj in Hnode'. injection Hnode' as ->.
    destruct j; [lia|]. exact Hfrom.
Qed.
End Reified.

(** X24. The trees of [parseExamples] follow the folders of the glob
    result: every tree returned was made for one of the folders after
    the first, one whose parent directory is the first folder; and every
    child of a node of a tree was made for such a folder whose parent
    directory is the path of the node. The node made for a folder has
    its base name as name and its resolved path as path. *)
Theorem parseExamples_trees_follow_folders rootPath first rest trees :
  glob_sync h (path_join h [rootPath; "**/**/"]) = first :: rest ->
  parseExamples h rootPath = Normal trees ->
  (forall t, In t trees -> fromFolder rest (path_resolve h first) t)
  /\ (forall t n c, In t trees -> inTree n t -> In c (children n) ->
        fromFolder rest (path n) c).
Proof.
  intros Hglob. unfold parseExamples. rewrite Hglob.
  destruct (negb _).
  { intros [= <-]. split; [intros t []|intros t n c []]. }
  destruct (addFolders h rest _) as [[store exampleMap]|] eqn:Hloop; [|discriminate].
  intros [= <-]. apply (trees_fromFolder (path_resolve h first) rest store exampleMap).
  - eapply addFolders_ok; [|exact Hloop].
    intros [|i] o; [|intros [=]]. intros [= <-]. split; [constructor|reflexivity].
  - eapply addFolders_src with (todo := rest); [auto| |exact Hloop].
    split; [cbn; lia|]. split.
    + intros k id Hk. apply lookup_singleton_Some in Hk as [<- <-].
      eexists. split; reflexivity.
    + intros [|i] o c; [|intros [=]]. intros [= <-] [].
Qed.
End TreeShape.

Lemma parseExamples_trees_follow_folders_witness :
  (forall t, In t servoTree ->
     fromFolder Sample.host
       ["/home/lib/Servo/examples/More/"; "/home/lib/Servo/examples/More/Knob/";
        "/home/lib/Servo/examples/Sweep/"; "/home/lib/Servo/examples/Sweep/data/"]
       "/home/lib/Servo/examples" t)
  /\ (forall t n c, In t servoTree -> inTree n t -> In c (children n) ->
        fromFolder Sample.host
          ["/home/lib/Servo/examples/More/"; "/home/lib/Servo/examples/More/Knob/";
           "/home/lib/Servo/examples/Sweep/"; "/home/lib/Servo/examples/Sweep/data/"]
          (path n) c).
Proof.
  exact (parseExamples_trees_follow_folders Sample.host "/home/lib/Servo/examples"
           "/home/lib/Servo/examples/" _ servoTree eq_refl eq_refl).
Defined.

(** *** [loadExamples] *)

(** The settings [loadExamples] reads. *)
Record Settings := mkSettings {
  arduinoPath : string;
  defaultExamplePath : string;
  defaultLibPath : string;
  libPath : string;
}.

(** The current board, as far as it is read: its name, and root path and
    architecture of its platform. A platform that is not installed has
    no root path, and [path.join] throws on [undefined]. *)
Record CurrentBoard := mkBoard {
  board_name : string;
  board_rootBoardPath : option string;
  board_architecture : string;
}.

(** The [children] of a group are trees for the built-in examples and
    library listings for the others. *)
Inductive GroupChildren : Type :=
| Nodes (trees : list IExampleNode)
| Listing (listing : list Listed).

Record ExampleGroup := mkGroup {
  g_name : string;
  g_path : string;
  g_children : GroupChildren;
}.

Section Load.
Context (h : Host) (settings : Settings) (currentBoard : option CurrentBoard).

Definition targetArch : option string := option_map board_architecture currentBoard.

(** The [if (currentBoard)] statement, on [examples]. *)
Definition boardExamples : M (list ExampleGroup) unit :=
  match currentBoard with
  | None => ret tt
  | Some board =>
      (let* root := asPathSegment (option_map JStr (board_rootBoardPath board)) in
       let* children :=
         parseExamplesFromLibrary h targetArch (path_join h [root; "libraries"]) false in
       push (mkGroup ("Examples for " ++ board_name board)
               (path_join h [root; "libraries"]) (Listing children)))%stmt
  end.

Definition loadExamples_body : M (list ExampleGroup) unit :=
  (let* builtin := parseExamples h (defaultExamplePath settings) in
   bind (push (mkGroup "Built-in Examples"
                 (path_join h [arduinoPath settings; "examples"]) (Nodes builtin)))
     (fun _ =>
   let* anyBoard := parseExamplesFromLibrary h targetArch (defaultLibPath settings) false in
   bind (push (mkGroup "Examples for any board"
                 (path_join h [arduinoPath settings; "libraries"]) (Listing anyBoard)))
     (fun _ =>
   bind boardExamples (fun _ =>
   let* custom := parseExamplesFromLibrary h targetArch (libPath settings) true in
   push (mkGroup "Examples from Custom Libraries" (libPath settings) (Listing custom))))))%stmt.

(** The promise [loadExamples] returns is fulfilled with [examples] or
    rejected. *)
Definition loadExamples : outcome (list ExampleGroup) :=
  match loadExamples_body [] with
  | (Normal _, examples) => Normal examples
  | (Throws, _) => Throws
  end.

Definition isLibrary (x : Listed) : Prop := exists l, x = Library l.

Lemma unasked_listing_has_no_group rootPath listing :
  parseExamplesFromLibrary h targetArch rootPath false = Normal listing ->
  Forall isLibrary listing.
Proof.
  unfold parseExamplesFromLibrary.
  destruct (util_readdirSync h rootPath true) as [libraries|]; [|discriminate].
  destruct (scanLibraries h targetArch rootPath false libraries ([], []))
    as [[examples inCompatibles]|]; [|discriminate].
  cbn [andb]. intros [= <-]. apply List.Forall_forall. intros x Hx.
  apply in_map_iff in Hx as (l & <- & _). exists l. reflexivity.
Qed.

(** X25. When [loadExamples] returns: the groups are the built-in
    examples, the examples for any board, the examples for the current
    board if there is one (its platform then has a root path), and the
    examples from the custom libraries, in this order; and only the last
    of them can hold a group of incompatible libraries. *)
Theorem loadExamples_incompatible_only_in_custom_libraries examples :
  loadExamples = Normal examples ->
  exists builtin anyBoard forBoard custom,
    examples
    = ([mkGroup "Built-in Examples" (path_join h [arduinoPath settings; "examples"])
          (Nodes builtin);
        mkGroup "Examples for any board" (path_join h [arduinoPath settings; "libraries"])
          (Listing anyBoard)]
         ++ forBoard
         ++ [mkGroup "Examples from Custom Libraries" (libPath settings) (Listing custom)])%list
    /\ parseExamples h (defaultExamplePath settings) = Normal builtin
    /\ Forall isLibrary anyBoard
    /\ match currentBoard with
       | None => forBoard = []
       | Some board =>
           exists root listing,
             board_rootBoardPath board = Some root
             /\ forBoard = [mkGroup ("Examples for " ++ board_name board)
                              (path_join h [root; "libraries"]) (Listing listing)]
             /\ Forall isLibrary listing
       end
    /\ parseExamplesFromLibrary h targetArch (libPath settings) true = Normal custom.
Proof.
  unfold loadExamples, loadExamples_body, bind, eval, push.
  destruct (parseExamples h (defaultExamplePath settings)) as [builtin|]; [|discriminate].
  destruct (parseExamplesFromLibrary h targetArch (defaultLibPath settings) false)
    as [anyBoard|] eqn:Hany; [|discriminate].
  cbn [app]. unfold boardExamples.
  destruct currentBoard as [board|].
  - unfold bind, eval, push.
    destruct (board_rootBoardPath board) as [root|]; cbn [option_map asPathSegment];
      [|discriminate].
    destruct (parseExamplesFromLibrary h targetArch (path_join h [root; "libraries"]) false)
      as [listing|] eqn:Hboard; [|discriminate].
    destruct (parseExamplesFromLibrary h targetArch (libPath settings) true)
      as [custom|]; [|discriminate].
    intros [= <-]. exists builtin, anyBoard. eexists [_], custom.
    split; [reflexivity|]. split; [reflexivity|].
    split; [exact (unasked_listing_has_no_group _ _ Hany)|].
    split; [|reflexivity]. exists root, listing.
    split; [reflexivity|]. split; [reflexivity|].
    exact (unasked_listing_has_no_group _ _ Hboard).
  - unfold ret.
    destruct (parseExamplesFromLibrary h targetArch (libPath settings) true)
      as [custom|]; [|discriminate].
    intros [= <-]. exists builtin, anyBoard, [], custom.
    split; [reflexivity|]. split; [reflexivity|].
    split; [exact (unasked_listing_has_no_group _ _ Hany)|].
    split; reflexivity.
Qed.
End Load.

Definition sampleSettings : Settings :=
  mkSettings "/ide" "/home/lib/Servo/examples" "/home/lib" "/home/lib".

Lemma loadExamples_incompatible_only_in_custom_libraries_witness :
  exists builtin anyBoard forBoard custom,
    [mkGroup "Built-in Examples" "/ide/examples" (Nodes servoTree);
     mkGroup "Examples for any board" "/ide/libraries"
       (Listing [Library (mkLibrary "Servo" "/home/lib/Servo" servoTree)]);
     mkGroup "Examples from Custom Libraries" "/home/lib"
       (Listing [Library (mkLibrary "Servo" "/home/lib/Servo" servoTree);
                 Group "INCOMPATIBLE" "INCOMPATIBLE"
                   [mkLibrary "Blank" "/home/lib/Blank" blankTree]])]
    = ([mkGroup "Built-in Examples" "/ide/examples" (Nodes builtin);
        mkGroup "Examples for any board" "/ide/libraries" (Listing anyBoard)]
         ++ forBoard
         ++ [mkGroup "Examples from Custom Libraries" "/home/lib" (Listing custom)])%list
    /\ parseExamples Sample.host "/home/lib/Servo/examples" = Normal builtin
    /\ Forall isLibrary anyBoard
    /\ forBoard = []
    /\ parseExamplesFromLibrary Sample.host None "/home/lib" true = Normal custom.
Proof.
  exact (loadExamples_incompatible_only_in_custom_libraries Sample.host sampleSettings None
           _ eq_refl).
Defined.

End ExampleProperties.

(** * The other handlers of the web server

    The handlers of [ArduinoContentProvider] for the POST routes besides
    /api/installboard, and [addHandlerWithLogger], which wraps every
    handler. A handler reads [req.body], performs actions on the IDE and
    answers; reading a field of a missing body throws. *)
Module WebHandlers.
Import Js.

(** A value caught by a handler, by what the handlers do with it: what
    the template holes [${error.code}], [${error.stderr}] and [${error}]
    evaluate to. A hole gives a text (the text [undefined] for a field
    the value does not have) or throws: reading a field of [null] or
    [undefined] throws, and so does the conversion of a value that has
    no string form. *)
Record JsError := mkError {
  code : outcome string;
  stderr : outcome string;
  text : outcome string;
}.



(** How a call ends, as the handler sees it: an awaited call is
    fulfilled or rejected with a value; a call that is not awaited
    ([openExample], [updateConfig]) returns or throws one. *)
Inductive Completion : Type :=
| Resolved
| Rejected (error : JsError).

(** The calls the handlers make, by their arguments. [OpenLink] stands
    for [vscode.Uri.parse] and the command run on its result. *)
Inductive Action : Type :=
| UninstallBoard (boardName packagePath : option json)
| OpenLink (link : option json)
| OpenGlobalSettings
| InstallLibrary (libraryName version : option json)
| UninstallLibrary (libraryName libraryPath : option json)
| AddLibPath (libraryPath : option json)
| IncludeLibrary (libraryPath : option json)
| UpdateConfig (configId optionId : option json)
| OpenExample (examplePath : option json).

Definition bad (message : string) : WebBridge.Response :=
  WebBridge.mkResponse 400 (WebBridge.Text message).






Section Handlers.
(** How an action ends, given the actions performed before it. *)
Variable perform : list Action -> Action -> Completion.
(** Whether [boardManager.currentBoard] is set. *)
Variable currentBoard : bool.


Definition call (a : Action) : M (list Action) Completion :=
  fun calls => (Normal (perform calls a), (calls ++ [a])%list).














(** ** [addHandlerWithLogger] *)



End Handlers.

(** ** Properties *)









Section HandlerFacts.
Variable perform : list Action -> Action -> Completion.
Variable currentBoard : bool.






End HandlerFacts.









End WebHandlers.

(** * Activation

    [ArduinoActivator.activate]: the first call starts the
    initialization and keeps its promise in [_initializePromise]; every
    later call awaits that promise. *)
Module Activator.
Import Js.

(** The calls the initialization awaits. *)
Inductive Step : Type :=
| settings_initialize
| app_initialize
| loadContext
| loadPackages.

(** What the initialization leaves behind: the steps started, and
    whether [ArduinoContext.boardManager] and [ArduinoContext.arduinoApp]
    are set. *)
Record Context := mkContext {
  started : list Step;
  boardManager : bool;
  arduinoApp : bool;
}.

(** A promise is given by how it settles: fulfilled ([Normal]) or
    rejected ([Throws]). *)
Record State := mkState {
  _initializePromise : option (outcome unit);
  context : Context;
}.

Definition initial : State := mkState None (mkContext [] false false).

Section Activate.
(** How the promise of each step settles. *)
Variable step : Step -> outcome unit.

Definition await (s : Step) : M Context unit :=
  fun c => (step s, mkContext (started c ++ [s]) (boardManager c) (arduinoApp c)).

Definition setBoardManager : M Context unit :=
  fun c => (Normal tt, mkContext (started c) true (arduinoApp c)).

Definition setArduinoApp : M Context unit :=
  fun c => (Normal tt, mkContext (started c) (boardManager c) true).

(** The body of the [async] function that is called at once. *)
Definition initialize : M Context unit :=
  bind (await settings_initialize) (fun _ =>
  bind (await app_initialize) (fun _ =>
  bind (await loadContext) (fun _ =>
  bind setBoardManager (fun _ =>
  bind (await loadPackages) (fun _ =>
  setArduinoApp))))).

(** [activate()]: how the promise it returns settles, and the state it
    leaves. *)
Definition activate (st : State) : outcome unit * State :=
  match _initializePromise st with
  | Some promise => (promise, st)
  | None =>
      let '(promise, c) := initialize (context st) in
      (promise, mkState (Some promise) c)
  end.

(** [n] calls of [activate], one after the other. *)
Fixpoint activations (n : nat) (st : State) : list (outcome unit) * State :=
  match n with
  | 0 => ([], st)
  | S n' =>
      let '(promise, st') := activate st in
      let '(promises, st'') := activations n' st' in
      (promise :: promises, st'')
  end.

(** ** Properties *)

(** The steps up to the first that is rejected, that one included. *)
Fixpoint upToRejection (steps : list Step) : list Step :=
  match steps with
  | [] => []
  | s :: steps' =>
      match step s with
      | Normal _ => s :: upToRejection steps'
      | Throws => [s]
      end
  end.

Definition allFulfilled (steps : list Step) : bool :=
  forallb (fun s => match step s with Normal _ => true | Throws => false end) steps.

Lemma activate_again st promise st' :
  activate st = (promise, st') -> activate st' = (promise, st').
Proof.
  unfold activate. destruct (_initializePromise st) as [p|] eqn:Hp.
  - intros [= <- <-]. rewrite Hp. reflexivity.
  - destruct (initialize (context st)) as [p c]. intros [= <- <-]. reflexivity.
Qed.

Lemma activations_settled n st promise :
  activate st = (promise, st) -> activations n st = (repeat promise n, st).
Proof.
  intros Hst. induction n as [|n IH]; cbn [activations repeat]; [reflexivity|].
  rewrite Hst, IH. reflexivity.
Qed.

Lemma first_activation :
  exists promise c,
    activate initial = (promise, mkState (Some promise) c)
    /\ promise = (if allFulfilled [settings_initialize; app_initialize; loadContext;
                                   loadPackages]
                  then Normal tt else Throws)
    /\ started c
       = upToRejection [settings_initialize; app_initialize; loadContext; loadPackages]
    /\ boardManager c = allFulfilled [settings_initialize; app_initialize; loadContext]
    /\ arduinoApp c
       = allFulfilled [settings_initialize; app_initialize; loadContext; loadPackages].
Proof.
  unfold activate, initial, initialize, bind, await, setBoardManager, setArduinoApp,
    allFulfilled.
  cbn [_initializePromise context started boardManager arduinoApp app forallb upToRejection].
  destruct (step settings_initialize) as [[]|]; cbn [andb];
    [|eexists _, _; repeat split; reflexivity].
  destruct (step app_initialize) as [[]|]; cbn [andb];
    [|eexists _, _; repeat split; reflexivity].
  destruct (step loadContext) as [[]|]; cbn [andb];
    [|eexists _, _; repeat split; reflexivity].
  destruct (step loadPackages) as [[]|]; cbn [andb];
    eexists _, _; repeat split; reflexivity.
Qed.

(** X28. However often [activate] is called, the initialization runs
    once: its steps are started once, in their order and up to the
    first that is rejected, and every call settles as the first did, so
    that a failed initialization is never tried again.
    [ArduinoContext.arduinoApp] is set exactly when all four steps are
    fulfilled, [ArduinoContext.boardManager] when the first three are. *)
Theorem activate_initializes_once n :
  exists promise c,
    activations (S n) initial = (repeat promise (S n), mkState (Some promise) c)
    /\ promise = (if allFulfilled [settings_initialize; app_initialize; loadContext;
                                   loadPackages]
                  then Normal tt else Throws)
    /\ started c
       = upToRejection [settings_initialize; app_initialize; loadContext; loadPackages]
    /\ boardManager c = allFulfilled [settings_initialize; app_initialize; loadContext]
    /\ arduinoApp c
       = allFulfilled [settings_initialize; app_initialize; loadContext; loadPackages].
Proof.
  destruct first_activation as (promise & c & Hfirst & Hfacts).
  exists promise, c. split; [|exact Hfacts].
  cbn [activations repeat]. rewrite Hfirst.
  rewrite (activations_settled n _ promise (activate_again _ _ _ Hfirst)). reflexivity.
Qed.
End Activate.

End Activator.

(** * The order of the board picker

    [changeBoardType] offers the boards sorted by the function it gives
    to [sort]: by the name of the platform first and by the name of the
    board next. *)
Module BoardPicker.

(** A [QuickPickItem], with the two properties that are compared:
    [label] is the name of the board and [description] the name of its
    platform. Either is a string or, when the name is missing,
    [undefined]. *)
Record QuickPickItem := mkItem {
  label : option string;
  description : option string;
}.

(** [a === b] on values that are strings or [undefined]. *)
Definition strictEquals (a b : option string) : bool :=
  match a, b with
  | Some x, Some y => String.eqb x y
  | None, None => true
  | _, _ => false
  end.

(** [a > b]: on strings the order of the dictionary, by character
    codes; false as soon as one side is [undefined]. *)
Definition gt (a b : option string) : bool :=
  match a, b with
  | Some x, Some y => match String.compare x y with Gt => true | _ => false end
  | _, _ => false
  end.

(** The function given to [sort]. *)
Definition changeBoardType_compare (a b : QuickPickItem) : Z :=
  if strictEquals (description a) (description b) then
    if strictEquals (label a) (label b) then 0%Z
    else if gt (label a) (label b) then 1%Z else (-1)%Z
  else if gt (description a) (description b) then 1%Z else (-1)%Z.

(** ** Properties *)

(** Both names are there. *)
Definition named (a : QuickPickItem) : bool :=
  match label a, description a with
  | Some _, Some _ => true
  | _, _ => false
  end.

Lemma ascii_compare_refl c : Ascii.compare c c = Eq.
Proof. unfold Ascii.compare. apply N.compare_refl. Qed.

Lemma compare_refl s : String.compare s s = Eq.
Proof.
  induction s as [|c s IH]; cbn [String.compare]; [reflexivity|].
  rewrite ascii_compare_refl. exact IH.
Qed.

Lemma ascii_compare_Gt_trans x y z :
  Ascii.compare x y = Gt -> Ascii.compare y z = Gt -> Ascii.compare x z = Gt.
Proof.
  unfold Ascii.compare. rewrite !N.compare_gt_iff. intros Hxy Hyz.
  exact (N.lt_trans _ _ _ Hyz Hxy).
Qed.

Lemma compare_Gt_trans a : forall b c,
  String.compare a b = Gt -> String.compare b c = Gt -> String.compare a c = Gt.
Proof.
  induction a as [|x a IH]; intros [|y b] [|z c]; cbn [String.compare];
    try discriminate; try reflexivity.
  destruct (Ascii.compare x y) eqn:Hxy; try discriminate;
    destruct (Ascii.compare y z) eqn:Hyz; try discriminate; intros Hab Hbc.
  - apply Ascii.compare_eq_iff in Hxy, Hyz. subst y z.
    rewrite ascii_compare_refl. exact (IH _ _ Hab Hbc).
  - apply Ascii.compare_eq_iff in Hxy. subst y. rewrite Hyz. reflexivity.
  - apply Ascii.compare_eq_iff in Hyz. subst z. rewrite Hxy. reflexivity.
  - rewrite (ascii_compare_Gt_trans _ _ _ Hxy Hyz). reflexivity.
Qed.

(** Two pairs of names compared: description first, label next. *)
Definition order (a b : string * string) : comparison :=
  match String.compare (snd a) (snd b) with
  | Eq => String.compare (fst a) (fst b)
  | c => c
  end.

(** The label and the description of a named item. *)
Definition names (a : QuickPickItem) : string * string :=
  (match label a with Some l => l | None => "" end,
   match description a with Some d => d | None => "" end).

Lemma compare_order a b :
  named a = true -> named b = true ->
  changeBoardType_compare a b
  = match order (names a) (names b) with Eq => 0%Z | Lt => (-1)%Z | Gt => 1%Z end.
Proof.
  destruct a as [[la|] [da|]], b as [[lb|] [db|]]; try discriminate. intros _ _.
  unfold changeBoardType_compare, order, names, gt, strictEquals.
  cbn [label description fst snd].
  assert (Heqb : forall s t, String.eqb s t = match String.compare s t with
                                               | Eq => true | _ => false end).
  { intros s t. destruct (String.eqb_spec s t) as [->|Hne].
    - rewrite compare_refl. reflexivity.
    - destruct (String.compare s t) eqn:Hc; try reflexivity.
      apply String.compare_eq_iff in Hc. contradiction. }
  rewrite !Heqb.
  destruct (String.compare da db); try reflexivity.
  destruct (String.compare la lb); reflexivity.
Qed.

Lemma order_antisym a b : order a b = CompOpp (order b a).
Proof.
  unfold order.
  rewrite (String.compare_antisym (snd a) (snd b)).
  rewrite (String.compare_antisym (fst a) (fst b)).
  destruct (String.compare (snd b) (snd a)); cbn [CompOpp]; reflexivity.
Qed.

Lemma order_Eq a b : order a b = Eq <-> a = b.
Proof.
  unfold order. destruct a as [la da], b as [lb db]. cbn [fst snd]. split.
  - destruct (String.compare da db) eqn:Hd; try discriminate.
    intros Hl. apply String.compare_eq_iff in Hd, Hl. congruence.
  - intros [= -> ->]. rewrite !compare_refl. reflexivity.
Qed.

Lemma order_Gt_trans a b c : order a b = Gt -> order b c = Gt -> order a c = Gt.
Proof.
  unfold order.
  destruct (String.compare (snd a) (snd b)) eqn:Hab; try discriminate;
    destruct (String.compare (snd b) (snd c)) eqn:Hbc; try discriminate;
    intros Hlab Hlbc.
  - apply String.compare_eq_iff in Hab, Hbc. rewrite Hab, Hbc, compare_refl.
    exact (compare_Gt_trans _ _ _ Hlab Hlbc).
  - apply String.compare_eq_iff in Hab. rewrite Hab, Hbc. reflexivity.
  - apply String.compare_eq_iff in Hbc. rewrite <- Hbc, Hab. reflexivity.
  - rewrite (compare_Gt_trans _ _ _ Hab Hbc). reflexivity.
Qed.

Lemma names_inj a b : named a = true -> named b = true -> names a = names b -> a = b.
Proof.
  destruct a as [[la|] [da|]], b as [[lb|] [db|]]; try discriminate.
  intros _ _ [= -> ->]. reflexivity.
Qed.

(** X29. On the items that have both names, the function
    [changeBoardType] sorts with is a total order: two items compare as
    0 exactly when they are the same; swapping the arguments negates the
    result; the relation "at most 0" is transitive; and an item comes
    before another exactly when its description is the smaller one or,
    the descriptions being the same, its label is. It is no order on all
    items: an item without label (a board without name) compares as -1
    with every labelled item of the same description, in both
    directions. *)
Theorem changeBoardType_compare_orders_named_items (a b c : QuickPickItem) :
  named a = true -> named b = true -> named c = true ->
  (changeBoardType_compare a b = 0%Z <-> a = b)
  /\ changeBoardType_compare b a = (- changeBoardType_compare a b)%Z
  /\ ((changeBoardType_compare a b <= 0)%Z -> (changeBoardType_compare b c <= 0)%Z ->
      (changeBoardType_compare a c <= 0)%Z)
  /\ (changeBoardType_compare a b = (-1)%Z
      <-> gt (description b) (description a) = true
          \/ (description a = description b /\ gt (label b) (label a) = true))
  /\ (forall u, label u = None -> description u = description a ->
                changeBoardType_compare u a = (-1)%Z
                /\ changeBoardType_compare a u = (-1)%Z).
Proof.
  intros Ha Hb Hc.
  rewrite !compare_order by assumption. split; [|split; [|split; [|split]]].
  - split.
    + destruct (order (names a) (names b)) eqn:Ho; try discriminate.
      intros _. apply names_inj; [assumption..|]. apply order_Eq. exact Ho.
    + intros ->. rewrite (proj2 (order_Eq (names b) (names b)) eq_refl). reflexivity.
  - rewrite (order_antisym (names b) (names a)).
    destruct (order (names a) (names b)); reflexivity.
  - destruct (order (names a) (names b)) eqn:Hab; [| |lia].
    + apply order_Eq in Hab. rewrite Hab. auto.
    + destruct (order (names b) (names c)) eqn:Hbc; [| |lia]; intros _ _.
      * apply order_Eq in Hbc. rewrite <- Hbc, Hab. lia.
      * rewrite order_antisym in Hab, Hbc.
        destruct (order (names b) (names a)) eqn:Hba; try discriminate.
        destruct (order (names c) (names b)) eqn:Hcb; try discriminate.
        rewrite order_antisym, (order_Gt_trans _ _ _ Hcb Hba). cbn [CompOpp]. lia.
  - destruct a as [[la|] [da|]], b as [[lb|] [db|]]; try discriminate.
    unfold order, names, gt. cbn [label description fst snd].
    rewrite (String.compare_antisym da db), (String.compare_antisym la lb).
    destruct (String.compare db da) eqn:Hd; cbn [CompOpp].
    + apply String.compare_eq_iff in Hd. subst db.
      destruct (String.compare lb la); cbn [CompOpp]; split; try discriminate;
        try (intros [H|[_ H]]; discriminate); auto.
    + split; [discriminate|]. intros [H|[[= H] _]]; [discriminate|].
      rewrite H, compare_refl in Hd. discriminate.
    + split; auto.
  - intros u Hl Hd. destruct a as [[la|] [da|]]; try discriminate.
    destruct u as [lu du]. cbn [label description] in Hl, Hd. subst lu du.
    unfold changeBoardType_compare. cbn [label description strictEquals gt].
    rewrite String.eqb_refl. split; reflexivity.
Qed.

Definition uno : QuickPickItem := mkItem (Some "Arduino Uno") (Some "Arduino AVR Boards").
Definition nano : QuickPickItem := mkItem (Some "Arduino Nano") (Some "Arduino AVR Boards").
Definition due : QuickPickItem := mkItem (Some "Arduino Due") (Some "Arduino SAM Boards").

Lemma changeBoardType_compare_orders_named_items_witness :
  changeBoardType_compare nano uno = (- changeBoardType_compare uno nano)%Z
  /\ changeBoardType_compare (mkItem None (Some "Arduino AVR Boards")) uno = (-1)%Z
  /\ changeBoardType_compare uno (mkItem None (Some "Arduino AVR Boards")) = (-1)%Z.
Proof.
  pose proof (changeBoardType_compare_orders_named_items uno nano due
                eq_refl eq_refl eq_refl) as (_ & Hswap & _ & _ & Hnone).
  split; [exact Hswap|].
  exact (Hnone (mkItem None (Some "Arduino AVR Boards")) eq_refl eq_refl).
Defined.

End BoardPicker.

(** * The package index in the older [BoardManager]

    The [parsePackageIndex] of [exampleManager.ts] pushes the versions
    of the entries it merges, as the newer one does, but leaves the
    boards of the platform alone. *)
Module LegacyIndex.
Import Arrays PackageIndex.

Section Index.
Context {Board : Type}.
Local Abbreviation Plat := (IPlatform Board).
Local Abbreviation Ent := (RawPackage Board * RawPlatform Board)%type.

(** The [if (addedPlatform)] branch: the version is pushed. *)
Definition mergeInto (plat : RawPlatform Board) (addedPlatform : Plat) : Plat :=
  mkPlatform (name addedPlatform) (architecture addedPlatform) (version addedPlatform)
             (versions addedPlatform ++ [raw_version plat])
             (boards addedPlatform)
             (package_name addedPlatform).

(** The body of [pkg.platforms.forEach]. *)
Definition addPlatform (pkg : RawPackage Board) (_platforms : list Plat)
           (plat : RawPlatform Board) : list Plat :=
  match List.find (samePlatform pkg plat) _platforms with
  | Some _ => update_first (samePlatform pkg plat) (mergeInto plat) _platforms
  | None => (_platforms ++ [firstSeen pkg plat])%list
  end.

Definition parsePackageIndex (packages : list (RawPackage Board))
           (_platforms : list Plat) : list Plat :=
  fold_left
    (fun acc pkg => fold_left (addPlatform pkg) (pkg_platforms pkg) acc)
    packages _platforms.

(** Calls of [parsePackageIndex], one index file after the other, from
    an empty [_platforms]. *)
Definition parseIndexFiles (indexFiles : list (list (RawPackage Board))) : list Plat :=
  fold_left (fun acc rawModel => parsePackageIndex rawModel acc) indexFiles [].

(** ** Properties *)

Definition addEntry (acc : list Plat) (e : Ent) : list Plat :=
  addPlatform (fst e) acc (snd e).

Lemma legacy_parseIndexFiles_entries (indexFiles : list (list (RawPackage Board))) :
  parseIndexFiles indexFiles = fold_left addEntry (allEntries indexFiles) [].
Proof.
  unfold parseIndexFiles, allEntries. generalize (@nil Plat) as acc.
  induction indexFiles as [|f fs IH]; intros acc; simpl; [reflexivity|].
  rewrite fold_left_app, IH. f_equal. clear.
  unfold parsePackageIndex, entriesOf. revert acc.
  induction f as [|pkg f IH]; intros acc; simpl; [reflexivity|].
  rewrite fold_left_app, IH. f_equal. clear.
  revert acc. induction (pkg_platforms pkg) as [|plat l IH]; intros acc; simpl; [reflexivity|].
  apply IH.
Qed.

Variable boardName : Board -> string.

(** The older platform [o] and the newer one [n] differ in that [n] has
    more boards. *)
Definition extendedBy (o n : Plat) : Prop :=
  name o = name n /\ architecture o = architecture n /\ version o = version n
  /\ versions o = versions n /\ package_name o = package_name n
  /\ exists more, boards n = (boards o ++ more)%list.

(** The boards of [o] are those of the first entry of its package and
    architecture. *)
Definition boardsOfFirst (es : list Ent) (o : Plat) : Prop :=
  exists e,
    List.find (entryHasKey (package_name o, architecture o)) es = Some e
    /\ boards o = raw_boards (snd e).

Lemma union_extends {A} (compare : A -> A -> bool) (a b : list A) :
  exists more, union a b compare = (a ++ more)%list.
Proof.
  induction b as [|x b (more & IH)] using rev_ind.
  - exists []. rewrite app_nil_r. reflexivity.
  - rewrite union_snoc. destruct (existsb _ _); [exists more; exact IH|].
    exists (more ++ [x])%list. rewrite IH, app_assoc. reflexivity.
Qed.

Lemma extendedBy_samePlatform pkg plat o n :
  extendedBy o n -> samePlatform pkg plat o = samePlatform pkg plat n.
Proof. intros (_ & Ha & _ & _ & Hp & _). unfold samePlatform. rewrite Ha, Hp. reflexivity. Qed.

Lemma extendedBy_mergeInto plat o n :
  extendedBy o n -> extendedBy (mergeInto plat o) (PackageIndex.mergeInto boardName plat n).
Proof.
  intros (Hn & Ha & Hv & Hvs & Hp & more & Hb). unfold extendedBy. cbn.
  rewrite Hvs, Hb. repeat (split; [assumption || reflexivity|]).
  destruct (union_extends (sameBoardName boardName) (boards o ++ more) (raw_boards plat))
    as (more' & ->).
  exists (more ++ more')%list. rewrite app_assoc. reflexivity.
Qed.

Lemma extendedBy_step pkg plat olds news :
  Forall2 extendedBy olds news ->
  Forall2 extendedBy (addPlatform pkg olds plat)
                     (PackageIndex.addPlatform boardName pkg news plat).
Proof.
  intros Hall. unfold addPlatform, PackageIndex.addPlatform.
  induction Hall as [|o n olds news Hon Hall IH]; cbn [List.find update_first app].
  - constructor; [|constructor]. unfold extendedBy. cbn.
    repeat (split; [reflexivity|]). exists []. rewrite app_nil_r. reflexivity.
  - rewrite <- (extendedBy_samePlatform pkg plat o n Hon).
    destruct (samePlatform pkg plat o).
    + constructor; [apply extendedBy_mergeInto; exact Hon|exact Hall].
    + destruct (List.find (samePlatform pkg plat) olds),
               (List.find (samePlatform pkg plat) news);
        constructor; assumption.
Qed.

Lemma find_app_Some {A} (q : A -> bool) (l l' : list A) x :
  List.find q l = Some x -> List.find q (l ++ l') = Some x.
Proof.
  induction l as [|y l IH]; cbn [List.find app]; [discriminate|].
  destruct (q y); auto.
Qed.

Lemma find_app_None {A} (q : A -> bool) (l l' : list A) :
  List.find q l = None -> List.find q (l ++ l') = List.find q l'.
Proof.
  induction l as [|y l IH]; cbn [List.find app]; [reflexivity|].
  destruct (q y); [discriminate|auto].
Qed.

Definition platKey (p : Plat) : string * string := (package_name p, architecture p).

Lemma update_first_keeps (q : Plat -> bool) (plat : RawPlatform Board) (P : Plat -> Prop)
      (l : list Plat) :
  (forall p, P p -> P (mergeInto plat p)) ->
  Forall P l ->
  Forall P (update_first q (mergeInto plat) l)
  /\ map platKey (update_first q (mergeInto plat) l) = map platKey l.
Proof.
  intros HP. induction 1 as [|y l Hy Hl [IH1 IH2]]; cbn [update_first map].
  - split; [constructor|reflexivity].
  - destruct (q y).
    + split; [constructor; auto|reflexivity].
    + split; [constructor; auto|]. cbn [map]. rewrite IH2. reflexivity.
Qed.

Lemma fold_addEntry_first (es : list Ent) :
  let olds := fold_left addEntry es [] in
  (forall e, In e es -> In (keyOf e) (map platKey olds))
  /\ Forall (boardsOfFirst es) olds.
Proof.
  induction es as [|e es [Hkeys Hfirst]] using rev_ind.
  - split; [intros e []|constructor].
  - cbv zeta. rewrite fold_left_app. cbn [fold_left].
    set (olds := fold_left addEntry es []) in *.
    assert (Hgrow : Forall (boardsOfFirst (es ++ [e])) olds).
    { eapply List.Forall_impl; [|exact Hfirst].
      intros p (e0 & Hfind & Hb). exists e0. split; [|exact Hb].
      apply find_app_Some. exact Hfind. }
    unfold addEntry, addPlatform.
    destruct (List.find (samePlatform (fst e) (snd e)) olds) as [x|] eqn:Hfind.
    + destruct (update_first_keeps (samePlatform (fst e) (snd e)) (snd e)
                  (boardsOfFirst (es ++ [e])) olds) as [Hall Hmap]; [|exact Hgrow|].
      { intros p Hp. exact Hp. }
      split; [|exact Hall]. rewrite Hmap. intros e' He'.
      apply in_app_or in He' as [He'|[<-|[]]]; [apply Hkeys; exact He'|].
      apply find_some in Hfind as [Hin Hq]. apply in_map_iff. exists x.
      split; [|exact Hin].
      rewrite samePlatform_key in Hq. apply platHasKey_iff in Hq. exact Hq.
    + split.
      * intros e' He'. rewrite map_app. apply in_or_app.
        apply in_app_or in He' as [He'|[<-|[]]]; [left; apply Hkeys; exact He'|].
        right. left. reflexivity.
      * apply Forall_app. split; [exact Hgrow|]. constructor; [|constructor].
        exists e. split; [|reflexivity]. cbn [firstSeen package_name architecture].
        assert (Hnone : List.find (entryHasKey (keyOf e)) es = None).
        { destruct (List.find (entryHasKey (keyOf e)) es) as [e0|] eqn:He0; [|reflexivity].
          apply find_some in He0 as [Hin Hk]. apply entryHasKey_iff in Hk.
          specialize (Hkeys e0 Hin). rewrite Hk in Hkeys.
          apply in_map_iff in Hkeys as (p & Hp & Hpin).
          assert (Hq : samePlatform (fst e) (snd e) p = true).
          { rewrite samePlatform_key. apply platHasKey_iff. exact Hp. }
          pose proof (find_none _ _ Hfind p Hpin) as Hno. congruence. }
        change (pkg_name (fst e), raw_architecture (snd e)) with (keyOf e).
        rewrite (find_app_None _ _ _ Hnone). cbn [List.find].
        assert (Hself : entryHasKey (keyOf e) e = true)
          by (apply entryHasKey_iff; reflexivity).
        rewrite Hself. reflexivity.
Qed.

Lemma fold_addEntry_extended (es : list Ent) :
  Forall2 extendedBy (fold_left addEntry es [])
                     (fold_left (PackageIndex.addEntry boardName) es []).
Proof.
  induction es as [|e es IH] using rev_ind; [constructor|].
  rewrite !fold_left_app. cbn [fold_left]. apply extendedBy_step. exact IH.
Qed.
End Index.

(** X30. The older [parsePackageIndex] builds the platforms the newer
    one builds, with the same names, architectures, packages and
    versions, but with fewer boards: a platform has the boards of the
    first entry of its package and architecture, and the newer version
    adds to these the boards of the later entries. *)
Theorem legacy_parsePackageIndex_keeps_first_boards
        {Board : Type} (boardName : Board -> string)
        (indexFiles : list (list (RawPackage Board))) :
  Forall2 extendedBy (parseIndexFiles indexFiles)
                     (PackageIndex.parseIndexFiles boardName indexFiles)
  /\ Forall (boardsOfFirst (allEntries indexFiles)) (parseIndexFiles indexFiles).
Proof.
  rewrite legacy_parseIndexFiles_entries, PackageIndex.parseIndexFiles_entries. split.
  - apply fold_addEntry_extended.
  - apply fold_addEntry_first.
Qed.

End LegacyIndex.
